(** * lxc copy: a shallow embedding of [copyCmd.copyContainer] (lxc/copy.go)

    The command copies a container inside one LXD endpoint or migrates it
    between two endpoints.  Every call that leaves the function (client
    construction, REST requests, operation waits, printing) is an effect; the
    function is embedded as a tree of such calls, and run against a world
    that answers them. *)

From Stdlib Require Import ZArith Ascii String.
From stdpp Require Import gmap strings list fin_maps.

Open Scope string_scope.
Open Scope list_scope.

(** ** Go values *)

(** A Go [error] is modelled by its message; a nilable [error] is an
    [option]. *)
Definition error := string.

(** [map[string]T]: [None] is the nil map.  Reads, [range] and [delete] treat
    nil as empty, an assignment into nil panics. *)
Abbreviation gomap V := (option (gmap string V)).

Definition gomap_entries {V} (m : gomap V) : gmap string V := default ∅ m.

(** [m[k]] for a string-valued map: the zero value when the key is absent. *)
Definition gomap_get (m : gomap string) (k : string) : string :=
  default "" (gomap_entries m !! k).

(** [interface{}] values found in decoded JSON metadata; arrays and objects
    are not looked into. *)
Inductive jvalue : Type :=
| JString (s : string)
| JNumber (z : Z)
| JBool (b : bool)
| JNull
| JComposite.

(** [strings.HasPrefix(s, prefix)]. *)
Definition HasPrefix (s prefix : string) : bool := String.prefix prefix s.

(** [strings.Split(s, sep)] for a one-byte separator: the pieces between
    the separators, never an empty slice. *)
Fixpoint Split_go (s : string) (sep : ascii) (cur : string) : list string :=
  match s with
  | EmptyString => [cur]
  | String c s' =>
      if Ascii.eqb c sep then cur :: Split_go s' sep ""
      else Split_go s' sep (cur +:+ String c "")
  end.

Definition Split (s : string) (sep : ascii) : list string := Split_go s sep "".

(** [fmt.Errorf] and [fmt.Printf] with one [%s] verb; a nil error operand
    prints as [%!s(<nil>)]. *)
Definition show_error (e : option error) : string := default "%!s(<nil>)" e.

(** ** The client library's data (lxd, shared/api) *)

Record lxd_Config := { DefaultRemote : string }.

Record Client := { Remote : string; Certificate : string }.

Record Container := {
  cArchitecture : string;
  cDevices : gomap (gomap string);
  cConfig : gomap string;
  cProfiles : list string;
  cEphemeral : bool }.

Record ContainerSnapshot := {
  sArchitecture : string;
  sDevices : gomap (gomap string);
  sConfig : gomap string;
  sProfiles : list string }.

Record Profile := { Name : string }.

Record Operation := {
  Resources : gomap (list string);
  Metadata : gomap jvalue;
  Err : string }.

(** [api.Response]: the operation URL and the metadata, with the outcome of
    [MetadataAsOperation] on it. *)
Record Response := {
  ROperation : string;
  MetadataAsOperation : Operation + error }.

(** The local [status] struct of [copyContainer]. *)
Record Status := {
  Architecture : string;
  Devices : gomap (gomap string);
  Config : gomap string;
  Profiles : list string }.

(** The arguments of [Client.MigrateFrom], in the order of the call. *)
Record MigrateArgs := {
  mName : string;
  mOperation : string;
  mCertificate : string;
  mSecrets : gmap string string;
  mArchitecture : string;
  mConfig : gomap string;
  mDevices : gomap (gomap string);
  mProfiles : list string;
  mBaseImage : string;
  mEphemeral : bool;
  mPush : bool;
  mSource : Client;
  mSourceOperation : string;
  mContainerOnly : bool }.

(** ** Effects *)

(** One constructor per call that leaves [copyContainer]; the index is the
    type of the answer.  A Go result [(T, error)] is a sum.  [Schedule] is
    no call of the source: it asks the scheduler which of the two waiting
    goroutines of lines 231-233 sends first. *)
Inductive call : Type → Type :=
| NewClient (config : lxd_Config) (remote : string) : call (Client + error)
| ContainerInfo (c : Client) (name : string) : call (Container + error)
| SnapshotInfo (c : Client) (name : string) : call (ContainerSnapshot + error)
| LocalCopy (c : Client) (source dest : string) (config : gomap string)
    (profiles : list string) (ephemeral containerOnly : bool) : call (Response + error)
| WaitForSuccess (c : Client) (op : string) : call (option error)
| ListProfiles (c : Client) : call (list Profile + error)
| GetMigrationSourceWS (c : Client) (name : string) (stateful containerOnly : bool)
    : call (Response + error)
| Addresses (c : Client) : call (list string + error)
| MigrateFrom (c : Client) (a : MigrateArgs) : call (Response + error)
| GetOperation (c : Client) (op : string) : call (Operation + error)
| Printf (s : string) : call unit
| Schedule : call bool.

(** A program: return, panic, or make a call and go on with its answer. *)
Inductive prog (A : Type) : Type :=
| Ret (a : A)
| Panic (msg : string)
| Call {X : Type} (c : call X) (k : X → prog A).

Arguments Ret {A} a.
Arguments Panic {A} msg.
Arguments Call {A X} c k.

Fixpoint bind {A B} (p : prog A) (f : A → prog B) : prog B :=
  match p with
  | Ret a => f a
  | Panic m => Panic m
  | Call c k => Call c (λ x, bind (k x) f)
  end.

Inductive outcome (A : Type) : Type :=
| Returned (a : A)
| Panicked (msg : string).

Arguments Returned {A} a.
Arguments Panicked {A} msg.

Inductive event : Type :=
| Ev {X : Type} (c : call X) (x : X).

(** Running a program against a world: the world's state is threaded through
    the calls, and the calls are logged with their answers. *)
Fixpoint exec {W A} (handle : ∀ X, call X → W → X * W) (p : prog A) (w : W)
  : outcome A * W * list event :=
  match p with
  | Ret a => (Returned a, w, [])
  | Panic m => (Panicked m, w, [])
  | Call c k =>
      let '(x, w1) := handle _ c w in
      let '(r, w2, tr) := exec handle (k x) w1 in
      (r, w2, Ev c x :: tr)
  end.

(** ** The command *)

Record copyCmd := {
  profArgs : option (list string);
  confArgs : list string;
  ephem : bool;
  containerOnly : bool }.

(** The messages; [i18n.G] is taken as the identity. *)
Definition nl : string := String "010"%char "".

Definition errSourceName : error := "you must specify a source container name".
Definition errSameName : error := "can't copy to the same container name".
Definition errNoResource : error :=
  "didn't get any affected image, container or snapshot from server".
Definition errProfiles : error :=
  "not all the profiles from the source exist on the target".
Definition errSourceHost (e : string) : error :=
  "Migration failed on source host: " +:+ e.
Definition errTargetHost (e : option error) : error :=
  "Migration failed on target host: " +:+ show_error e.
Definition msgContainerName (name : string) : string :=
  "Container name is: " +:+ name +:+ nl.

Definition volatile_key (k : string) : bool := HasPrefix k "volatile".

(** Lines 107-113: every key that starts with "volatile" is deleted. *)
Definition stripVolatile (keepVolatile : bool) (cfg : gomap string) : gomap string :=
  if negb keepVolatile
  then filter (λ kv : string * string, ¬ Is_true (volatile_key kv.1)) <$> cfg
  else cfg.

(** Modelled from the spec: [shared.NewStringSet] and [IsSubset] are not in
    the source at hand; every source profile name has to be present in the
    destination's catalog. *)
Definition IsSubset (sourceProfs destProfs : list string) : bool :=
  bool_decide (list_to_set (C := gset string) sourceProfs
                 ⊆ list_to_set (C := gset string) destProfs).

Definition destOpId : nat := 0.
Definition sourceOpId : nat := 1.

(** What a waiter sends on [waitchan]: [map[int]error{senderid: err}]. *)
Definition wait (cli : Client) (op : string) (senderid : nat)
  : prog (gmap nat (option error)) :=
  Call (WaitForSuccess cli op) (λ r, Ret {[ senderid := r ]}).

(** Lines 231-233: the two goroutines.  Each waiter waits and sends in one
    step; the scheduler decides which of them gets there first. *)
Definition goWait (dest : Client) (destOp : string) (source : Client) (sourceOp : string)
  : prog (list (gmap nat (option error))) :=
  Call Schedule (λ destFirst : bool,
    if destFirst
    then bind (wait dest destOp destOpId) (λ d,
         bind (wait source sourceOp sourceOpId) (λ s, Ret [d; s]))
    else bind (wait source sourceOp sourceOpId) (λ s,
         bind (wait dest destOp destOpId) (λ d, Ret [s; d]))).

(** Lines 238-244, the body of the receive loop on
    [(sourceOpErr, destOpErr)]. *)
Definition receive (st : option error * option error) (tmp : gmap nat (option error))
  : option error * option error :=
  match tmp !! sourceOpId with
  | Some err => (err, st.2)
  | None => (st.1, None)
  end.

(** Lines 235-245. *)
Definition receiveAll (msgs : list (gmap nat (option error)))
  : option error * option error :=
  fold_left receive msgs (None, None).

(** Lines 131-144 and again 255-268: the name of the created container. *)
Definition reportName (resp : Response) : prog (option error) :=
  match MetadataAsOperation resp with
  | inr _ => Ret (Some errNoResource)
  | inl op =>
      match gomap_entries (Resources op) !! "containers" with
      | None | Some [] => Ret (Some errNoResource)
      | Some (c0 :: _) =>
          let fields := Split c0 "/"%char in
          Call (Printf (msgContainerName (List.last fields ""))) (λ _, Ret None)
      end
  end.

(** Lines 195-197: [secrets[k] = v.(string)] for every entry. *)
Definition assertString (v : jvalue) : option string :=
  match v with JString s => Some s | _ => None end.

Definition buildSecrets (metadata : gomap jvalue) : option (gmap string string) :=
  map_fold (λ k v acc, secrets ← acc; s ← assertString v; Some (<[k:=s]> secrets))
    (Some ∅) (gomap_entries metadata).

(** Go's [x, err := f(...); if err != nil { return err }]. *)
Definition try {X} (c : call (X + error)) (k : X → prog (option error))
  : prog (option error) :=
  Call c (λ r, match r with inl x => k x | inr err => Ret (Some err) end).

Notation "x ←! c ; k" := (try c (λ x, k))
  (at level 200, c at level 100, k at level 200, right associativity,
   format "'[v' x  ←!  c ; '/' k ']'").

Section CopyContainer.

(** What the function takes from the rest of the package and from the
    client library: the locator parser [lxd.Config.ParseRemoteAndContainer],
    [shared.IsSnapshot], the package variable [configMap] filled by the
    [--config] flag, and the package's [errArgs]. *)
Variable ParseRemoteAndContainer : lxd_Config → string → string * string.
Variable IsSnapshot : string → bool.
Variable configMap : gomap string.
Variable errArgs : error.

(** Lines 72-93. *)
Definition fetchStatus (source : Client) (sourceName : string)
  : prog (Status + error) :=
  if negb (IsSnapshot sourceName) then
    Call (ContainerInfo source sourceName) (λ r,
      match r with
      | inr err => Ret (inr err)
      | inl result =>
          Ret (inl {| Architecture := cArchitecture result;
                      Devices := cDevices result;
                      Config := cConfig result;
                      Profiles := cProfiles result |})
      end)
  else
    Call (SnapshotInfo source sourceName) (λ r,
      match r with
      | inr err => Ret (inr err)
      | inl result =>
          Ret (inl {| Architecture := sArchitecture result;
                      Devices := sDevices result;
                      Config := sConfig result;
                      Profiles := sProfiles result |})
      end).

(** Lines 95-97. *)
Definition addProfiles (c : copyCmd) (profiles : list string) : list string :=
  match profArgs c with
  | Some args => profiles ++ args
  | None => profiles
  end.

(** Lines 99-103: [status.Config[key] = value] for every entry of
    [configMap]; [None] is the panic of an assignment into a nil map. *)
Definition mergeConfig (cfg : gomap string) : option (gomap string) :=
  match configMap with
  | None => Some cfg
  | Some cm =>
      match cfg with
      | Some m => Some (Some (cm ∪ m))
      | None => if decide (cm = ∅) then Some None else None
      end
  end.

(** Lines 116-147, the local copy. *)
Definition localCopy (source : Client) (sourceName destName destResource : string)
    (status : Status) (ephemeral : Z) (containerOnly : bool)
  : prog (option error) :=
  if decide (sourceName = destName) then Ret (Some errSameName) else
  cp ←! LocalCopy source sourceName destName (Config status) (Profiles status)
          (bool_decide (ephemeral = 1%Z)) containerOnly;
  Call (WaitForSuccess source (ROperation cp)) (λ err,
    match err with
    | Some e => Ret (Some e)
    | None => if decide (destResource = "") then reportName cp else Ret None
    end).

Section Migration.

Variables (source dest : Client) (destName destResource : string).
Variables (sourceWSResponse : Response) (secrets : gmap string string).
Variables (status : Status) (baseImage : string).
Variables (ephemeral : Z) (containerOnly : bool).

(** Line 222, the arguments of [dest.MigrateFrom]. *)
Definition migrateArgs (sourceWSUrl : string) : MigrateArgs :=
  {| mName := destName;
     mOperation := sourceWSUrl;
     mCertificate := Certificate source;
     mSecrets := secrets;
     mArchitecture := Architecture status;
     mConfig := Config status;
     mDevices := Devices status;
     mProfiles := Profiles status;
     mBaseImage := baseImage;
     mEphemeral := bool_decide (ephemeral = 1%Z);
     mPush := false;
     mSource := source;
     mSourceOperation := ROperation sourceWSResponse;
     mContainerOnly := containerOnly |}.

(** Lines 273-280, after the loop. *)
Definition exhausted (migrationErrFromClient : option error) : prog (option error) :=
  Call (GetOperation source (ROperation sourceWSResponse)) (λ r,
    match r with
    | inl sourceOp =>
        if decide (Err sourceOp ≠ "")
        then Ret (Some (errSourceHost (Err sourceOp)))
        else Ret (Some (errTargetHost migrationErrFromClient))
    | inr _ => Ret (Some (errTargetHost migrationErrFromClient))
    end).

(** Lines 230-270, what follows an accepted handshake: both waiters are
    started, both messages are received, and the attempt is decided.
    [next] is what [continue] goes on with. *)
Definition awaitBoth (migration : Response) (next : prog (option error))
  : prog (option error) :=
  bind (goWait dest (ROperation migration)
          source (ROperation sourceWSResponse)) (λ msgs,
    let '(sourceOpErr, destOpErr) := receiveAll msgs in
    match destOpErr with
    | Some _ => next
    | None =>
        match sourceOpErr with
        | Some e => Ret (Some e)
        | None =>
            if decide (destResource = "")
            then reportName migration
            else Ret None
        end
    end).

(** Lines 218-271, the loop over the addresses, followed by lines
    273-280 when it runs out.  [migrationErrFromClient] is the variable
    of line 217. *)
Fixpoint tryAddresses (addresses : list string)
    (migrationErrFromClient : option error) : prog (option error) :=
  match addresses with
  | [] => exhausted migrationErrFromClient
  | addr :: rest =>
      let sourceWSUrl := "https://" +:+ addr +:+ ROperation sourceWSResponse in
      Call (MigrateFrom dest (migrateArgs sourceWSUrl)) (λ r,
        match r with
        | inr err => tryAddresses rest (Some err)
        | inl migration => awaitBoth migration (tryAddresses rest None)
        end)
  end.

(** Lines 199-281: the addresses are asked for and tried. *)
Definition tryAllAddresses : prog (option error) :=
  addresses ←! Addresses source;
  tryAddresses addresses None.

End Migration.

(** Lines 170-181: an [ephemeral] of -1 is replaced by the source
    container's own setting. *)
Definition resolveEphemeral (source : Client) (sourceName : string) (ephemeral : Z)
  : prog (Z + error) :=
  if decide (ephemeral = (-1)%Z) then
    Call (ContainerInfo source sourceName) (λ r,
      match r with
      | inr err => Ret (inr err)
      | inl ct => Ret (inl (if cEphemeral ct then 1%Z else 0%Z))
      end)
  else Ret (inl ephemeral).

(** Lines 149-271, the migration to another remote. *)
Definition migrate (config : lxd_Config) (source : Client)
    (sourceName destRemote destName destResource : string)
    (status : Status) (baseImage : string)
    (ephemeral : Z) (stateful containerOnly : bool) : prog (option error) :=
  dest ←! NewClient config destRemote;
  profiles ←! ListProfiles dest;
  if negb (IsSubset (Profiles status) (Name <$> profiles))
  then Ret (Some errProfiles) else
  bind (resolveEphemeral source sourceName ephemeral) (λ r,
    match r with
    | inr err => Ret (Some err)
    | inl ephemeral =>
        sourceWSResponse ←! GetMigrationSourceWS source sourceName stateful
                              containerOnly;
        match MetadataAsOperation sourceWSResponse with
        | inr err => Ret (Some err)
        | inl op =>
            match buildSecrets (Metadata op) with
            | None => Panic "interface conversion: interface {} is not string"
            | Some secrets =>
                tryAllAddresses source dest destName destResource sourceWSResponse
                  secrets status baseImage ephemeral containerOnly
            end
        end
    end).

(** Lines 42-281.  [ephemeral] is a Go [int]; it is only compared with -1
    and 1. *)
Definition copyContainer (c : copyCmd) (config : lxd_Config)
    (sourceResource destResource : string) (keepVolatile : bool)
    (ephemeral : Z) (stateful containerOnly : bool) : prog (option error) :=
  let sourceRemote := (ParseRemoteAndContainer config sourceResource).1 in
  let sourceName := (ParseRemoteAndContainer config sourceResource).2 in
  let destRemote := (ParseRemoteAndContainer config destResource).1 in
  let destName := (ParseRemoteAndContainer config destResource).2 in
  if decide (sourceName = "") then Ret (Some errSourceName) else
  let destName :=
    if decide (destName = "" ∧ destResource ≠ "") then sourceName else destName in
  source ←! NewClient config sourceRemote;
  bind (fetchStatus source sourceName) (λ r,
    match r with
    | inr err => Ret (Some err)
    | inl status =>
        let profiles := addProfiles c (Profiles status) in
        match mergeConfig (Config status) with
        | None => Panic "assignment to entry in nil map"
        | Some merged =>
            let baseImage := gomap_get merged "volatile.base_image" in
            let status := {| Architecture := Architecture status;
                             Devices := Devices status;
                             Config := stripVolatile keepVolatile merged;
                             Profiles := profiles |} in
            if decide (sourceRemote = destRemote)
            then localCopy source sourceName destName destResource
                   status ephemeral containerOnly
            else migrate config source sourceName destRemote destName destResource
                   status baseImage ephemeral stateful containerOnly
        end
    end).

(** Lines 283-298, [copyCmd.run]. *)
Definition run (c : copyCmd) (config : lxd_Config) (args : list string)
  : prog (option error) :=
  match args with
  | [] => Ret (Some errArgs)
  | arg0 :: args' =>
      let ephem := if ephem c then 1%Z else 0%Z in
      match args' with
      | [] => copyContainer c config arg0 "" false ephem false (containerOnly c)
      | arg1 :: _ =>
          copyContainer c config arg0 arg1 false ephem false (containerOnly c)
      end
  end.

End CopyContainer.

Arguments fetchStatus : simpl never.
Arguments localCopy : simpl never.
Arguments resolveEphemeral : simpl never.
Arguments exhausted : simpl never.
Arguments awaitBoth : simpl never.
Arguments tryAllAddresses : simpl never.
Arguments migrate : simpl never.
Arguments copyContainer : simpl never.
Arguments goWait : simpl never.
Arguments reportName : simpl never.

(** ** Concrete collaborators *)

(** Modelled from the spec: [lxd.Config.ParseRemoteAndContainer] is not in
    the source at hand.  A locator is [endpoint:name]; without a colon the
    endpoint is the default one and the whole string is the name. *)
Fixpoint cutAtColon (s : string) : option (string * string) :=
  match s with
  | EmptyString => None
  | String c s' =>
      if Ascii.eqb c ":"%char then Some ("", s')
      else match cutAtColon s' with
           | Some (r, n) => Some (String c r, n)
           | None => None
           end
  end.

(** Modelled from the spec: the parser itself, on [cutAtColon]. *)
Definition parseLocator (config : lxd_Config) (raw : string) : string * string :=
  match cutAtColon raw with
  | Some (r, n) => (r, n)
  | None => (DefaultRemote config, raw)
  end.

(** Modelled from the spec: [shared.IsSnapshot] is not in the source at hand.
    A snapshot is named [name/snapshot]. *)
Fixpoint hasSlash (s : string) : bool :=
  match s with
  | EmptyString => false
  | String c s' => Ascii.eqb c "/"%char || hasSlash s'
  end.

(** A scripted world: fixed answers to the lookups, and a list of answers
    to the successive handshakes, used up one per [MigrateFrom]. *)
Record World := {
  w_client : string → Client + error;
  w_container : string → Container + error;
  w_snapshot : string → ContainerSnapshot + error;
  w_copy : Response + error;
  w_profiles : list Profile + error;
  w_session : Response + error;
  w_addresses : list string + error;
  w_handshakes : list (Response + error);
  w_wait : string → string → option error;
  w_operation : Operation + error;
  w_destFirst : bool }.

Definition useHandshake (w : World) : World :=
  {| w_client := w_client w; w_container := w_container w;
     w_snapshot := w_snapshot w; w_copy := w_copy w;
     w_profiles := w_profiles w; w_session := w_session w;
     w_addresses := w_addresses w; w_handshakes := tail (w_handshakes w);
     w_wait := w_wait w; w_operation := w_operation w;
     w_destFirst := w_destFirst w |}.

Definition answer : ∀ X, call X → World → X * World :=
  λ X c,
    match c in call X return World → X * World with
    | NewClient _ remote => λ w, (w_client w remote, w)
    | ContainerInfo _ name => λ w, (w_container w name, w)
    | SnapshotInfo _ name => λ w, (w_snapshot w name, w)
    | LocalCopy _ _ _ _ _ _ _ => λ w, (w_copy w, w)
    | WaitForSuccess cli op => λ w, (w_wait w (Remote cli) op, w)
    | ListProfiles _ => λ w, (w_profiles w, w)
    | GetMigrationSourceWS _ _ _ _ => λ w, (w_session w, w)
    | Addresses _ => λ w, (w_addresses w, w)
    | MigrateFrom _ _ => λ w,
        (default (inr "no answer") (head (w_handshakes w)), useHandshake w)
    | GetOperation _ _ => λ w, (w_operation w, w)
    | Printf _ => λ w, (tt, w)
    | Schedule => λ w, (w_destFirst w, w)
    end.

Definition emptyOperation : Operation :=
  {| Resources := None; Metadata := None; Err := "" |}.

Definition container0 : Container :=
  {| cArchitecture := "x86_64"; cDevices := Some ∅;
     cConfig := Some {[ "volatile.base_image" := "img1"; "limits.cpu" := "2" ]};
     cProfiles := ["default"]; cEphemeral := true |}.

(** A world where everything succeeds and two addresses are known. *)
Definition world0 : World :=
  {| w_client := λ remote, inl {| Remote := remote; Certificate := "cert" |};
     w_container := λ _, inl container0;
     w_snapshot := λ _, inr "not found";
     w_copy := inl {| ROperation := "/1.0/operations/cp";
                      MetadataAsOperation := inl
                        {| Resources := Some {[ "containers" := ["/1.0/containers/c9"] ]};
                           Metadata := None; Err := "" |} |};
     w_profiles := inl [ {| Name := "default" |} ];
     w_session := inl {| ROperation := "/1.0/operations/src";
                         MetadataAsOperation := inl
                           {| Resources := None;
                              Metadata := Some {[ "control" := JString "s1";
                                                  "fs" := JString "s2" ]};
                              Err := "" |} |};
     w_addresses := inl ["10.0.0.1:8443"; "10.0.0.2:8443"];
     w_handshakes := [];
     w_wait := λ _ _, None;
     w_operation := inl emptyOperation;
     w_destFirst := true |}.

Definition cmd0 : copyCmd :=
  {| profArgs := None; confArgs := []; ephem := false; containerOnly := false |}.

Definition config0 : lxd_Config := {| DefaultRemote := "local" |}.

Definition copy0 (configMap : gomap string) (c : copyCmd) (src dst : string)
    (keepVolatile : bool) (ephemeral : Z) (w : World)
  : outcome (option error) * list event :=
  let r := exec answer
             (copyContainer parseLocator hasSlash configMap c config0 src dst
                keepVolatile ephemeral false false) w in
  (r.1.1, r.2).

(** Variations of the scripted world. *)
Definition setContainer (f : string → Container + error) (w : World) : World :=
  {| w_client := w_client w; w_container := f;
     w_snapshot := w_snapshot w; w_copy := w_copy w;
     w_profiles := w_profiles w; w_session := w_session w;
     w_addresses := w_addresses w; w_handshakes := w_handshakes w;
     w_wait := w_wait w; w_operation := w_operation w;
     w_destFirst := w_destFirst w |}.

Definition setProfiles (ps : list Profile + error) (w : World) : World :=
  {| w_client := w_client w; w_container := w_container w;
     w_snapshot := w_snapshot w; w_copy := w_copy w;
     w_profiles := ps; w_session := w_session w;
     w_addresses := w_addresses w; w_handshakes := w_handshakes w;
     w_wait := w_wait w; w_operation := w_operation w;
     w_destFirst := w_destFirst w |}.

Definition setSession (r : Response + error) (w : World) : World :=
  {| w_client := w_client w; w_container := w_container w;
     w_snapshot := w_snapshot w; w_copy := w_copy w;
     w_profiles := w_profiles w; w_session := r;
     w_addresses := w_addresses w; w_handshakes := w_handshakes w;
     w_wait := w_wait w; w_operation := w_operation w;
     w_destFirst := w_destFirst w |}.

Definition setAddresses (a : list string + error) (w : World) : World :=
  {| w_client := w_client w; w_container := w_container w;
     w_snapshot := w_snapshot w; w_copy := w_copy w;
     w_profiles := w_profiles w; w_session := w_session w;
     w_addresses := a; w_handshakes := w_handshakes w;
     w_wait := w_wait w; w_operation := w_operation w;
     w_destFirst := w_destFirst w |}.

Definition setHandshakes (hs : list (Response + error)) (w : World) : World :=
  {| w_client := w_client w; w_container := w_container w;
     w_snapshot := w_snapshot w; w_copy := w_copy w;
     w_profiles := w_profiles w; w_session := w_session w;
     w_addresses := w_addresses w; w_handshakes := hs;
     w_wait := w_wait w; w_operation := w_operation w;
     w_destFirst := w_destFirst w |}.

Definition setWait (f : string → string → option error) (w : World) : World :=
  {| w_client := w_client w; w_container := w_container w;
     w_snapshot := w_snapshot w; w_copy := w_copy w;
     w_profiles := w_profiles w; w_session := w_session w;
     w_addresses := w_addresses w; w_handshakes := w_handshakes w;
     w_wait := f; w_operation := w_operation w;
     w_destFirst := w_destFirst w |}.

Definition setOperation (o : Operation + error) (w : World) : World :=
  {| w_client := w_client w; w_container := w_container w;
     w_snapshot := w_snapshot w; w_copy := w_copy w;
     w_profiles := w_profiles w; w_session := w_session w;
     w_addresses := w_addresses w; w_handshakes := w_handshakes w;
     w_wait := w_wait w; w_operation := o;
     w_destFirst := w_destFirst w |}.

Definition setDestFirst (b : bool) (w : World) : World :=
  {| w_client := w_client w; w_container := w_container w;
     w_snapshot := w_snapshot w; w_copy := w_copy w;
     w_profiles := w_profiles w; w_session := w_session w;
     w_addresses := w_addresses w; w_handshakes := w_handshakes w;
     w_wait := w_wait w; w_operation := w_operation w;
     w_destFirst := b |}.

(** A migration session whose operation carries the given metadata. *)
Definition sessionWith (metadata : gomap jvalue) : Response :=
  {| ROperation := "/1.0/operations/src";
     MetadataAsOperation :=
       inl {| Resources := None; Metadata := metadata; Err := "" |} |}.

Definition noResources : Response :=
  {| ROperation := "/1.0/operations/op"; MetadataAsOperation := inl emptyOperation |}.

Definition withResources : Response :=
  {| ROperation := "/1.0/operations/op";
     MetadataAsOperation :=
       inl {| Resources := Some {[ "containers" := ["/1.0/containers/c7"] ]};
              Metadata := None; Err := "" |} |}.

Definition destinationWaitFails (remote op : string) : option error :=
  if decide (remote = "local") then Some "disk full" else None.

(** ** Projections of a log *)

Definition printed (tr : list event) : list string :=
  omap (λ e, match e with Ev c _ =>
               match c with Printf s => Some s | _ => None end end) tr.

Definition migrations (tr : list event) : list MigrateArgs :=
  omap (λ e, match e with Ev c _ =>
               match c with MigrateFrom _ a => Some a | _ => None end end) tr.

Definition copyEphemerals (tr : list event) : list bool :=
  omap (λ e, match e with Ev c _ =>
               match c with
               | LocalCopy _ _ _ _ _ eph _ => Some eph
               | _ => None
               end end) tr.

(** The configurations sent onward, by a copy request or by a handshake. *)
Definition sentConfigs (tr : list event) : list (gomap string) :=
  omap (λ e, match e with Ev c _ =>
               match c with
               | LocalCopy _ _ _ cfg _ _ _ => Some cfg
               | MigrateFrom _ a => Some (mConfig a)
               | _ => None
               end end) tr.

(** The destination names sent onward. *)
Definition destNames (tr : list event) : list string :=
  omap (λ e, match e with Ev c _ =>
               match c with
               | LocalCopy _ _ d _ _ _ _ => Some d
               | MigrateFrom _ a => Some (mName a)
               | _ => None
               end end) tr.

Definition isListProfiles (e : event) : bool :=
  match e with Ev c _ => match c with ListProfiles _ => true | _ => false end end.

Definition isSession (e : event) : bool :=
  match e with
  | Ev c _ => match c with GetMigrationSourceWS _ _ _ _ => true | _ => false end
  end.

Definition isGetOperation (e : event) : bool :=
  match e with Ev c _ => match c with GetOperation _ _ => true | _ => false end end.

(** The answers to the waits, in the order they came. *)
Definition waitAnswers (tr : list event) : list (option error) :=
  omap (λ e, match e with
             | Ev c x =>
                 match c in call X return X → option (option error) with
                 | WaitForSuccess _ _ => λ r, Some r
                 | _ => λ _, None
                 end x
             end) tr.

(** The container lookups: whose, of which name, and the answer. *)
Definition containerLookups (tr : list event)
  : list (Client * string * (Container + error)) :=
  omap (λ e, match e with
             | Ev c x =>
                 match c in call X
                   return X → option (Client * string * (Container + error)) with
                 | ContainerInfo cli name => λ r, Some (cli, name, r)
                 | _ => λ _, None
                 end x
             end) tr.

(** The configurations the source answered its lookups with. *)
Definition fetchedConfigs (tr : list event) : list (gomap string) :=
  omap (λ e, match e with
             | Ev c x =>
                 match c in call X return X → option (gomap string) with
                 | ContainerInfo _ _ => λ r,
                     match r with inl ct => Some (cConfig ct) | inr _ => None end
                 | SnapshotInfo _ _ => λ r,
                     match r with inl s => Some (sConfig s) | inr _ => None end
                 | _ => λ _, None
                 end x
             end) tr.

(** The handshakes that were accepted, with the destination's answer. *)
Definition accepted (tr : list event) : list Response :=
  omap (λ e, match e with
             | Ev c x =>
                 match c in call X return X → option Response with
                 | MigrateFrom _ _ => λ r,
                     match r with inl m => Some m | inr _ => None end
                 | LocalCopy _ _ _ _ _ _ _ => λ r,
                     match r with inl m => Some m | inr _ => None end
                 | _ => λ _, None
                 end x
             end) tr.

(** ** Properties of programs *)

(** [wp p Q]: whatever the calls are answered, the log and the outcome of
    [p] satisfy [Q]. *)
Fixpoint wp {A} (p : prog A) (Q : list event → outcome A → Prop) : Prop :=
  match p with
  | Ret a => Q [] (Returned a)
  | Panic m => Q [] (Panicked m)
  | Call c k => ∀ x, wp (k x) (λ tr r, Q (Ev c x :: tr) r)
  end.

(** [always P p]: every call [p] can make, with any answer, satisfies [P]. *)
Fixpoint always {A} (P : event → Prop) (p : prog A) : Prop :=
  match p with
  | Ret _ | Panic _ => True
  | Call c k => ∀ x, P (Ev c x) ∧ always P (k x)
  end.

(** ** What the calls of a run are *)

(** The ephemeral flags sent onward, by a copy request or by a handshake. *)
Definition sentEphemerals (tr : list event) : list bool :=
  omap (λ e, match e with Ev c _ =>
               match c with
               | LocalCopy _ _ _ _ _ eph _ => Some eph
               | MigrateFrom _ a => Some (mEphemeral a)
               | _ => None
               end end) tr.

(** An event that sends no state and looks nothing up. *)
Definition quietEvent (e : event) : Prop :=
  match e with
  | Ev c _ =>
      match c with
      | WaitForSuccess _ _ | Schedule | Printf _ | GetOperation _ _ => True
      | _ => False
      end
  end.

(** Lines 50-52 on the parsed destination name. *)
Definition resolvedName
    (ParseRemoteAndContainer : lxd_Config → string → string * string)
    (config : lxd_Config) (sourceResource destResource : string) : string :=
  let sourceName := (ParseRemoteAndContainer config sourceResource).2 in
  let destName := (ParseRemoteAndContainer config destResource).2 in
  if decide (destName = "" ∧ destResource ≠ "") then sourceName else destName.

(** The status after lines 95-113. *)
Definition sentStatus (c : copyCmd) (keepVolatile : bool) (status : Status)
    (merged : gomap string) : Status :=
  {| Architecture := Architecture status;
     Devices := Devices status;
     Config := stripVolatile keepVolatile merged;
     Profiles := addProfiles c (Profiles status) |}.

(** The event of the source lookup of lines 72-93, with the status or the
    error it leaves. *)
Inductive fetched (source : Client) (name : string) : event → Status + error → Prop :=
| fetched_container result :
    fetched source name (Ev (ContainerInfo source name) (inl result))
      (inl {| Architecture := cArchitecture result; Devices := cDevices result;
              Config := cConfig result; Profiles := cProfiles result |})
| fetched_container_err err :
    fetched source name (Ev (ContainerInfo source name) (inr err)) (inr err)
| fetched_snapshot result :
    fetched source name (Ev (SnapshotInfo source name) (inl result))
      (inl {| Architecture := sArchitecture result; Devices := sDevices result;
              Config := sConfig result; Profiles := sProfiles result |})
| fetched_snapshot_err err :
    fetched source name (Ev (SnapshotInfo source name) (inr err)) (inr err).

(** An event that shows in none of the projections of the log below. *)
Definition silent (ev : event) : Prop :=
  ∀ t,
    sentConfigs (ev :: t) = sentConfigs t ∧ migrations (ev :: t) = migrations t ∧
    destNames (ev :: t) = destNames t ∧ printed (ev :: t) = printed t ∧
    copyEphemerals (ev :: t) = copyEphemerals t ∧ accepted (ev :: t) = accepted t ∧
    filter isListProfiles (ev :: t) = filter isListProfiles t ∧
    filter isSession (ev :: t) = filter isSession t ∧
    waitAnswers (ev :: t) = waitAnswers t.

(** An event that is no accepted request, no wait and no print. *)
Definition unreported (ev : event) : Prop :=
  ∀ t, accepted (ev :: t) = accepted t ∧ waitAnswers (ev :: t) = waitAnswers t ∧
       printed (ev :: t) = printed t.

(** Every destination name that is sent onward is the one below. *)
Definition sendsName (destName : string) (e : event) : Prop :=
  match e with
  | Ev c _ =>
      match c with
      | LocalCopy _ _ d _ _ _ _ => d = destName
      | MigrateFrom _ a => mName a = destName
      | _ => True
      end
  end.

(** The calls of the transfer, be it the local copy or the migration: what
    is sent is the destination name, the status and the base image that
    lines 43-113 came to. *)
Definition transferEvent (destName : string) (status : Status) (baseImage : string)
    (e : event) : Prop :=
  match e with
  | Ev c _ =>
      match c with
      | LocalCopy _ _ d cfg profs _ _ =>
          d = destName ∧ cfg = Config status ∧ profs = Profiles status
      | MigrateFrom _ a =>
          mName a = destName ∧ mArchitecture a = Architecture status ∧
          mConfig a = Config status ∧ mDevices a = Devices status ∧
          mProfiles a = Profiles status ∧ mBaseImage a = baseImage
      | SnapshotInfo _ _ => False
      | _ => True
      end
  end.



(** The calls of lines 170-281, after the profile check: no client is made
    and no profile list is asked for. *)
Definition afterCheck (e : event) : Prop :=
  match e with
  | Ev c _ =>
      match c with
      | NewClient _ _ | ListProfiles _ | SnapshotInfo _ _
      | LocalCopy _ _ _ _ _ _ _ => False
      | _ => True
      end
  end.

(** The calls of the local copy: no profile list, no session, no
    handshake. *)
Definition localEvent (e : event) : Prop :=
  isListProfiles e = false ∧ isSession e = false ∧ migrations [e] = [].

Definition isString (v : jvalue) : Prop := ∃ s, v = JString s.

(** The "containers" resources of the operation in a response's metadata. *)
Definition containersOf (resp : Response) : option (list string) :=
  match MetadataAsOperation resp with
  | inl op => gomap_entries (Resources op) !! "containers"
  | inr _ => None
  end.

(** The last path segment. *)
Definition createdName (path : string) : string := List.last (Split path "/") "".

(** What a run reports, read off the accepted requests, the answers to the
    waits and the printed lines: a success prints the created name exactly
    when there is no destination locator, the name being the last segment of
    the first "containers" resource of the last accepted request; and with no
    destination locator, an accepted request whose waits all succeeded and
    that has no such resource ends in the missing-resource error. *)
Definition reportedObs (destResource : string) (acc : list Response)
    (waits : list (option error)) (prn : list string)
    (r : outcome (option error)) : Prop :=
  (r = Returned None →
   if decide (destResource = "")
   then ∃ resp c0 rest,
          last acc = Some resp ∧ containersOf resp = Some (c0 :: rest) ∧
          prn = [msgContainerName (createdName c0)]
   else prn = []) ∧
  (destResource = "" →
   ∀ resp, last acc = Some resp → Forall (λ a, a = None) waits →
     containersOf resp = None ∨ containersOf resp = Some [] →
     r = Returned (Some errNoResource) ∧ prn = []).

Definition reported (destResource : string) (tr : list event)
    (r : outcome (option error)) : Prop :=
  reportedObs destResource (accepted tr) (waitAnswers tr) (printed tr) r.

Section Attempts.

Variables (source dest : Client) (destName : string).
Variables (sourceWSResponse : Response) (secrets : gmap string string).
Variables (status : Status) (baseImage : string).
Variables (ephemeral : Z) (containerOnly : bool).

Definition sourceWSUrl (addr : string) : string :=
  "https://" +:+ addr +:+ ROperation sourceWSResponse.

(** The handshake of line 222 for one address. *)
Definition handshake (addr : string) : call (Response + error) :=
  MigrateFrom dest
    (migrateArgs source destName sourceWSResponse secrets status baseImage
       ephemeral containerOnly (sourceWSUrl addr)).

(** The calls of the address loop: quiet ones, and handshakes that carry the
    arguments of line 222 for one of the addresses. *)
Definition loopEvent (addresses : list string) (e : event) : Prop :=
  quietEvent e ∨
  ∃ addr x, addr ∈ addresses ∧
    e = Ev (MigrateFrom dest
              (migrateArgs source destName sourceWSResponse secrets status
                 baseImage ephemeral containerOnly
                 ("https://" +:+ addr +:+ ROperation sourceWSResponse))) x.

(** The two waits in the order the scheduler chose. *)
Definition waitEvents (migration : Response) (destFirst : bool)
    (d s : option error) : list event :=
  let wd := Ev (WaitForSuccess dest (ROperation migration)) d in
  let ws := Ev (WaitForSuccess source (ROperation sourceWSResponse)) s in
  Ev Schedule destFirst :: (if destFirst then [wd; ws] else [ws; wd]).

Context {W : Type} (handle : ∀ X, call X → W → X * W).

(** The world's answers to the handshakes for these addresses, asked one
    after the other: when it rejects them all, the world it is left in, the
    last error and the log; [None] when it accepts one. *)
Fixpoint rejects (w : W) (addresses : list string) (lastErr : option error)
  : option (W * option error * list event) :=
  match addresses with
  | [] => Some (w, lastErr, [])
  | addr :: rest =>
      match handle _ (handshake addr) w with
      | (inr err, w1) =>
          match rejects w1 rest (Some err) with
          | Some (w2, lastErr', tr) =>
              Some (w2, lastErr', Ev (handshake addr) (inr err) :: tr)
          | None => None
          end
      | (inl _, _) => None
      end
  end.

End Attempts.

(** ** More projections of a log *)

Definition errOf {X} (r : X + error) : option error :=
  match r with inl _ => None | inr err => Some err end.

Definition okOf {X} (r : X + error) : option X :=
  match r with inl x => Some x | inr _ => None end.

(** The clients that were made. *)
Definition clientAnswers (tr : list event) : list Client :=
  omap (λ e, match e with
             | Ev c x =>
                 match c in call X return X → option Client with
                 | NewClient _ _ => okOf
                 | _ => λ _, None
                 end x
             end) tr.

(** The names the snapshot lookup was made with. *)
Definition snapshotLookups (tr : list event) : list string :=
  omap (λ e, match e with Ev c _ =>
               match c with SnapshotInfo _ name => Some name | _ => None end end) tr.

(** The profiles the source answered its lookups with. *)
Definition fetchedProfiles (tr : list event) : list (list string) :=
  omap (λ e, match e with
             | Ev c x =>
                 match c in call X return X → option (list string) with
                 | ContainerInfo _ _ => λ r, cProfiles <$> okOf r
                 | SnapshotInfo _ _ => λ r, sProfiles <$> okOf r
                 | _ => λ _, None
                 end x
             end) tr.

(** The profiles sent onward, by a copy request or by a handshake. *)
Definition sentProfiles (tr : list event) : list (list string) :=
  omap (λ e, match e with Ev c _ =>
               match c with
               | LocalCopy _ _ _ _ profs _ _ => Some profs
               | MigrateFrom _ a => Some (mProfiles a)
               | _ => None
               end end) tr.

(** The [containerOnly] flags sent onward, by a copy request, a session
    request or a handshake. *)
Definition sentContainerOnly (tr : list event) : list bool :=
  omap (λ e, match e with Ev c _ =>
               match c with
               | LocalCopy _ _ _ _ _ _ only => Some only
               | GetMigrationSourceWS _ _ _ only => Some only
               | MigrateFrom _ a => Some (mContainerOnly a)
               | _ => None
               end end) tr.

(** The [stateful] flags of the session requests. *)
Definition sessionStateful (tr : list event) : list bool :=
  omap (λ e, match e with Ev c _ =>
               match c with
               | GetMigrationSourceWS _ _ stateful _ => Some stateful
               | _ => None
               end end) tr.

(** The sessions the source granted. *)
Definition sessionAnswers (tr : list event) : list Response :=
  omap (λ e, match e with
             | Ev c x =>
                 match c in call X return X → option Response with
                 | GetMigrationSourceWS _ _ _ _ => okOf
                 | _ => λ _, None
                 end x
             end) tr.

(** The address lists the source answered with. *)
Definition discovered (tr : list event) : list (list string) :=
  omap (λ e, match e with
             | Ev c x =>
                 match c in call X return X → option (list string) with
                 | Addresses _ => okOf
                 | _ => λ _, None
                 end x
             end) tr.

(** The handshakes, with what the destination answered. *)
Definition handshakeAnswers (tr : list event) : list (string * (Response + error)) :=
  omap (λ e, match e with
             | Ev c x =>
                 match c in call X return X → option (string * (Response + error)) with
                 | MigrateFrom _ a => λ r, Some (mOperation a, r)
                 | _ => λ _, None
                 end x
             end) tr.

(** The errors of the rejected handshakes. *)
Definition handshakeErrors (tr : list event) : list error :=
  omap (λ e, match e with
             | Ev c x =>
                 match c in call X return X → option error with
                 | MigrateFrom _ _ => errOf
                 | _ => λ _, None
                 end x
             end) tr.

(** The answers to [GetOperation]. *)
Definition statusAnswers (tr : list event) : list (Operation + error) :=
  omap (λ e, match e with
             | Ev c x =>
                 match c in call X return X → option (Operation + error) with
                 | GetOperation _ _ => λ r, Some r
                 | _ => λ _, None
                 end x
             end) tr.

(** The waits: whose operation, and which. *)
Definition waits (tr : list event) : list (Client * string) :=
  omap (λ e, match e with Ev c _ =>
               match c with WaitForSuccess cli op => Some (cli, op) | _ => None end
             end) tr.

(** The errors that the calls answered with, those of the handshakes and of
    [GetOperation] left out. *)
Definition fatalErrors (tr : list event) : list error :=
  omap (λ e, match e with
             | Ev c x =>
                 match c in call X return X → option error with
                 | NewClient _ _ => errOf
                 | ContainerInfo _ _ => errOf
                 | SnapshotInfo _ _ => errOf
                 | LocalCopy _ _ _ _ _ _ _ => errOf
                 | WaitForSuccess _ _ => λ r, r
                 | ListProfiles _ => errOf
                 | GetMigrationSourceWS _ _ _ _ => errOf
                 | Addresses _ => errOf
                 | _ => λ _, None
                 end x
             end) tr.

(** The calls of a copy within one remote. *)
Definition isLocalCall (e : event) : bool :=
  match e with
  | Ev c _ =>
      match c with
      | NewClient _ _ | ContainerInfo _ _ | SnapshotInfo _ _
      | LocalCopy _ _ _ _ _ _ _ | WaitForSuccess _ _ | Printf _ => true
      | _ => false
      end
  end.

Definition isSnapshotLookup (e : event) : bool :=
  match e with Ev c _ => match c with SnapshotInfo _ _ => true | _ => false end end.

(** ** The runs of [copyContainer]

    Each relation below lists the ways one part of the function can go:
    the log it leaves and what it returns. *)

(** Lines 131-144 and 255-268. *)
Inductive reportRun (resp : Response)
  : list event → outcome (option error) → Prop :=
| report_name c0 rest :
    containersOf resp = Some (c0 :: rest) →
    reportRun resp [Ev (Printf (msgContainerName (createdName c0))) ()]
      (Returned None)
| report_missing :
    containersOf resp = None ∨ containersOf resp = Some [] →
    reportRun resp [] (Returned (Some errNoResource)).

(** Lines 131-146 and 255-270. *)
Inductive finishRun (destResource : string) (resp : Response)
  : list event → outcome (option error) → Prop :=
| finish_report tr r :
    destResource = "" → reportRun resp tr r → finishRun destResource resp tr r
| finish_silent :
    destResource ≠ "" → finishRun destResource resp [] (Returned None).

(** Lines 116-147. *)
Inductive localRun (source : Client) (sourceName destName destResource : string)
    (status : Status) (ephemeral : Z) (only : bool)
  : list event → outcome (option error) → Prop :=
| local_same_name :
    sourceName = destName →
    localRun source sourceName destName destResource status ephemeral only
      [] (Returned (Some errSameName))
| local_refused err :
    sourceName ≠ destName →
    localRun source sourceName destName destResource status ephemeral only
      [Ev (LocalCopy source sourceName destName (Config status) (Profiles status)
             (bool_decide (ephemeral = 1%Z)) only) (inr err)]
      (Returned (Some err))
| local_wait_failed cp err :
    sourceName ≠ destName →
    localRun source sourceName destName destResource status ephemeral only
      [Ev (LocalCopy source sourceName destName (Config status) (Profiles status)
             (bool_decide (ephemeral = 1%Z)) only) (inl cp);
       Ev (WaitForSuccess source (ROperation cp)) (Some err)]
      (Returned (Some err))
| local_finished cp tr r :
    sourceName ≠ destName →
    finishRun destResource cp tr r →
    localRun source sourceName destName destResource status ephemeral only
      (Ev (LocalCopy source sourceName destName (Config status) (Profiles status)
             (bool_decide (ephemeral = 1%Z)) only) (inl cp)
         :: Ev (WaitForSuccess source (ROperation cp)) None :: tr)
      r.

(** Lines 275-280, the error after the loop. *)
Definition exhaustedError (lastErr : option error) (answer : Operation + error)
  : error :=
  match answer with
  | inl sourceOp =>
      if decide (Err sourceOp ≠ "") then errSourceHost (Err sourceOp)
      else errTargetHost lastErr
  | inr _ => errTargetHost lastErr
  end.

(** Lines 218-281, from the addresses left and the last handshake error. *)
Inductive loopRun (source dest : Client) (destName destResource : string)
    (sourceWSResponse : Response) (secrets : gmap string string)
    (status : Status) (baseImage : string) (ephemeral : Z) (only : bool)
  : list string → option error → list event → outcome (option error) → Prop :=
| loop_exhausted lastErr answer :
    loopRun source dest destName destResource sourceWSResponse secrets status
      baseImage ephemeral only [] lastErr
      [Ev (GetOperation source (ROperation sourceWSResponse)) answer]
      (Returned (Some (exhaustedError lastErr answer)))
| loop_rejected addr rest lastErr err tr r :
    loopRun source dest destName destResource sourceWSResponse secrets status
      baseImage ephemeral only rest (Some err) tr r →
    loopRun source dest destName destResource sourceWSResponse secrets status
      baseImage ephemeral only (addr :: rest) lastErr
      (Ev (handshake source dest destName sourceWSResponse secrets status
             baseImage ephemeral only addr) (inr err) :: tr)
      r
| loop_source_failed addr rest lastErr migration destFirst d err :
    loopRun source dest destName destResource sourceWSResponse secrets status
      baseImage ephemeral only (addr :: rest) lastErr
      (Ev (handshake source dest destName sourceWSResponse secrets status
             baseImage ephemeral only addr) (inl migration)
         :: waitEvents source dest sourceWSResponse migration destFirst d
              (Some err))
      (Returned (Some err))
| loop_accepted addr rest lastErr migration destFirst d tr r :
    finishRun destResource migration tr r →
    loopRun source dest destName destResource sourceWSResponse secrets status
      baseImage ephemeral only (addr :: rest) lastErr
      (Ev (handshake source dest destName sourceWSResponse secrets status
             baseImage ephemeral only addr) (inl migration)
         :: waitEvents source dest sourceWSResponse migration destFirst d None
         ++ tr)
      r.

(** Lines 183-281, with the ephemeral flag settled. *)
Inductive sessionRun (source : Client) (sourceName : string) (dest : Client)
    (destName destResource : string) (status : Status) (baseImage : string)
    (ephemeral : Z) (stateful only : bool)
  : list event → outcome (option error) → Prop :=
| session_refused err :
    sessionRun source sourceName dest destName destResource status baseImage
      ephemeral stateful only
      [Ev (GetMigrationSourceWS source sourceName stateful only) (inr err)]
      (Returned (Some err))
| session_unreadable resp err :
    MetadataAsOperation resp = inr err →
    sessionRun source sourceName dest destName destResource status baseImage
      ephemeral stateful only
      [Ev (GetMigrationSourceWS source sourceName stateful only) (inl resp)]
      (Returned (Some err))
| session_panic resp op :
    MetadataAsOperation resp = inl op →
    buildSecrets (Metadata op) = None →
    sessionRun source sourceName dest destName destResource status baseImage
      ephemeral stateful only
      [Ev (GetMigrationSourceWS source sourceName stateful only) (inl resp)]
      (Panicked "interface conversion: interface {} is not string")
| session_no_addresses resp op secrets err :
    MetadataAsOperation resp = inl op →
    buildSecrets (Metadata op) = Some secrets →
    sessionRun source sourceName dest destName destResource status baseImage
      ephemeral stateful only
      [Ev (GetMigrationSourceWS source sourceName stateful only) (inl resp);
       Ev (Addresses source) (inr err)]
      (Returned (Some err))
| session_loop resp op secrets addresses tr r :
    MetadataAsOperation resp = inl op →
    buildSecrets (Metadata op) = Some secrets →
    loopRun source dest destName destResource resp secrets status baseImage
      ephemeral only addresses None tr r →
    sessionRun source sourceName dest destName destResource status baseImage
      ephemeral stateful only
      (Ev (GetMigrationSourceWS source sourceName stateful only) (inl resp)
         :: Ev (Addresses source) (inl addresses) :: tr)
      r.

(** Lines 149-281. *)
Inductive migrateRun (config : lxd_Config) (source : Client)
    (sourceName destRemote destName destResource : string)
    (status : Status) (baseImage : string)
    (ephemeral : Z) (stateful only : bool)
  : list event → outcome (option error) → Prop :=
| migrate_no_client err :
    migrateRun config source sourceName destRemote destName destResource status
      baseImage ephemeral stateful only
      [Ev (NewClient config destRemote) (inr err)] (Returned (Some err))
| migrate_no_profiles dest err :
    migrateRun config source sourceName destRemote destName destResource status
      baseImage ephemeral stateful only
      [Ev (NewClient config destRemote) (inl dest);
       Ev (ListProfiles dest) (inr err)]
      (Returned (Some err))
| migrate_mismatch dest profiles :
    IsSubset (Profiles status) (Name <$> profiles) = false →
    migrateRun config source sourceName destRemote destName destResource status
      baseImage ephemeral stateful only
      [Ev (NewClient config destRemote) (inl dest);
       Ev (ListProfiles dest) (inl profiles)]
      (Returned (Some errProfiles))
| migrate_lookup_failed dest profiles err :
    IsSubset (Profiles status) (Name <$> profiles) = true →
    ephemeral = (-1)%Z →
    migrateRun config source sourceName destRemote destName destResource status
      baseImage ephemeral stateful only
      [Ev (NewClient config destRemote) (inl dest);
       Ev (ListProfiles dest) (inl profiles);
       Ev (ContainerInfo source sourceName) (inr err)]
      (Returned (Some err))
| migrate_unpinned dest profiles ct tr r :
    IsSubset (Profiles status) (Name <$> profiles) = true →
    ephemeral = (-1)%Z →
    sessionRun source sourceName dest destName destResource status baseImage
      (if cEphemeral ct then 1%Z else 0%Z) stateful only tr r →
    migrateRun config source sourceName destRemote destName destResource status
      baseImage ephemeral stateful only
      (Ev (NewClient config destRemote) (inl dest)
         :: Ev (ListProfiles dest) (inl profiles)
         :: Ev (ContainerInfo source sourceName) (inl ct) :: tr)
      r
| migrate_pinned dest profiles tr r :
    IsSubset (Profiles status) (Name <$> profiles) = true →
    ephemeral ≠ (-1)%Z →
    sessionRun source sourceName dest destName destResource status baseImage
      ephemeral stateful only tr r →
    migrateRun config source sourceName destRemote destName destResource status
      baseImage ephemeral stateful only
      (Ev (NewClient config destRemote) (inl dest)
         :: Ev (ListProfiles dest) (inl profiles) :: tr)
      r.

(** Lines 42-281: [copyContainer] on the parsed remotes and names. *)
Inductive copyRun (IsSnapshot : string → bool) (configMap : gomap string)
    (c : copyCmd) (config : lxd_Config)
    (sourceRemote sourceName destRemote destName destResource : string)
    (keepVolatile : bool) (ephemeral : Z) (stateful only : bool)
  : list event → outcome (option error) → Prop :=
| copy_no_name :
    sourceName = "" →
    copyRun IsSnapshot configMap c config sourceRemote sourceName destRemote
      destName destResource keepVolatile ephemeral stateful only
      [] (Returned (Some errSourceName))
| copy_no_client err :
    sourceName ≠ "" →
    copyRun IsSnapshot configMap c config sourceRemote sourceName destRemote
      destName destResource keepVolatile ephemeral stateful only
      [Ev (NewClient config sourceRemote) (inr err)] (Returned (Some err))
| copy_lookup_failed source ev err :
    sourceName ≠ "" →
    fetched source sourceName ev (inr err) →
    isSnapshotLookup ev = IsSnapshot sourceName →
    copyRun IsSnapshot configMap c config sourceRemote sourceName destRemote
      destName destResource keepVolatile ephemeral stateful only
      [Ev (NewClient config sourceRemote) (inl source); ev]
      (Returned (Some err))
| copy_nil_map source ev status :
    sourceName ≠ "" →
    fetched source sourceName ev (inl status) →
    isSnapshotLookup ev = IsSnapshot sourceName →
    mergeConfig configMap (Config status) = None →
    copyRun IsSnapshot configMap c config sourceRemote sourceName destRemote
      destName destResource keepVolatile ephemeral stateful only
      [Ev (NewClient config sourceRemote) (inl source); ev]
      (Panicked "assignment to entry in nil map")
| copy_local source ev status merged tr r :
    sourceName ≠ "" →
    fetched source sourceName ev (inl status) →
    isSnapshotLookup ev = IsSnapshot sourceName →
    mergeConfig configMap (Config status) = Some merged →
    sourceRemote = destRemote →
    localRun source sourceName destName destResource
      (sentStatus c keepVolatile status merged) ephemeral only tr r →
    copyRun IsSnapshot configMap c config sourceRemote sourceName destRemote
      destName destResource keepVolatile ephemeral stateful only
      (Ev (NewClient config sourceRemote) (inl source) :: ev :: tr) r
| copy_migrate source ev status merged tr r :
    sourceName ≠ "" →
    fetched source sourceName ev (inl status) →
    isSnapshotLookup ev = IsSnapshot sourceName →
    mergeConfig configMap (Config status) = Some merged →
    sourceRemote ≠ destRemote →
    migrateRun config source sourceName destRemote destName destResource
      (sentStatus c keepVolatile status merged)
      (gomap_get merged "volatile.base_image") ephemeral stateful only tr r →
    copyRun IsSnapshot configMap c config sourceRemote sourceName destRemote
      destName destResource keepVolatile ephemeral stateful only
      (Ev (NewClient config sourceRemote) (inl source) :: ev :: tr) r.

(** The handshakes that were rejected, one for each address and error. *)
Definition rejections (source dest : Client) (destName : string)
    (sourceWSResponse : Response) (secrets : gmap string string)
    (status : Status) (baseImage : string) (ephemeral : Z) (only : bool)
    (addresses : list string) (errs : list error) : list event :=
  zip_with (λ addr err,
      Ev (handshake source dest destName sourceWSResponse secrets status
            baseImage ephemeral only addr) (inr err))
    addresses errs.

(** [migrationErrFromClient] after the handshakes that gave [errs]. *)
Definition lastError (lastErr : option error) (errs : list error) : option error :=
  match last errs with Some e => Some e | None => lastErr end.

(** * Reasoning about programs

    From here on: lemmas on the definitions above, and the properties of
    [copyContainer]. *)

Section Exec.

Context {W : Type} (handle : ∀ X, call X → W → X * W).

Lemma exec_call {A X} (c : call X) (k : X → prog A) w x w1 :
  handle X c w = (x, w1) →
  exec handle (Call c k) w =
    (let '(r, w2, tr) := exec handle (k x) w1 in (r, w2, Ev c x :: tr)).
Proof. intros H. simpl. by rewrite H. Qed.

Lemma exec_try_ok {X} (c : call (X + error)) k w x w1 :
  handle _ c w = (inl x, w1) →
  exec handle (try c k) w =
    (let '(r, w2, tr) := exec handle (k x) w1 in (r, w2, Ev c (inl x) :: tr)).
Proof. intros H. unfold try. by rewrite (exec_call _ _ _ _ _ H). Qed.

Lemma exec_try_err {X} (c : call (X + error)) k w e w1 :
  handle _ c w = (inr e, w1) →
  exec handle (try c k) w = (Returned (Some e), w1, [Ev c (inr e)]).
Proof. intros H. unfold try. by rewrite (exec_call _ _ _ _ _ H). Qed.

Lemma exec_bind {A B} (p : prog A) (f : A → prog B) w :
  exec handle (bind p f) w =
    (let '(r, w1, t1) := exec handle p w in
     match r with
     | Returned a =>
         let '(r2, w2, t2) := exec handle (f a) w1 in (r2, w2, t1 ++ t2)
     | Panicked m => (Panicked m, w1, t1)
     end).
Proof.
  revert w. induction p as [a|m|X c k IH]; intros w; simpl.
  - by destruct (exec handle (f a) w) as [[r2 w2] t2].
  - done.
  - destruct (handle X c w) as [x w1]. rewrite IH.
    destruct (exec handle (k x) w1) as [[r w2] t1].
    destruct r as [a|m]; [|done].
    by destruct (exec handle (f a) w2) as [[r2 w3] t2].
Qed.

End Exec.

Lemma wp_exec {A} (p : prog A) Q :
  wp p Q →
  ∀ W (handle : ∀ X, call X → W → X * W) w,
    Q (exec handle p w).2 (exec handle p w).1.1.
Proof.
  intros Hwp W handle. revert Q Hwp.
  induction p as [a|m|X c k IH]; intros Q Hwp w; simpl in *; try done.
  destruct (handle X c w) as [x w1].
  specialize (IH x _ (Hwp x) w1).
  by destruct (exec handle (k x) w1) as [[r w2] tr].
Qed.

Lemma wp_mono {A} (p : prog A) (Q Q' : list event → outcome A → Prop) :
  wp p Q → (∀ tr r, Q tr r → Q' tr r) → wp p Q'.
Proof.
  revert Q Q'. induction p as [a|m|X c k IH]; intros Q Q' Hwp HQ; simpl in *;
    [by apply HQ..|].
  intros x. eapply IH; [apply Hwp|]. intros tr r. apply HQ.
Qed.

Lemma wp_bind {A B} (p : prog A) (f : A → prog B) Q :
  wp p (λ t1 r,
    match r with
    | Returned a => wp (f a) (λ t2 r2, Q (t1 ++ t2) r2)
    | Panicked m => Q t1 (Panicked m)
    end) →
  wp (bind p f) Q.
Proof.
  revert Q. induction p as [a|m|X c k IH]; intros Q Hwp; simpl in *; [done..|].
  intros x. apply IH, Hwp.
Qed.

Lemma wp_try {X} (c : call (X + error)) k
    (Q : list event → outcome (option error) → Prop) :
  (∀ e, Q [Ev c (inr e)] (Returned (Some e))) →
  (∀ x, wp (k x) (λ tr r, Q (Ev c (inl x) :: tr) r)) →
  wp (try c k) Q.
Proof. intros He Hk [x|e]; simpl; auto. Qed.

Lemma always_wp {A} (P : event → Prop) (p : prog A) :
  always P p → wp p (λ tr _, Forall P tr).
Proof.
  induction p as [a|m|X c k IH]; simpl; [by constructor..|].
  intros H x. destruct (H x) as [Hx Hk].
  eapply wp_mono; [by apply IH|]. intros tr r Htr. by constructor.
Qed.

Lemma always_exec {A} (P : event → Prop) (p : prog A) :
  always P p →
  ∀ W (handle : ∀ X, call X → W → X * W) w, Forall P (exec handle p w).2.
Proof. intros H W handle w. by apply (wp_exec p _ (always_wp P p H)). Qed.

Lemma always_bind {A B} (P : event → Prop) (p : prog A) (f : A → prog B) :
  always P p → (∀ a, always P (f a)) → always P (bind p f).
Proof.
  intros Hp Hf. induction p as [a|m|X c k IH]; simpl in *; [done..|].
  intros x. destruct (Hp x). split; [done|]. by apply IH.
Qed.

Lemma always_mono {A} (P P' : event → Prop) (p : prog A) :
  always P p → (∀ e, P e → P' e) → always P' p.
Proof.
  intros Hp HP. induction p as [a|m|X c k IH]; simpl in *; [done..|].
  intros x. destruct (Hp x). split; [by apply HP|]. by apply IH.
Qed.

Lemma always_call {A X} (P : event → Prop) (c : call X) (k : X → prog A) :
  (∀ x, P (Ev c x) ∧ always P (k x)) → always P (Call c k).
Proof. done. Qed.

Lemma always_try {X} (P : event → Prop) (c : call (X + error)) k :
  (∀ r, P (Ev c r)) → (∀ x, always P (k x)) → always P (try c k).
Proof. intros Hc Hk [x|e]; simpl; split; auto. Qed.

(** The receive loop never sets [destOpErr]: a message from the destination
    waiter has no entry under [sourceOpId], so the lookup yields the nil
    error, and that is what gets stored. *)
Lemma receive_dest_nil st tmp : st.2 = None → (receive st tmp).2 = None.
Proof. unfold receive. by destruct (tmp !! sourceOpId). Qed.

Lemma receiveAll_dest_nil msgs : (receiveAll msgs).2 = None.
Proof.
  unfold receiveAll. generalize (eq_refl : (@None error, @None error).2 = None).
  generalize (@None error, @None error). induction msgs as [|m msgs IH]; intros st Hst.
  - done.
  - simpl. apply IH. by apply receive_dest_nil.
Qed.

Lemma receiveAll_pair d s :
  receiveAll [ {[ destOpId := d ]}; {[ sourceOpId := s ]} ] = (s, None) ∧
  receiveAll [ {[ sourceOpId := s ]}; {[ destOpId := d ]} ] = (s, None).
Proof. done. Qed.

Ltac always_step :=
  match goal with
  | |- always _ (Ret _) => exact I
  | |- always _ (Panic _) => exact I
  | |- always _ (bind _ _) => apply always_bind; [|intros ?]
  | |- always _ (try _ _) => apply always_try; [intros ?|intros ?]
  | |- always _ (Call _ _) => apply always_call; intros ?; split
  | |- always _ (match ?x with _ => _ end) => destruct x eqn:?
  | |- always _ (let '(_, _) := ?x in _) => destruct x eqn:?
  end.

Lemma always_reportName resp : always quietEvent (reportName resp).
Proof. unfold reportName. repeat always_step; done. Qed.

Lemma always_goWait dest destOp source sourceOp :
  always quietEvent (goWait dest destOp source sourceOp).
Proof. unfold goWait, wait. repeat always_step; done. Qed.

Section LoopEvents.

Variables (source dest : Client) (destName destResource : string).
Variables (sourceWSResponse : Response) (secrets : gmap string string).
Variables (status : Status) (baseImage : string).
Variables (ephemeral : Z) (containerOnly : bool).

Local Abbreviation loopEvent' :=
  (loopEvent source dest destName sourceWSResponse secrets status baseImage
     ephemeral containerOnly).

Lemma loopEvent_more a addresses e :
  loopEvent' addresses e → loopEvent' (a :: addresses) e.
Proof.
  intros [H|(addr & x & Hin & ->)]; [by left|right].
  exists addr, x. split; [by right|done].
Qed.

Lemma always_exhausted merr :
  always quietEvent (exhausted source sourceWSResponse merr).
Proof. unfold exhausted. repeat always_step; done. Qed.

Lemma always_awaitBoth migration next :
  always quietEvent
    (awaitBoth source dest destResource sourceWSResponse migration next).
Proof.
  unfold awaitBoth. apply always_bind; [apply always_goWait|]. intros msgs.
  pose proof (receiveAll_dest_nil msgs) as Hd.
  destruct (receiveAll msgs) as [sourceOpErr destOpErr]. simpl in Hd. subst.
  destruct sourceOpErr; [done|]. case_decide; [apply always_reportName|done].
Qed.

Lemma always_tryAddresses addresses merr :
  always (loopEvent' addresses)
    (tryAddresses source dest destName destResource sourceWSResponse secrets
       status baseImage ephemeral containerOnly addresses merr).
Proof.
  revert merr. induction addresses as [|addr rest IH]; intros merr.
  - eapply always_mono; [apply always_exhausted|]. by left.
  - apply always_call. intros r. split.
    { right. exists addr, r. split; [by left|done]. }
    destruct r as [migration|err].
    + eapply always_mono; [apply always_awaitBoth|]. by left.
    + eapply always_mono; [apply IH|]. apply loopEvent_more.
Qed.

End LoopEvents.

(** * The names (lines 43-52) *)

Lemma quiet_sendsName d e : quietEvent e → sendsName d e.
Proof. destruct e as [X c x]. by destruct c. Qed.

Lemma loop_sendsName source dest d sourceWSResponse secrets status baseImage
    ephemeral containerOnly addresses e :
  loopEvent source dest d sourceWSResponse secrets status baseImage ephemeral
    containerOnly addresses e →
  sendsName d e.
Proof. intros [H|(addr & x & _ & ->)]; [by apply quiet_sendsName|done]. Qed.

Lemma sendsName_destNames d tr :
  Forall (sendsName d) tr → ∀ d', d' ∈ destNames tr → d' = d.
Proof.
  intros Htr d' Hin. unfold destNames in Hin.
  apply list_elem_of_omap in Hin as (e & He & Hd).
  rewrite Forall_forall in Htr. specialize (Htr e He).
  destruct e as [X c x]. destruct c; simplify_eq/=; done.
Qed.

Section Names.

Variable ParseRemoteAndContainer : lxd_Config → string → string * string.
Variable IsSnapshot : string → bool.
Variable configMap : gomap string.

Lemma always_copyContainer_name c config src dst keep eph stateful conly :
  always (sendsName (resolvedName ParseRemoteAndContainer config src dst))
    (copyContainer ParseRemoteAndContainer IsSnapshot configMap c config
       src dst keep eph stateful conly).
Proof.
  unfold copyContainer. fold (resolvedName ParseRemoteAndContainer config src dst).
  generalize (resolvedName ParseRemoteAndContainer config src dst). intros destName.
  case_decide; [done|].
  apply always_try; [done|]. intros source.
  apply always_bind.
  { unfold fetchStatus. repeat always_step; done. }
  intros [status|err]; [|done].
  destruct (mergeConfig configMap (Config status)) as [merged|]; [|done].
  case_decide.
  - unfold localCopy. case_decide; [done|].
    apply always_try; [done|]. intros cp.
    apply always_call. intros err. split; [done|].
    destruct err; [done|]. case_decide; [|done].
    eapply always_mono; [apply always_reportName|]. apply quiet_sendsName.
  - unfold migrate.
    apply always_try; [done|]. intros dest.
    apply always_try; [done|]. intros profiles.
    destruct (negb _); [done|].
    apply always_bind.
    { unfold resolveEphemeral. repeat always_step; done. }
    intros [ephemeral|err]; [|done].
    apply always_try; [done|]. intros sourceWSResponse.
    destruct (MetadataAsOperation sourceWSResponse) as [op|err]; [|done].
    destruct (buildSecrets (Metadata op)) as [secrets|]; [|done].
    unfold tryAllAddresses. apply always_try; [done|]. intros addresses.
    eapply always_mono; [apply always_tryAddresses|]. apply loop_sendsName.
Qed.

End Names.

(** C7, as it was stated, fails: a copy of [c1] without a destination does
    not send the source's name as the destination name, it sends the empty
    name (and the server's choice is printed). *)
Lemma copy_without_destination_sends_empty_name :
  (parseLocator config0 "c1").2 = "c1" ∧
  let r := copy0 None cmd0 "c1" "" false 0 world0 in
  r.1 = Returned None ∧ destNames r.2 = [""] ∧
  printed r.2 = [msgContainerName "c9"].
Proof. vm_compute. done. Qed.

(** C7, amended: an empty source name is refused with the argument error
    before anything is called.  The destination name that is sent onward is
    the source's name when a destination locator is given and names no
    container; it is the parsed name otherwise, and so with no destination
    locator it is whatever the parser makes of the empty string (the empty
    name), not the source's name. *)
Theorem source_name_required_destination_name_resolved
    (ParseRemoteAndContainer : lxd_Config → string → string * string)
    (IsSnapshot : string → bool) (configMap : gomap string)
    (c : copyCmd) (config : lxd_Config) (sourceResource destResource : string)
    (keepVolatile : bool) (ephemeral : Z) (stateful containerOnly : bool)
    (W : Type) (handle : ∀ X, call X → W → X * W) (w : W) :
  let sourceName := (ParseRemoteAndContainer config sourceResource).2 in
  let parsedName := (ParseRemoteAndContainer config destResource).2 in
  let r := exec handle
             (copyContainer ParseRemoteAndContainer IsSnapshot configMap c config
                sourceResource destResource keepVolatile ephemeral stateful
                containerOnly) w in
  (sourceName = "" → r = (Returned (Some errSourceName), w, [])) ∧
  (∀ d, d ∈ destNames r.2 →
     (destResource ≠ "" → parsedName = "" → d = sourceName) ∧
     (parsedName ≠ "" → d = parsedName) ∧
     (destResource = "" → d = parsedName)).
Proof.
  intros sourceName parsedName r. split.
  - intros Hempty. subst r. unfold copyContainer.
    fold sourceName. by rewrite decide_True.
  - intros d Hd.
    assert (d = resolvedName ParseRemoteAndContainer config sourceResource destResource)
      as ->.
    { eapply sendsName_destNames; [|exact Hd]. subst r.
      apply always_exec, always_copyContainer_name. }
    unfold resolvedName. fold sourceName parsedName.
    destruct (decide (parsedName = "" ∧ destResource ≠ "")) as [[Hp Hd']|Hn].
    + repeat split; [done|done..].
    + repeat split; [|done..]. intros Hd' Hp. by destruct Hn.
Qed.

(** C7 at a destination locator that names a remote and no container: the
    handshakes carry the source's name. *)
Lemma source_name_required_destination_name_resolved_witness :
  let r := exec answer
             (copyContainer parseLocator hasSlash None cmd0 config0 "c1" "r2:"
                false 0 false false) world0 in
  destNames r.2 = ["c1"; "c1"] ∧ ∀ d, d ∈ destNames r.2 → d = "c1".
Proof.
  split; [by vm_compute|]. intros d Hd.
  by apply (proj2 (source_name_required_destination_name_resolved parseLocator
    hasSlash None cmd0 config0 "c1" "r2:" false 0 false false World answer
    world0) d Hd).
Defined.

(** * The same-name check (lines 116-119) *)

Lemma exec_fetchStatus_one IsSnapshot {W} (handle : ∀ X, call X → W → X * W)
    source sourceName w r w1 t :
  exec handle (fetchStatus IsSnapshot source sourceName) w = (r, w1, t) →
  length t = 1 ∧ sentConfigs t = [] ∧ destNames t = [].
Proof.
  unfold fetchStatus. destruct (negb _); simpl;
    destruct (handle _ _ w) as [[x|e] w']; simpl; intros [= <- <- <-]; done.
Qed.

(** C4, as it was stated, fails: the source is looked up before the names
    are compared.  When the lookup fails its error is the result, and when
    it succeeds the same-name error comes after two calls. *)
Lemma same_name_copy_looks_up_first :
  let r := copy0 None cmd0 "c1" "c1" false 0
             (setContainer (λ _, inr "not found") world0) in
  let r' := copy0 None cmd0 "c1" "c1" false 0 world0 in
  r.1 = Returned (Some "not found") ∧ length r.2 = 2 ∧
  r'.1 = Returned (Some errSameName) ∧ length r'.2 = 2.
Proof. vm_compute. done. Qed.

(** C4, amended: once the source client is there, a lookup of the source
    that fails makes its error the result, whatever the names are.  In a
    request within one remote whose destination name is the source's, once
    the source has been looked up and the configuration merged, the result
    is the same-name error.  Either way the client construction and the one
    lookup are the only calls, and nothing is sent onward. *)
Theorem same_name_refused_after_lookup
    (ParseRemoteAndContainer : lxd_Config → string → string * string)
    (IsSnapshot : string → bool) (configMap : gomap string)
    (c : copyCmd) (config : lxd_Config) (sourceResource destResource : string)
    (keepVolatile : bool) (ephemeral : Z) (stateful containerOnly : bool)
    (W : Type) (handle : ∀ X, call X → W → X * W) (w w1 w2 : W)
    (source : Client) (fetch : Status + error) (t : list event) :
  let sourceRemote := (ParseRemoteAndContainer config sourceResource).1 in
  let sourceName := (ParseRemoteAndContainer config sourceResource).2 in
  let destRemote := (ParseRemoteAndContainer config destResource).1 in
  let r := exec handle
             (copyContainer ParseRemoteAndContainer IsSnapshot configMap c
                config sourceResource destResource keepVolatile ephemeral
                stateful containerOnly) w in
  sourceName ≠ "" →
  handle _ (NewClient config sourceRemote) w = (inl source, w1) →
  exec handle (fetchStatus IsSnapshot source sourceName) w1
    = (Returned fetch, w2, t) →
  (length t = 1 ∧ sentConfigs t = [] ∧ destNames t = []) ∧
  (∀ err, fetch = inr err →
     r = (Returned (Some err), w2,
          Ev (NewClient config sourceRemote) (inl source) :: t)) ∧
  (∀ status, fetch = inl status →
     sourceRemote = destRemote →
     resolvedName ParseRemoteAndContainer config sourceResource destResource
       = sourceName →
     is_Some (mergeConfig configMap (Config status)) →
     r = (Returned (Some errSameName), w2,
          Ev (NewClient config sourceRemote) (inl source) :: t)).
Proof.
  intros sourceRemote sourceName destRemote r Hname Hclient Hfetch.
  split; [by eapply exec_fetchStatus_one|].
  assert (r = (let '(r2, w3, t2) :=
                 exec handle
                   (match fetch with
                    | inr err => Ret (Some err)
                    | inl status =>
                        match mergeConfig configMap (Config status) with
                        | None => Panic "assignment to entry in nil map"
                        | Some merged =>
                            if decide (sourceRemote = destRemote)
                            then localCopy source sourceName
                                   (resolvedName ParseRemoteAndContainer config
                                      sourceResource destResource)
                                   destResource
                                   (sentStatus c keepVolatile status merged)
                                   ephemeral containerOnly
                            else migrate config source sourceName destRemote
                                   (resolvedName ParseRemoteAndContainer config
                                      sourceResource destResource)
                                   destResource
                                   (sentStatus c keepVolatile status merged)
                                   (gomap_get merged "volatile.base_image")
                                   ephemeral stateful containerOnly
                        end
                    end) w2 in
               (r2, w3, Ev (NewClient config sourceRemote) (inl source)
                          :: t ++ t2))) as ->.
  { subst r. unfold copyContainer.
    fold (resolvedName ParseRemoteAndContainer config sourceResource
            destResource).
    fold sourceRemote sourceName destRemote.
    rewrite decide_False by done.
    rewrite (exec_try_ok _ _ _ _ _ _ Hclient), exec_bind, Hfetch.
    by destruct (exec handle _ w2) as [[r2 w3] t2]. }
  split.
  - intros err ->. simpl. by rewrite app_nil_r.
  - intros status -> Hremote Hsame [merged Hmerge]. rewrite Hmerge, Hsame.
    rewrite decide_True by done.
    unfold localCopy. rewrite decide_True by done. simpl. by rewrite app_nil_r.
Qed.

(** C4 at a copy of [c1] onto itself in the default remote: with the
    container there, the same-name error; with the lookup failing, the
    lookup's error. *)
Lemma same_name_refused_after_lookup_witness :
  (exec answer
     (copyContainer parseLocator hasSlash None cmd0 config0 "c1" "local:c1"
        false 0 false false) world0).1.1 = Returned (Some errSameName) ∧
  (exec answer
     (copyContainer parseLocator hasSlash None cmd0 config0 "c1" "local:c1"
        false 0 false false)
     (setContainer (λ _, inr "not found") world0)).1.1
    = Returned (Some "not found").
Proof.
  split.
  - refine (f_equal (λ r, r.1.1)
      (proj2 (proj2 (same_name_refused_after_lookup
        parseLocator hasSlash None cmd0 config0 "c1" "local:c1" false 0 false
        false World answer world0 world0 world0
        {| Remote := "local"; Certificate := "cert" |}
        (inl {| Architecture := "x86_64"; Devices := Some ∅;
                Config := cConfig container0; Profiles := ["default"] |})
        [Ev (ContainerInfo {| Remote := "local"; Certificate := "cert" |} "c1")
            (inl container0)] _ _ _)) _ eq_refl _ _ _));
      first [by eexists | by vm_compute].
  - refine (f_equal (λ r, r.1.1)
      (proj1 (proj2 (same_name_refused_after_lookup
        parseLocator hasSlash None cmd0 config0 "c1" "local:c1" false 0 false
        false World answer
        (setContainer (λ _, inr "not found") world0)
        (setContainer (λ _, inr "not found") world0)
        (setContainer (λ _, inr "not found") world0)
        {| Remote := "local"; Certificate := "cert" |}
        (inr "not found")
        [Ev (ContainerInfo {| Remote := "local"; Certificate := "cert" |} "c1")
            (inr "not found")] _ _ _)) _ eq_refl));
      by vm_compute.
Defined.

(** * The secrets (lines 188-197) *)

Lemma assertString_Some v : is_Some (assertString v) ↔ isString v.
Proof.
  split.
  - intros [s Hs]. destruct v; simplify_eq/=. by eexists.
  - intros [s ->]. by eexists.
Qed.

Lemma assertString_None v : assertString v = None ↔ ¬ isString v.
Proof.
  split.
  - by intros Hn [s ->].
  - intros Hn. destruct v; try done. destruct Hn. by eexists.
Qed.

(** The loop over the metadata, result by result: the secrets built so far,
    or the panic. *)
Lemma buildSecrets_spec (metadata : gomap jvalue) :
  (map_Forall (λ _, isString) (gomap_entries metadata) ∧
   buildSecrets metadata = Some (omap assertString (gomap_entries metadata)))
  ∨ (¬ map_Forall (λ _, isString) (gomap_entries metadata) ∧
     buildSecrets metadata = None).
Proof.
  unfold buildSecrets. generalize (gomap_entries metadata). clear metadata.
  apply (map_fold_weak_ind (λ r m,
    (map_Forall (λ _, isString) m ∧ r = Some (omap assertString m))
    ∨ (¬ map_Forall (λ _, isString) m ∧ r = None))).
  - left. split; [apply map_Forall_empty|by rewrite omap_empty].
  - intros k v m r Hk [[Hall ->]|[Hnot ->]].
    + simpl. destruct (assertString v) as [s|] eqn:Hv.
      * left. split.
        { apply map_Forall_insert; [done|]. split; [|done].
          apply assertString_Some. by eexists. }
        simpl. by rewrite (omap_insert_Some _ _ _ _ s).
      * right. split; [|done]. intros Hall'.
        apply map_Forall_insert in Hall' as [Hv' _]; [|done].
        by apply assertString_None in Hv.
    + right. split; [|done]. intros Hall'.
      apply map_Forall_insert in Hall' as [_ Hm]; done.
Qed.

(** * The way through [copyContainer] *)

Section Paths.

Variable ParseRemoteAndContainer : lxd_Config → string → string * string.
Variable IsSnapshot : string → bool.
Variable configMap : gomap string.
Context {W : Type} (handle : ∀ X, call X → W → X * W).

(** Lines 43-113 when nothing fails: what is left is the copy or the
    migration. *)
Lemma exec_copyContainer_resolved c config sourceResource destResource
    keepVolatile ephemeral stateful containerOnly w w1 w2 source status t merged :
  let sourceRemote := (ParseRemoteAndContainer config sourceResource).1 in
  let sourceName := (ParseRemoteAndContainer config sourceResource).2 in
  let destRemote := (ParseRemoteAndContainer config destResource).1 in
  let destName :=
    resolvedName ParseRemoteAndContainer config sourceResource destResource in
  sourceName ≠ "" →
  handle _ (NewClient config sourceRemote) w = (inl source, w1) →
  exec handle (fetchStatus IsSnapshot source sourceName) w1
    = (Returned (inl status), w2, t) →
  mergeConfig configMap (Config status) = Some merged →
  exec handle
    (copyContainer ParseRemoteAndContainer IsSnapshot configMap c config
       sourceResource destResource keepVolatile ephemeral stateful
       containerOnly) w
  = (let '(r, w3, t3) :=
       exec handle
         (if decide (sourceRemote = destRemote)
          then localCopy source sourceName destName destResource
                 (sentStatus c keepVolatile status merged) ephemeral containerOnly
          else migrate config source sourceName destRemote destName destResource
                 (sentStatus c keepVolatile status merged)
                 (gomap_get merged "volatile.base_image")
                 ephemeral stateful containerOnly) w2 in
     (r, w3, Ev (NewClient config sourceRemote) (inl source) :: t ++ t3)).
Proof.
  intros sourceRemote sourceName destRemote destName Hname Hclient Hfetch Hmerge.
  unfold copyContainer.
  fold (resolvedName ParseRemoteAndContainer config sourceResource destResource).
  fold sourceRemote sourceName destRemote destName.
  rewrite decide_False by done.
  rewrite (exec_try_ok _ _ _ _ _ _ Hclient), exec_bind, Hfetch, Hmerge.
  unfold sentStatus.
  by destruct (exec handle (if decide _ then _ else _) w2) as [[r w3] t3].
Qed.

(** Lines 149-197 when nothing fails: the secrets are built, and what is
    left is the address loop. *)
Lemma exec_migrate_session config source sourceName destRemote destName
    destResource status baseImage ephemeral stateful containerOnly
    w w1 w2 w3 w4 dest profiles ephemeral' t sourceWSResponse op :
  handle _ (NewClient config destRemote) w = (inl dest, w1) →
  handle _ (ListProfiles dest) w1 = (inl profiles, w2) →
  IsSubset (Profiles status) (Name <$> profiles) = true →
  exec handle (resolveEphemeral source sourceName ephemeral) w2
    = (Returned (inl ephemeral'), w3, t) →
  handle _ (GetMigrationSourceWS source sourceName stateful containerOnly) w3
    = (inl sourceWSResponse, w4) →
  MetadataAsOperation sourceWSResponse = inl op →
  exec handle
    (migrate config source sourceName destRemote destName destResource status
       baseImage ephemeral stateful containerOnly) w
  = (let prefix :=
       Ev (NewClient config destRemote) (inl dest)
         :: Ev (ListProfiles dest) (inl profiles)
         :: t ++ [Ev (GetMigrationSourceWS source sourceName stateful containerOnly)
                    (inl sourceWSResponse)] in
     match buildSecrets (Metadata op) with
     | None =>
         (Panicked "interface conversion: interface {} is not string", w4, prefix)
     | Some secrets =>
         let '(r, w5, t5) :=
           exec handle
             (tryAllAddresses source dest destName destResource sourceWSResponse
                secrets status baseImage ephemeral' containerOnly) w4 in
         (r, w5, prefix ++ t5)
     end).
Proof.
  intros Hdest Hprofiles Hsub Heph Hsession Hop. unfold migrate.
  rewrite (exec_try_ok _ _ _ _ _ _ Hdest), (exec_try_ok _ _ _ _ _ _ Hprofiles).
  rewrite Hsub. simpl negb. cbv iota.
  rewrite exec_bind, Heph, (exec_try_ok _ _ _ _ _ _ Hsession), Hop.
  destruct (buildSecrets (Metadata op)) as [secrets|].
  - destruct (exec handle (tryAllAddresses _ _ _ _ _ _ _ _ _ _) w4)
      as [[r w5] t5]. simpl.
    by rewrite <- app_assoc.
  - by simpl.
Qed.

End Paths.

Lemma copy0_session_panics metadata :
  buildSecrets metadata = None →
  (copy0 None cmd0 "c1" "r2:c2" false 0
     (setSession (inl (sessionWith metadata)) world0)).1
  = Panicked "interface conversion: interface {} is not string".
Proof.
  intros Hnone. unfold copy0.
  erewrite (exec_copyContainer_resolved parseLocator hasSlash None answer);
    [|done|reflexivity|reflexivity|reflexivity].
  rewrite decide_False by (by vm_compute).
  erewrite (exec_migrate_session answer);
    [|reflexivity|reflexivity|by vm_compute|reflexivity|reflexivity|reflexivity].
  simpl Metadata. by rewrite Hnone.
Qed.

(** C10: the secrets are built exactly when every value of the metadata is
    a string, and they are then the metadata's strings; with any value that
    is not a string the loop panics, and [copyContainer] does panic when
    the source answers the session request with such metadata. *)
Theorem secrets_total_iff_all_strings (metadata : gomap jvalue) :
  (is_Some (buildSecrets metadata)
     ↔ map_Forall (λ _, isString) (gomap_entries metadata)) ∧
  (∀ secrets, buildSecrets metadata = Some secrets →
     ∀ k, secrets !! k = gomap_entries metadata !! k ≫= assertString) ∧
  (∀ k v, gomap_entries metadata !! k = Some v → ¬ isString v →
     buildSecrets metadata = None ∧
     (copy0 None cmd0 "c1" "r2:c2" false 0
        (setSession (inl (sessionWith metadata)) world0)).1
     = Panicked "interface conversion: interface {} is not string").
Proof.
  destruct (buildSecrets_spec metadata) as [[Hall Hs]|[Hnot Hn]].
  - split; [by rewrite Hs|]. split.
    + intros secrets Hsecrets k. rewrite Hs in Hsecrets.
      injection Hsecrets as <-. apply lookup_omap.
    + intros k v Hk Hv. destruct Hv. by apply (Hall k v).
  - split; [|split].
    + rewrite Hn. split; [by intros [? ?]|done].
    + intros secrets Hsecrets. by rewrite Hn in Hsecrets.
    + intros k v _ _. split; [done|]. by apply copy0_session_panics.
Qed.

(** C10 at a session whose metadata has a number among its values. *)
Lemma secrets_total_iff_all_strings_witness :
  buildSecrets (Some {[ "control" := JString "s1"; "fs" := JNumber 7 ]}) = None ∧
  (copy0 None cmd0 "c1" "r2:c2" false 0
     (setSession
        (inl (sessionWith (Some {[ "control" := JString "s1"; "fs" := JNumber 7 ]})))
        world0)).1
  = Panicked "interface conversion: interface {} is not string".
Proof.
  apply (proj2 (proj2 (secrets_total_iff_all_strings
           (Some {[ "control" := JString "s1"; "fs" := JNumber 7 ]})))
           "fs" (JNumber 7)).
  - by vm_compute.
  - by intros [s Hs].
Defined.

(** * What is sent onward (lines 95-113, 121, 222) *)

Lemma stripVolatile_no_volatile cfg k :
  volatile_key k = true → gomap_entries (stripVolatile false cfg) !! k = None.
Proof.
  intros Hk. unfold stripVolatile. simpl. destruct cfg as [m|]; simpl; [|done].
  apply map_lookup_filter_None. right. intros v _ Hkeep.
  apply Hkeep. change (Is_true (volatile_key k)). by rewrite Hk.
Qed.

Lemma stripVolatile_keep cfg k :
  volatile_key k = false →
  gomap_entries (stripVolatile false cfg) !! k = gomap_entries cfg !! k.
Proof.
  intros Hk. unfold stripVolatile. simpl. destruct cfg as [m|]; simpl; [|done].
  destruct (m !! k) as [v|] eqn:Hv.
  - apply map_lookup_filter_Some. split; [done|].
    change (¬ Is_true (volatile_key k)). rewrite Hk. by intros [].
  - apply map_lookup_filter_None. by left.
Qed.

Lemma quiet_transferEvent d status baseImage e :
  quietEvent e → transferEvent d status baseImage e.
Proof. destruct e as [X c x]. by destruct c. Qed.

Lemma loop_transferEvent source dest d sourceWSResponse secrets status baseImage
    ephemeral containerOnly addresses e :
  loopEvent source dest d sourceWSResponse secrets status baseImage ephemeral
    containerOnly addresses e →
  transferEvent d status baseImage e.
Proof. intros [H|(addr & x & _ & ->)]; [by apply quiet_transferEvent|done]. Qed.

Lemma always_localCopy_transfer source sourceName destName destResource status
    baseImage ephemeral containerOnly :
  always (transferEvent destName status baseImage)
    (localCopy source sourceName destName destResource status ephemeral
       containerOnly).
Proof.
  unfold localCopy. case_decide; [done|].
  apply always_try; [done|]. intros cp.
  apply always_call. intros err. split; [done|].
  destruct err; [done|]. case_decide; [|done].
  eapply always_mono; [apply always_reportName|]. apply quiet_transferEvent.
Qed.

Lemma always_migrate_transfer config source sourceName destRemote destName
    destResource status baseImage ephemeral stateful containerOnly :
  always (transferEvent destName status baseImage)
    (migrate config source sourceName destRemote destName destResource status
       baseImage ephemeral stateful containerOnly).
Proof.
  unfold migrate.
  apply always_try; [done|]. intros dest.
  apply always_try; [done|]. intros profiles.
  destruct (negb _); [done|].
  apply always_bind.
  { unfold resolveEphemeral. repeat always_step; done. }
  intros [ephemeral'|err]; [|done].
  apply always_try; [done|]. intros sourceWSResponse.
  destruct (MetadataAsOperation sourceWSResponse) as [op|err]; [|done].
  destruct (buildSecrets (Metadata op)) as [secrets|]; [|done].
  unfold tryAllAddresses. apply always_try; [done|]. intros addresses.
  eapply always_mono; [apply always_tryAddresses|]. apply loop_transferEvent.
Qed.

Lemma transfer_sentConfigs d status baseImage tr :
  Forall (transferEvent d status baseImage) tr →
  ∀ cfg, cfg ∈ sentConfigs tr → cfg = Config status.
Proof.
  intros Htr cfg Hin. unfold sentConfigs in Hin.
  apply list_elem_of_omap in Hin as (e & He & Hd).
  rewrite Forall_forall in Htr. specialize (Htr e He).
  destruct e as [X c x]. destruct c; simplify_eq/=; tauto.
Qed.

Lemma transfer_migrations d status baseImage tr :
  Forall (transferEvent d status baseImage) tr →
  ∀ a, a ∈ migrations tr → mBaseImage a = baseImage.
Proof.
  intros Htr a Hin. unfold migrations in Hin.
  apply list_elem_of_omap in Hin as (e & He & Hd).
  rewrite Forall_forall in Htr. specialize (Htr e He).
  destruct e as [X c x]. destruct c; simplify_eq/=; tauto.
Qed.

Lemma wp_fetchStatus IsSnapshot source name
    (Q : list event → outcome (Status + error) → Prop) :
  (∀ ev r, fetched source name ev r → Q [ev] (Returned r)) →
  wp (fetchStatus IsSnapshot source name) Q.
Proof.
  intros HQ. unfold fetchStatus.
  destruct (negb _); intros [result|err]; simpl; apply HQ; constructor.
Qed.

(** [copyContainer] taken apart: the four ways to stop before the transfer,
    and the transfer. *)
Lemma wp_copyContainer ParseRemoteAndContainer IsSnapshot configMap
    c config sourceResource destResource keepVolatile ephemeral stateful
    containerOnly (Q : list event → outcome (option error) → Prop) :
  let sourceRemote := (ParseRemoteAndContainer config sourceResource).1 in
  let sourceName := (ParseRemoteAndContainer config sourceResource).2 in
  let destRemote := (ParseRemoteAndContainer config destResource).1 in
  let destName :=
    resolvedName ParseRemoteAndContainer config sourceResource destResource in
  (sourceName = "" → Q [] (Returned (Some errSourceName))) →
  (∀ err, Q [Ev (NewClient config sourceRemote) (inr err)] (Returned (Some err))) →
  (∀ source ev err, fetched source sourceName ev (inr err) →
     Q [Ev (NewClient config sourceRemote) (inl source); ev] (Returned (Some err))) →
  (∀ source ev status, fetched source sourceName ev (inl status) →
     mergeConfig configMap (Config status) = None →
     Q [Ev (NewClient config sourceRemote) (inl source); ev]
       (Panicked "assignment to entry in nil map")) →
  (∀ source ev status merged, sourceName ≠ "" →
     fetched source sourceName ev (inl status) →
     mergeConfig configMap (Config status) = Some merged →
     wp (if decide (sourceRemote = destRemote)
         then localCopy source sourceName destName destResource
                (sentStatus c keepVolatile status merged) ephemeral containerOnly
         else migrate config source sourceName destRemote destName destResource
                (sentStatus c keepVolatile status merged)
                (gomap_get merged "volatile.base_image")
                ephemeral stateful containerOnly)
       (λ t r, Q (Ev (NewClient config sourceRemote) (inl source) :: ev :: t) r)) →
  wp (copyContainer ParseRemoteAndContainer IsSnapshot configMap c config
        sourceResource destResource keepVolatile ephemeral stateful containerOnly) Q.
Proof.
  intros sourceRemote sourceName destRemote destName Harg Hclient Hlookup Hpanic
    Htransfer.
  unfold copyContainer.
  fold (resolvedName ParseRemoteAndContainer config sourceResource destResource).
  fold sourceRemote sourceName destRemote destName.
  destruct (decide (sourceName = "")) as [Hname|Hname]; [by apply Harg|].
  apply wp_try; [done|]. intros source. apply wp_bind, wp_fetchStatus.
  intros ev [status|err] Hev; [|by apply (Hlookup source ev err)].
  destruct (mergeConfig configMap (Config status)) as [merged|] eqn:Hmerge.
  - by apply (Htransfer source ev status merged).
  - by apply (Hpanic source ev status).
Qed.

Lemma fetched_silent source name ev r : fetched source name ev r → silent ev.
Proof. by destruct 1. Qed.

Lemma client_silent config remote x : silent (Ev (NewClient config remote) x).
Proof. done. Qed.

Ltac skip_silent H t :=
  let H1 := fresh in let H2 := fresh in let H3 := fresh in let H4 := fresh in
  let H5 := fresh in let H6 := fresh in let H7 := fresh in let H8 := fresh in
  let H9 := fresh in
  destruct (H t) as (H1 & H2 & H3 & H4 & H5 & H6 & H7 & H8 & H9);
  rewrite ?H1, ?H2, ?H3, ?H4, ?H5, ?H6, ?H7, ?H8, ?H9;
  clear H1 H2 H3 H4 H5 H6 H7 H8 H9.

Lemma fetched_config source name ev status t :
  fetched source name ev (inl status) →
  fetchedConfigs (ev :: t) = Config status :: fetchedConfigs t.
Proof. by inversion 1. Qed.

(** C5: without [keepVolatile], no configuration that is sent onward, by
    the copy request or by a handshake, has a key that starts with
    "volatile"; and with or without it, every handshake carries as base
    image the value (or the empty string) that the source's configuration,
    merged with [configMap], has under "volatile.base_image". *)
Theorem volatile_stripped_base_image_forwarded
    (ParseRemoteAndContainer : lxd_Config → string → string * string)
    (IsSnapshot : string → bool) (configMap : gomap string)
    (c : copyCmd) (config : lxd_Config) (sourceResource destResource : string)
    (keepVolatile : bool) (ephemeral : Z) (stateful containerOnly : bool)
    (W : Type) (handle : ∀ X, call X → W → X * W) (w : W) :
  let tr := (exec handle
               (copyContainer ParseRemoteAndContainer IsSnapshot configMap c
                  config sourceResource destResource keepVolatile ephemeral
                  stateful containerOnly) w).2 in
  (keepVolatile = false →
   ∀ cfg k, cfg ∈ sentConfigs tr → volatile_key k = true →
     gomap_entries cfg !! k = None) ∧
  (∀ a, a ∈ migrations tr →
     ∃ fetchedConfig merged,
       head (fetchedConfigs tr) = Some fetchedConfig ∧
       mergeConfig configMap fetchedConfig = Some merged ∧
       mBaseImage a = gomap_get merged "volatile.base_image").
Proof.
  intros tr. subst tr.
  apply (wp_exec _ (λ tr _,
    (keepVolatile = false →
     ∀ cfg k, cfg ∈ sentConfigs tr → volatile_key k = true →
       gomap_entries cfg !! k = None) ∧
    (∀ a, a ∈ migrations tr →
       ∃ fetchedConfig merged,
         head (fetchedConfigs tr) = Some fetchedConfig ∧
         mergeConfig configMap fetchedConfig = Some merged ∧
         mBaseImage a = gomap_get merged "volatile.base_image"))).
  apply wp_copyContainer; cbv beta.
  - intros _. split; [intros _ cfg k Hin|intros a Hin]; by apply elem_of_nil in Hin.
  - intros err. split; [intros _ cfg k Hin|intros a Hin]; by apply elem_of_nil in Hin.
  - intros source ev err Hev.
    skip_silent (client_silent config
      (ParseRemoteAndContainer config sourceResource).1
      (inl source : Client + error)) [ev].
    skip_silent (fetched_silent _ _ _ _ Hev) (@nil event).
    split; [intros _ cfg k Hin|intros a Hin]; by apply elem_of_nil in Hin.
  - intros source ev status Hev _.
    skip_silent (client_silent config
      (ParseRemoteAndContainer config sourceResource).1
      (inl source : Client + error)) [ev].
    skip_silent (fetched_silent _ _ _ _ Hev) (@nil event).
    split; [intros _ cfg k Hin|intros a Hin]; by apply elem_of_nil in Hin.
  - intros source ev status merged _ Hev Hmerge.
    eapply wp_mono.
    { apply always_wp with (P := transferEvent
        (resolvedName ParseRemoteAndContainer config sourceResource destResource)
        (sentStatus c keepVolatile status merged)
        (gomap_get merged "volatile.base_image")).
      case_decide; [apply always_localCopy_transfer|apply always_migrate_transfer]. }
    intros t r Ht. cbv beta.
    skip_silent (client_silent config
      (ParseRemoteAndContainer config sourceResource).1
      (inl source : Client + error)) (ev :: t).
    skip_silent (fetched_silent _ _ _ _ Hev) t.
    change (fetchedConfigs (Ev (NewClient config
              (ParseRemoteAndContainer config sourceResource).1) (inl source)
              :: ev :: t))
      with (fetchedConfigs (ev :: t)).
    rewrite (fetched_config _ _ _ _ _ Hev). split.
    + intros -> cfg k Hcfg Hk.
      rewrite (transfer_sentConfigs _ _ _ _ Ht cfg Hcfg). simpl.
      by apply stripVolatile_no_volatile.
    + intros a Ha. exists (Config status), merged.
      split; [done|]. split; [done|].
      by apply (transfer_migrations _ _ _ _ Ht).
Qed.

(** C5 at a migration of a container whose configuration has the base
    image key: the key is not sent, its value is. *)
Lemma volatile_stripped_base_image_forwarded_witness :
  let tr := (exec answer
               (copyContainer parseLocator hasSlash None cmd0 config0 "c1" "r2:c2"
                  false 0 false false) world0).2 in
  length (sentConfigs tr) = 2 ∧ mBaseImage <$> migrations tr = ["img1"; "img1"] ∧
  ∀ cfg k, cfg ∈ sentConfigs tr → volatile_key k = true →
    gomap_entries cfg !! k = None.
Proof.
  split; [by vm_compute|]. split; [by vm_compute|].
  exact (proj1 (volatile_stripped_base_image_forwarded parseLocator hasSlash None
    cmd0 config0 "c1" "r2:c2" false 0 false false World answer world0) eq_refl).
Defined.

Example migration_sends_stripped_config_and_base_image :
  let r := copy0 (Some {[ "user.note" := "x" ]}) cmd0 "c1" "r2:c2" false 0 world0 in
  sentConfigs r.2
    = [Some {[ "limits.cpu" := "2"; "user.note" := "x" ]};
       Some {[ "limits.cpu" := "2"; "user.note" := "x" ]}] ∧
  mBaseImage <$> migrations r.2 = ["img1"; "img1"].
Proof. vm_compute. done. Qed.

(** * The ephemeral flag (lines 170-181, 288-291) *)















Example unpinned_migration_reads_source_setting :
  let r := copy0 None cmd0 "c1" "r2:c2" false (-1) world0 in
  mEphemeral <$> migrations r.2 = [true; true] ∧
  last (containerLookups r.2)
    = Some ({| Remote := "local"; Certificate := "cert" |}, "c1", inl container0).
Proof. vm_compute. done. Qed.

(** * The profile check (lines 154-168) *)

Lemma IsSubset_true sourceProfs destProfs :
  IsSubset sourceProfs destProfs = true ↔ ∀ p, p ∈ sourceProfs → p ∈ destProfs.
Proof.
  unfold IsSubset. rewrite bool_decide_eq_true. split.
  - intros Hsub p Hp. specialize (Hsub p). rewrite !elem_of_list_to_set in Hsub. auto.
  - intros Hall p. rewrite !elem_of_list_to_set. auto.
Qed.

Lemma IsSubset_false sourceProfs destProfs p :
  p ∈ sourceProfs → p ∉ destProfs → IsSubset sourceProfs destProfs = false.
Proof.
  intros Hin Hout. destruct (IsSubset sourceProfs destProfs) eqn:Hsub; [|done].
  destruct Hout. by apply (proj1 (IsSubset_true _ _) Hsub).
Qed.

Lemma exec_fetchStatus_fetched IsSnapshot {W} (handle : ∀ X, call X → W → X * W)
    source sourceName w r w1 t :
  exec handle (fetchStatus IsSnapshot source sourceName) w = (Returned r, w1, t) →
  ∃ ev, t = [ev] ∧ fetched source sourceName ev r.
Proof.
  unfold fetchStatus. destruct (negb _); simpl;
    destruct (handle _ _ w) as [[x|e] w']; simpl; intros [= <- <- <-];
    eexists; (split; [done|constructor]).
Qed.

Lemma quiet_afterCheck e : quietEvent e → afterCheck e.
Proof. destruct e as [X c x]. by destruct c. Qed.

Lemma loop_afterCheck source dest d sourceWSResponse secrets status baseImage
    ephemeral containerOnly addresses e :
  loopEvent source dest d sourceWSResponse secrets status baseImage ephemeral
    containerOnly addresses e →
  afterCheck e.
Proof. intros [H|(addr & x & _ & ->)]; [by apply quiet_afterCheck|done]. Qed.

Lemma always_afterCheck source sourceName dest destName destResource status
    baseImage ephemeral stateful containerOnly :
  always afterCheck
    (bind (resolveEphemeral source sourceName ephemeral) (λ r,
       match r with
       | inr err => Ret (Some err)
       | inl ephemeral =>
           sourceWSResponse ←! GetMigrationSourceWS source sourceName stateful
                                 containerOnly;
           match MetadataAsOperation sourceWSResponse with
           | inr err => Ret (Some err)
           | inl op =>
               match buildSecrets (Metadata op) with
               | None => Panic "interface conversion: interface {} is not string"
               | Some secrets =>
                   tryAllAddresses source dest destName destResource
                     sourceWSResponse secrets status baseImage ephemeral
                     containerOnly
               end
           end
       end)).
Proof.
  apply always_bind.
  { unfold resolveEphemeral. repeat always_step; done. }
  intros [ephemeral'|err]; [|done].
  apply always_try; [done|]. intros sourceWSResponse.
  destruct (MetadataAsOperation sourceWSResponse) as [op|err]; [|done].
  destruct (buildSecrets (Metadata op)) as [secrets|]; [|done].
  unfold tryAllAddresses. apply always_try; [done|]. intros addresses.
  eapply always_mono; [apply always_tryAddresses|]. apply loop_afterCheck.
Qed.

Lemma afterCheck_no_profiles tr :
  Forall afterCheck tr → filter isListProfiles tr = [].
Proof.
  induction 1 as [|e tr He Htr IH]; [done|].
  rewrite filter_cons, IH. destruct e as [X c x]. by destruct c.
Qed.

Lemma always_localCopy_local source sourceName destName destResource status
    ephemeral containerOnly :
  always localEvent
    (localCopy source sourceName destName destResource status ephemeral
       containerOnly).
Proof.
  unfold localCopy. case_decide; [done|].
  apply always_try; [done|]. intros cp.
  apply always_call. intros err. split; [done|].
  destruct err; [done|]. case_decide; [|done].
  eapply always_mono; [apply always_reportName|].
  intros [X c x] Hq. by destruct c.
Qed.

Lemma localEvent_projections tr :
  Forall localEvent tr →
  filter isListProfiles tr = [] ∧ filter isSession tr = [] ∧ migrations tr = [].
Proof.
  induction 1 as [|e tr (He1 & He2 & He3) Htr (IH1 & IH2 & IH3)]; [done|].
  rewrite !filter_cons, IH1, IH2, He1, He2. split; [done|]. split; [done|].
  change (e :: tr) with ([e] ++ tr). unfold migrations in *.
  by rewrite omap_app, He3, IH3.
Qed.

(** In any run the profile list is asked for at most once, not at all when
    the two remotes are the same, and exactly once when a session is asked
    for or a handshake is made. *)
Lemma wp_copyContainer_profiles ParseRemoteAndContainer IsSnapshot configMap
    c config sourceResource destResource keepVolatile ephemeral stateful
    containerOnly :
  wp (copyContainer ParseRemoteAndContainer IsSnapshot configMap c config
        sourceResource destResource keepVolatile ephemeral stateful containerOnly)
    (λ tr _,
       (length (filter isListProfiles tr) ≤ 1)%nat ∧
       ((ParseRemoteAndContainer config sourceResource).1
          = (ParseRemoteAndContainer config destResource).1 →
        filter isListProfiles tr = []) ∧
       (filter isSession tr ≠ [] ∨ migrations tr ≠ [] →
        length (filter isListProfiles tr) = 1)).
Proof.
  apply wp_copyContainer; cbv beta.
  - intros _. split; [simpl; lia|]. split; [done|]. by intros [|].
  - intros err. split; [simpl; lia|]. split; [done|]. by intros [|].
  - intros source ev err Hev.
    skip_silent (client_silent config
      (ParseRemoteAndContainer config sourceResource).1
      (inl source : Client + error)) [ev].
    skip_silent (fetched_silent _ _ _ _ Hev) (@nil event).
    split; [simpl; lia|]. split; [done|]. by intros [|].
  - intros source ev status Hev _.
    skip_silent (client_silent config
      (ParseRemoteAndContainer config sourceResource).1
      (inl source : Client + error)) [ev].
    skip_silent (fetched_silent _ _ _ _ Hev) (@nil event).
    split; [simpl; lia|]. split; [done|]. by intros [|].
  - intros source ev status merged _ Hev Hmerge.
    assert (∀ t,
      filter isListProfiles
        (Ev (NewClient config (ParseRemoteAndContainer config sourceResource).1)
           (inl source : Client + error) :: ev :: t)
        = filter isListProfiles t ∧
      filter isSession
        (Ev (NewClient config (ParseRemoteAndContainer config sourceResource).1)
           (inl source : Client + error) :: ev :: t)
        = filter isSession t ∧
      migrations
        (Ev (NewClient config (ParseRemoteAndContainer config sourceResource).1)
           (inl source : Client + error) :: ev :: t)
        = migrations t) as Hskip.
    { intros t.
      skip_silent (client_silent config
        (ParseRemoteAndContainer config sourceResource).1
        (inl source : Client + error)) (ev :: t).
      by skip_silent (fetched_silent _ _ _ _ Hev) t. }
    destruct (decide (_ = _)) as [Hsame|Hdiff].
    + eapply wp_mono; [apply always_wp, always_localCopy_local|].
      intros t r Ht. cbv beta.
      destruct (Hskip t) as (-> & -> & ->).
      destruct (localEvent_projections _ Ht) as (-> & -> & ->).
      split; [simpl; lia|]. split; [done|]. by intros [|].
    + unfold migrate.
      apply wp_try.
      { intros err. destruct (Hskip [Ev (NewClient config
          (ParseRemoteAndContainer config destResource).1)
          (inr err : Client + error)]) as (-> & -> & ->).
        split; [simpl; lia|]. split; [done|]. by intros [|]. }
      intros dest. apply wp_try.
      { intros err. destruct (Hskip [Ev (NewClient config
          (ParseRemoteAndContainer config destResource).1)
          (inl dest : Client + error);
          Ev (ListProfiles dest) (inr err : list Profile + error)])
          as (-> & -> & ->).
        split; [simpl; lia|]. split; [done|]. by intros _. }
      intros profiles. destruct (negb _).
      { cbn [wp]. destruct (Hskip [Ev (NewClient config
          (ParseRemoteAndContainer config destResource).1)
          (inl dest : Client + error);
          Ev (ListProfiles dest) (inl profiles : list Profile + error)])
          as (-> & -> & ->).
        split; [simpl; lia|]. split; [done|]. by intros _. }
      eapply wp_mono; [apply always_wp, always_afterCheck|].
      intros t r Ht. cbv beta.
      destruct (Hskip (Ev (NewClient config
          (ParseRemoteAndContainer config destResource).1)
          (inl dest : Client + error)
          :: Ev (ListProfiles dest) (inl profiles : list Profile + error) :: t))
          as (-> & _ & _).
      change (filter isListProfiles (_ :: _ :: t))
        with (Ev (ListProfiles dest) (inl profiles : list Profile + error)
                :: filter isListProfiles t).
      rewrite (afterCheck_no_profiles _ Ht).
      split; [simpl; lia|]. split; [done|]. by intros _.
Qed.

(** C6: when the two remotes differ and a profile of the source, with the
    [--profile] additions, is not in the list the destination answers with,
    the result is the profile error, no migration session is asked for and
    no handshake is made.  The profile list is asked for once there; in any
    run it is asked for at most once, exactly once when a session is asked
    for or a handshake made, and never when the two remotes are the same. *)
Theorem missing_profile_refused_before_session
    (ParseRemoteAndContainer : lxd_Config → string → string * string)
    (IsSnapshot : string → bool) (configMap : gomap string)
    (c : copyCmd) (config : lxd_Config) (sourceResource destResource : string)
    (keepVolatile : bool) (ephemeral : Z) (stateful only : bool)
    (W : Type) (handle : ∀ X, call X → W → X * W) (w : W) :
  let sourceRemote := (ParseRemoteAndContainer config sourceResource).1 in
  let sourceName := (ParseRemoteAndContainer config sourceResource).2 in
  let destRemote := (ParseRemoteAndContainer config destResource).1 in
  let r := exec handle
             (copyContainer ParseRemoteAndContainer IsSnapshot configMap c config
                sourceResource destResource keepVolatile ephemeral stateful
                only) w in
  (∀ w1 w2 w3 w4 source status t merged dest profiles,
     sourceName ≠ "" →
     sourceRemote ≠ destRemote →
     handle _ (NewClient config sourceRemote) w = (inl source, w1) →
     exec handle (fetchStatus IsSnapshot source sourceName) w1
       = (Returned (inl status), w2, t) →
     mergeConfig configMap (Config status) = Some merged →
     handle _ (NewClient config destRemote) w2 = (inl dest, w3) →
     handle _ (ListProfiles dest) w3 = (inl profiles, w4) →
     (∃ p, p ∈ addProfiles c (Profiles status) ∧ p ∉ Name <$> profiles) →
     r.1.1 = Returned (Some errProfiles) ∧
     filter isSession r.2 = [] ∧ migrations r.2 = [] ∧
     length (filter isListProfiles r.2) = 1) ∧
  (length (filter isListProfiles r.2) ≤ 1)%nat ∧
  (sourceRemote = destRemote → filter isListProfiles r.2 = []) ∧
  (filter isSession r.2 ≠ [] ∨ migrations r.2 ≠ [] →
   length (filter isListProfiles r.2) = 1).
Proof.
  intros sourceRemote sourceName destRemote r. split.
  - intros w1 w2 w3 w4 source status t merged dest profiles Hname Hdiff Hclient
      Hfetch Hmerge Hdest Hprofiles (p & Hin & Hout).
    destruct (exec_fetchStatus_fetched _ _ _ _ _ _ _ _ Hfetch) as (ev & -> & Hev).
    assert (r = (Returned (Some errProfiles), w4,
                 Ev (NewClient config sourceRemote) (inl source) :: ev
                   :: [Ev (NewClient config destRemote) (inl dest : Client + error);
                       Ev (ListProfiles dest) (inl profiles : list Profile + error)]))
      as ->.
    { subst r.
      rewrite (exec_copyContainer_resolved _ _ _ _ _ _ _ _ _ _ _ _ _ _ _ _ _ _ _
                 Hname Hclient Hfetch Hmerge).
      fold sourceRemote destRemote. rewrite decide_False by done.
      unfold migrate.
      rewrite (exec_try_ok _ _ _ _ _ _ Hdest), (exec_try_ok _ _ _ _ _ _ Hprofiles).
      change (Profiles (sentStatus c keepVolatile status merged))
        with (addProfiles c (Profiles status)).
      by rewrite (IsSubset_false _ _ p Hin Hout). }
    cbn [fst snd].
    skip_silent (client_silent config sourceRemote (inl source : Client + error))
      (ev :: [Ev (NewClient config destRemote) (inl dest : Client + error);
              Ev (ListProfiles dest) (inl profiles : list Profile + error)]).
    by skip_silent (fetched_silent _ _ _ _ Hev)
      [Ev (NewClient config destRemote) (inl dest : Client + error);
       Ev (ListProfiles dest) (inl profiles : list Profile + error)].
  - apply (wp_exec _ _ (wp_copyContainer_profiles ParseRemoteAndContainer
      IsSnapshot configMap c config sourceResource destResource keepVolatile
      ephemeral stateful only)).
Qed.

(** C6 at a destination that has the profile [web] only. *)
Lemma missing_profile_refused_before_session_witness :
  let r := exec answer
             (copyContainer parseLocator hasSlash None cmd0 config0 "c1" "r2:c2"
                false 0 false false)
             (setProfiles (inl [ {| Name := "web" |} ]) world0) in
  r.1.1 = Returned (Some errProfiles) ∧
  filter isSession r.2 = [] ∧ migrations r.2 = [] ∧
  length (filter isListProfiles r.2) = 1.
Proof.
  refine (proj1 (missing_profile_refused_before_session parseLocator hasSlash
    None cmd0 config0 "c1" "r2:c2" false 0 false false World answer
    (setProfiles (inl [ {| Name := "web" |} ]) world0))
    _ _ _ _ {| Remote := "local"; Certificate := "cert" |}
    {| Architecture := "x86_64"; Devices := Some ∅;
       Config := cConfig container0; Profiles := ["default"] |}
    _ _ {| Remote := "r2"; Certificate := "cert" |} [ {| Name := "web" |} ]
    _ _ _ _ _ _ _ _).
  - by vm_compute.
  - by vm_compute.
  - reflexivity.
  - reflexivity.
  - reflexivity.
  - reflexivity.
  - reflexivity.
  - exists "default". split; [vm_compute; by left|]. vm_compute.
    intros [Heq|Hin]%elem_of_cons; [done|by apply elem_of_nil in Hin].
Defined.

(** * Reporting the created container (lines 131-144, 255-268) *)

Lemma wp_reportName resp (Q : list event → outcome (option error) → Prop) :
  (∀ c0 rest, containersOf resp = Some (c0 :: rest) →
     Q [Ev (Printf (msgContainerName (createdName c0))) ()] (Returned None)) →
  (containersOf resp = None ∨ containersOf resp = Some [] →
     Q [] (Returned (Some errNoResource))) →
  wp (reportName resp) Q.
Proof.
  intros Hname Hnone. unfold reportName, containersOf in *.
  destruct (MetadataAsOperation resp) as [op|err].
  - destruct (gomap_entries (Resources op) !! "containers") as [[|c0 rest]|].
    + apply Hnone. by right.
    + intros []. by apply (Hname c0 rest).
    + apply Hnone. by left.
  - apply Hnone. by left.
Qed.

Section Await.

Variables (source dest : Client) (destResource : string).
Variables (sourceWSResponse migration : Response).

Local Abbreviation waitEvents' :=
  (waitEvents source dest sourceWSResponse migration).

(** What an accepted handshake leads to.  Both waits are made, in either
    order; the decision looks at the source's answer only: the answer of the
    destination's wait is not kept by the receive loop, and [next], the
    [continue] of line 248, is never taken. *)
Lemma wp_awaitBoth next (Q : list event → outcome (option error) → Prop) :
  (∀ destFirst d e,
     Q (waitEvents' destFirst d (Some e)) (Returned (Some e))) →
  (∀ destFirst d,
     if decide (destResource = "")
     then wp (reportName migration)
            (λ t r, Q (waitEvents' destFirst d None ++ t) r)
     else Q (waitEvents' destFirst d None) (Returned None)) →
  wp (awaitBoth source dest destResource sourceWSResponse migration next) Q.
Proof.
  intros Herr Hok. unfold awaitBoth, goWait, wait.
  intros [|]; cbn [bind wp]; intros x y.
  - destruct (receiveAll_pair x y) as [-> _].
    destruct y as [e|]; [apply (Herr true x e)|].
    specialize (Hok true x). by destruct (decide (destResource = "")).
  - destruct (receiveAll_pair y x) as [_ ->].
    destruct x as [e|]; [apply (Herr false y e)|].
    specialize (Hok false y). by destruct (decide (destResource = "")).
Qed.

End Await.

Lemma silent_unreported ev : silent ev → unreported ev.
Proof. intros H t. destruct (H t) as (_ & _ & _ & ? & _ & ? & _ & _ & ?). done. Qed.

Lemma reported_skip d ev t r :
  unreported ev → reported d t r → reported d (ev :: t) r.
Proof. intros Hev. unfold reported. by destruct (Hev t) as (-> & -> & ->). Qed.

Lemma reported_failed d r : r ≠ Returned None → reported d [] r.
Proof. intros Hr. split; [done|]. by intros _ resp. Qed.

Ltac reported_failed :=
  repeat (apply reported_skip; [done|]); by apply reported_failed.

Section Reported.

Variables (source dest : Client) (destName destResource : string).
Variables (sourceWSResponse : Response) (secrets : gmap string string).
Variables (status : Status) (baseImage : string).
Variables (ephemeral : Z) (containerOnly : bool).

Lemma wp_exhausted_reported merr :
  wp (exhausted source sourceWSResponse merr) (reported destResource).
Proof.
  unfold exhausted. intros [sourceOp|err]; [case_decide|]; cbn [wp];
    reported_failed.
Qed.

Lemma reported_accepted m (c : call (Response + error)) destFirst d :
  accepted [Ev c (inl m)] = [m] → printed [Ev c (inl m)] = [] →
  waitAnswers [Ev c (inl m)] = [] →
  (∀ e, reported destResource (Ev c (inl m) :: waitEvents source dest
                                 sourceWSResponse m destFirst d (Some e))
          (Returned (Some e))) ∧
  (if decide (destResource = "")
   then wp (reportName m)
          (λ t r, reported destResource
                    (Ev c (inl m) :: waitEvents source dest sourceWSResponse m
                                       destFirst d None ++ t) r)
   else reported destResource
          (Ev c (inl m) :: waitEvents source dest sourceWSResponse m
                             destFirst d None) (Returned None)).
Proof.
  intros Hacc Hprn Hwait.
  assert (∀ t, accepted (Ev c (inl m) :: t) = m :: accepted t ∧
               printed (Ev c (inl m) :: t) = printed t ∧
               waitAnswers (Ev c (inl m) :: t) = waitAnswers t) as Hc.
  { intros t. change (Ev c (inl m) :: t) with ([Ev c (inl m)] ++ t).
    unfold accepted, printed, waitAnswers in *.
    by rewrite !omap_app, Hacc, Hprn, Hwait. }
  split.
  - intros e. unfold reported. destruct (Hc (waitEvents source dest
      sourceWSResponse m destFirst d (Some e))) as (-> & -> & ->).
    split; [done|]. intros _ resp _ Hwaits. exfalso.
    destruct destFirst; cbn in Hwaits;
      repeat (apply Forall_cons in Hwaits as [? Hwaits]); done.
  - case_decide as Hdest.
    + apply wp_reportName.
      * intros c0 rest Hc0. unfold reported.
        destruct (Hc (waitEvents source dest sourceWSResponse m destFirst d None
                        ++ [Ev (Printf (msgContainerName (createdName c0))) ()]))
          as (-> & -> & ->).
        split.
        -- intros _. rewrite decide_True by done. exists m, c0, rest.
           by destruct destFirst.
        -- intros _ resp Hresp _ Hnone.
           assert (resp = m) as -> by (destruct destFirst; by simplify_eq/=).
           rewrite Hc0 in Hnone. by destruct Hnone.
      * intros _. unfold reported.
        destruct (Hc (waitEvents source dest sourceWSResponse m destFirst d None
                        ++ [])) as (-> & -> & ->).
        split; [done|]. intros _ resp _ _ _. by destruct destFirst.
    + unfold reported.
      destruct (Hc (waitEvents source dest sourceWSResponse m destFirst d None))
        as (-> & -> & ->).
      split; [|done]. intros _. rewrite decide_False by done. by destruct destFirst.
Qed.

Lemma wp_tryAddresses_reported addresses merr :
  wp (tryAddresses source dest destName destResource sourceWSResponse secrets
        status baseImage ephemeral containerOnly addresses merr)
    (reported destResource).
Proof.
  revert merr. induction addresses as [|addr rest IH]; intros merr.
  - apply wp_exhausted_reported.
  - intros [m|err]; cbv beta iota.
    + apply wp_awaitBoth.
      * intros destFirst d e. by apply reported_accepted.
      * intros destFirst d. by apply reported_accepted.
    + eapply wp_mono; [apply IH|]. intros t r Ht. by apply reported_skip.
Qed.

End Reported.

Lemma wp_localCopy_reported source sourceName destName destResource status
    ephemeral containerOnly :
  wp (localCopy source sourceName destName destResource status ephemeral
        containerOnly)
    (reported destResource).
Proof.
  unfold localCopy. case_decide; [by apply reported_failed|].
  apply wp_try; [intros err; reported_failed|]. intros cp.
  intros [e|]; cbn [wp].
  - split; [done|]. intros _ resp _ Hwaits. exfalso.
    cbn in Hwaits. by apply Forall_cons in Hwaits as [? _].
  - case_decide as Hdest.
    + apply wp_reportName.
      * intros c0 rest Hc0. split.
        -- intros _. rewrite decide_True by done. by exists cp, c0, rest.
        -- intros _ resp [= <-] _ Hnone. rewrite Hc0 in Hnone. by destruct Hnone.
      * intros _. split; [done|]. by intros _ resp _ _ _.
    + split; [|done]. intros _. by rewrite decide_False.
Qed.

Lemma wp_migrate_reported config source sourceName destRemote destName
    destResource status baseImage ephemeral stateful containerOnly :
  wp (migrate config source sourceName destRemote destName destResource status
        baseImage ephemeral stateful containerOnly)
    (reported destResource).
Proof.
  unfold migrate.
  apply wp_try; [intros err; reported_failed|]. intros dest.
  apply wp_try; [intros err; reported_failed|]. intros profiles.
  destruct (negb _); [cbn [wp]; reported_failed|].
  apply wp_bind. unfold resolveEphemeral.
  assert (∀ ephemeral' (prefix : list event), Forall unreported prefix →
    wp (sourceWSResponse ←! GetMigrationSourceWS source sourceName stateful
                              containerOnly;
        match MetadataAsOperation sourceWSResponse with
        | inr err => Ret (Some err)
        | inl op =>
            match buildSecrets (Metadata op) with
            | None => Panic "interface conversion: interface {} is not string"
            | Some secrets =>
                tryAllAddresses source dest destName destResource
                  sourceWSResponse secrets status baseImage ephemeral'
                  containerOnly
            end
        end)
      (λ t r, reported destResource (prefix ++ t) r)) as Hsession.
  { intros ephemeral' prefix Hprefix.
    assert (∀ t r, reported destResource t r →
                   reported destResource (prefix ++ t) r) as Hskip.
    { intros t r Ht. induction Hprefix as [|ev prefix Hev _ IH]; [done|].
      by apply reported_skip. }
    apply wp_try.
    { intros err. apply Hskip. reported_failed. }
    intros sourceWSResponse.
    destruct (MetadataAsOperation sourceWSResponse) as [op|err];
      [|cbn [wp]; apply Hskip; reported_failed].
    destruct (buildSecrets (Metadata op)) as [secrets|];
      [|cbn [wp]; apply Hskip; reported_failed].
    unfold tryAllAddresses. apply wp_try.
    { intros err. apply Hskip. reported_failed. }
    intros addresses. eapply wp_mono; [apply wp_tryAddresses_reported|].
    intros t r Ht. apply Hskip. by do 2 (apply reported_skip; [done|]). }
  case_decide.
  - intros [ct|err]; cbn [wp].
    + apply (Hsession _ [_; _; _]). by repeat constructor.
    + reported_failed.
  - cbn [wp]. apply (Hsession _ [_; _]). by repeat constructor.
Qed.

Lemma wp_copyContainer_reported ParseRemoteAndContainer IsSnapshot configMap
    c config sourceResource destResource keepVolatile ephemeral stateful
    containerOnly :
  wp (copyContainer ParseRemoteAndContainer IsSnapshot configMap c config
        sourceResource destResource keepVolatile ephemeral stateful containerOnly)
    (reported destResource).
Proof.
  apply wp_copyContainer; cbv beta.
  - intros _. by apply reported_failed.
  - intros err. reported_failed.
  - intros source ev err Hev. apply reported_skip; [done|].
    apply reported_skip; [by eapply silent_unreported, fetched_silent|].
    by apply reported_failed.
  - intros source ev status Hev _. apply reported_skip; [done|].
    apply reported_skip; [by eapply silent_unreported, fetched_silent|].
    by apply reported_failed.
  - intros source ev status merged _ Hev _.
    eapply wp_mono.
    { case_decide; [apply wp_localCopy_reported|apply wp_migrate_reported]. }
    intros t r Ht. apply reported_skip; [done|].
    by apply reported_skip; [eapply silent_unreported, fetched_silent|].
Qed.

(** ** The last path segment (lines 142-143, 266-267) *)

Lemma append_String a (s t : string) : String a s +:+ t = String a (s +:+ t).
Proof. reflexivity. Qed.

Lemma append_nil_l (t : string) : "" +:+ t = t.
Proof. reflexivity. Qed.

Lemma append_nil_r (s : string) : s +:+ "" = s.
Proof. induction s as [|a s IH]; [done|]. by rewrite append_String, IH. Qed.

Lemma append_assoc (s t u : string) : (s +:+ t) +:+ u = s +:+ (t +:+ u).
Proof. induction s as [|a s IH]; [done|]. by rewrite !append_String, IH. Qed.

Lemma hasSlash_append s t : hasSlash (s +:+ t) = hasSlash s || hasSlash t.
Proof.
  induction s as [|a s IH]; [done|]. rewrite append_String. simpl.
  rewrite IH. by rewrite orb_assoc.
Qed.

Lemma Split_go_cons s sep cur : ∃ x l, Split_go s sep cur = x :: l.
Proof.
  revert cur. induction s as [|a s IH]; intros cur; simpl; [by eexists _, _|].
  destruct (Ascii.eqb a sep); [by eexists _, _|apply IH].
Qed.

Lemma concat_Split_go s sep cur :
  String.concat (String sep "") (Split_go s sep cur) = cur +:+ s.
Proof.
  revert cur. induction s as [|a s IH]; intros cur; simpl.
  - by rewrite append_nil_r.
  - destruct (Ascii.eqb a sep) eqn:Ha.
    + apply Ascii.eqb_eq in Ha as ->. specialize (IH "").
      destruct (Split_go_cons s sep "") as (x & l & Hx). rewrite Hx in *.
      cbn [String.concat]. cbn [String.concat] in IH. by rewrite IH.
    + rewrite IH. by rewrite append_assoc.
Qed.

Lemma last_Split_go s cur :
  List.last (Split_go s "/" cur) ""
    = if hasSlash s then List.last (Split s "/") "" else cur +:+ s.
Proof.
  unfold Split. revert cur. induction s as [|a s IH]; intros cur; simpl.
  - by rewrite append_nil_r.
  - destruct (Ascii.eqb a "/"); simpl.
    + by destruct (Split_go_cons s "/" "") as (x & l & ->).
    + rewrite (IH (cur +:+ String a "")), (IH ("" +:+ String a "")).
      destruct (hasSlash s); [done|]. by rewrite append_assoc.
Qed.

Lemma hasSlash_last_Split_go s cur :
  hasSlash cur = false → hasSlash (List.last (Split_go s "/" cur) "") = false.
Proof.
  revert cur. induction s as [|a s IH]; intros cur Hcur; simpl; [done|].
  destruct (Ascii.eqb a "/") eqn:Ha.
  - destruct (Split_go_cons s "/" "") as (x & l & Hx).
    specialize (IH "" eq_refl). rewrite Hx in *. done.
  - apply IH. rewrite hasSlash_append, Hcur. simpl. by rewrite Ha.
Qed.

Lemma last_Split_go_after dir name cur :
  hasSlash name = false →
  List.last (Split_go (dir +:+ "/" +:+ name) "/" cur) "" = name.
Proof.
  intros Hname. revert cur. induction dir as [|a dir IH]; intros cur.
  - change ("" +:+ "/" +:+ name) with (String "/" name). simpl.
    destruct (Split_go_cons name "/" "") as (x & l & Hx).
    pose proof (last_Split_go name "") as Hlast. rewrite Hname, Hx in Hlast.
    rewrite Hx. done.
  - rewrite append_String. simpl.
    destruct (Ascii.eqb a "/"); [|apply IH].
    specialize (IH "").
    destruct (Split_go_cons (dir +:+ "/" +:+ name) "/" "") as (x & l & Hx).
    rewrite Hx in *. done.
Qed.

Lemma hasSlash_createdName path : hasSlash (createdName path) = false.
Proof. by apply hasSlash_last_Split_go. Qed.


(** C8, as it was stated, fails: a destination locator that names only the
    remote pins no destination name, yet a migration that succeeds with it
    prints nothing, although the accepted handshake lists the created
    container.  Line 50 has made the source's name the destination name, and
    lines 131 and 255 look at the locator, not at the name. *)
Lemma remote_only_destination_reports_nothing :
  let w := setHandshakes [inl withResources] world0 in
  let r := copy0 None cmd0 "c1" "r2:" false 0 w in
  (parseLocator config0 "r2:").2 = "" ∧
  r.1 = Returned None ∧
  (∃ resp, last (accepted r.2) = Some resp ∧
           containersOf resp = Some ["/1.0/containers/c7"]) ∧
  destNames r.2 = ["c1"] ∧
  printed r.2 = [].
Proof.
  split; [by vm_compute|]. split; [by vm_compute|].
  split; [|by vm_compute]. exists withResources. by vm_compute.
Qed.

(** C8, amended: a run that succeeds prints the created container's name if
    and only if no destination locator was given; the name is the last path
    segment of the first entry under "containers" in the resources of the
    request that was accepted (the copy, or the handshake), taken from the
    response's metadata.  With no destination locator, when that request
    was accepted and every wait succeeded but the metadata has no such
    entry, the result is the missing-resource error and nothing is
    printed.  No destination locator is the one case in which lines 43-52
    leave the destination name empty, for the server to choose.  The last
    path segment has no slash in it, and is what follows the last slash. *)
Theorem created_name_reported_iff_no_destination
    (ParseRemoteAndContainer : lxd_Config → string → string * string)
    (IsSnapshot : string → bool) (configMap : gomap string)
    (c : copyCmd) (config : lxd_Config) (sourceResource destResource : string)
    (keepVolatile : bool) (ephemeral : Z) (stateful only : bool)
    (W : Type) (handle : ∀ X, call X → W → X * W) (w : W) :
  let r := exec handle
             (copyContainer ParseRemoteAndContainer IsSnapshot configMap c config
                sourceResource destResource keepVolatile ephemeral stateful
                only) w in
  (r.1.1 = Returned None →
   if decide (destResource = "")
   then ∃ resp c0 rest,
          last (accepted r.2) = Some resp ∧
          containersOf resp = Some (c0 :: rest) ∧
          printed r.2 = [msgContainerName (createdName c0)]
   else printed r.2 = []) ∧
  (destResource = "" →
   ∀ resp, last (accepted r.2) = Some resp →
     Forall (λ a, a = None) (waitAnswers r.2) →
     containersOf resp = None ∨ containersOf resp = Some [] →
     r.1.1 = Returned (Some errNoResource) ∧ printed r.2 = []) ∧
  ((ParseRemoteAndContainer config "").2 = "" →
   (ParseRemoteAndContainer config sourceResource).2 ≠ "" →
   (destResource = ""
    ↔ resolvedName ParseRemoteAndContainer config sourceResource destResource = "")) ∧
  (∀ path,
     hasSlash (createdName path) = false ∧
     (hasSlash path = false → createdName path = path) ∧
     ∀ dir name, path = dir +:+ "/" +:+ name → hasSlash name = false →
       createdName path = name).
Proof.
  intros r.
  destruct (wp_exec _ _ (wp_copyContainer_reported ParseRemoteAndContainer
    IsSnapshot configMap c config sourceResource destResource keepVolatile
    ephemeral stateful only) W handle w) as [Hok Hmissing].
  split; [exact Hok|]. split; [exact Hmissing|]. split.
  - intros Hempty Hname. unfold resolvedName. split.
    + intros ->. rewrite decide_False by (by intros [_ ?]). exact Hempty.
    + destruct (decide (_ ∧ _)) as [_|Hn]; [done|]. intros Hparsed.
      destruct (decide (destResource = "")) as [|Hdest]; [done|].
      destruct Hn. by split.
  - intros path. split; [apply hasSlash_createdName|]. split.
    + intros Hpath. unfold createdName, Split. rewrite last_Split_go.
      by rewrite Hpath.
    + intros dir name -> Hname. by apply last_Split_go_after.
Qed.

(** C8 at a local copy without a destination: the server's choice is
    printed. *)
Lemma created_name_reported_iff_no_destination_witness :
  let r := exec answer
             (copyContainer parseLocator hasSlash None cmd0 config0 "c1" ""
                false 0 false false) world0 in
  r.1.1 = Returned None ∧
  ∃ resp c0 rest,
    last (accepted r.2) = Some resp ∧ containersOf resp = Some (c0 :: rest) ∧
    printed r.2 = [msgContainerName (createdName c0)].
Proof.
  split; [by vm_compute|].
  apply (proj1 (created_name_reported_iff_no_destination parseLocator hasSlash
    None cmd0 config0 "c1" "" false 0 false false World answer world0)).
  by vm_compute.
Defined.

Example local_copy_reports_created_name :
  let r := copy0 None cmd0 "c1" "" false 0 world0 in
  let r' := copy0 None cmd0 "c1" "c2" false 0 world0 in
  r.1 = Returned None ∧ printed r.2 = [msgContainerName "c9"] ∧
  r'.1 = Returned None ∧ printed r'.2 = [].
Proof. vm_compute. done. Qed.

Example migration_reports_created_name :
  let w := setHandshakes [inr "bad handshake"; inl withResources] world0 in
  let r := copy0 None cmd0 "r1:c1" "" false 0 w in
  let r' := copy0 None cmd0 "r1:c1" "c2" false 0 w in
  r.1 = Returned None ∧ printed r.2 = [msgContainerName "c7"] ∧
  r'.1 = Returned None ∧ printed r'.2 = [].
Proof. vm_compute. done. Qed.

(** * The address loop (lines 199-281) *)

Lemma wp_goWait dest destOp source sourceOp
    (Q : list event → outcome (list (gmap nat (option error))) → Prop) :
  (∀ d s,
     Q [Ev Schedule true; Ev (WaitForSuccess dest destOp) d;
        Ev (WaitForSuccess source sourceOp) s]
       (Returned [ {[ destOpId := d ]}; {[ sourceOpId := s ]} ])) →
  (∀ d s,
     Q [Ev Schedule false; Ev (WaitForSuccess source sourceOp) s;
        Ev (WaitForSuccess dest destOp) d]
       (Returned [ {[ sourceOpId := s ]}; {[ destOpId := d ]} ])) →
  wp (goWait dest destOp source sourceOp) Q.
Proof.
  intros Hd Hs. unfold goWait, wait. intros [|]; cbn [bind wp]; intros x y; auto.
Qed.

Section Orchestrator.

Variables (source dest : Client) (destName destResource : string).
Variables (sourceWSResponse : Response) (secrets : gmap string string).
Variables (status : Status) (baseImage : string).
Variables (ephemeral : Z) (containerOnly : bool).
Context {W : Type} (handle : ∀ X, call X → W → X * W).

Local Abbreviation sourceWSUrl' := (sourceWSUrl sourceWSResponse).
Local Abbreviation handshake' :=
  (handshake source dest destName sourceWSResponse secrets status baseImage
     ephemeral containerOnly).
Local Abbreviation rejects' :=
  (rejects source dest destName sourceWSResponse secrets status baseImage
     ephemeral containerOnly handle).

Lemma rejects_log addresses : ∀ w lastErr w1 lastErr1 tr,
  rejects' w addresses lastErr = Some (w1, lastErr1, tr) →
  mOperation <$> migrations tr = sourceWSUrl' <$> addresses ∧
  accepted tr = [] ∧ printed tr = [] ∧ waitAnswers tr = [] ∧
  filter isGetOperation tr = [] ∧
  (addresses ≠ [] → is_Some lastErr1) ∧ (addresses = [] → lastErr1 = lastErr).
Proof.
  induction addresses as [|addr rest IH]; intros w lastErr w1 lastErr1 tr; simpl.
  - intros [= <- <- <-]. by repeat split.
  - destruct (handle _ (handshake' addr) w) as [[m|err] w'] eqn:Hh; [done|].
    destruct (rejects' w' rest (Some err)) as [[[w2 lastErr'] tr']|] eqn:Hr; [|done].
    intros [= <- <- <-].
    destruct (IH _ _ _ _ _ Hr) as (Hm & Ha & Hp & Hw & Hg & Hsome & Hsame).
    change (Ev (handshake' addr) (inr err) :: tr')
      with ([Ev (handshake' addr) (inr err)] ++ tr').
    unfold migrations, accepted, printed, waitAnswers in *.
    rewrite !omap_app, filter_app, fmap_app, Hm, Ha, Hp, Hw, Hg.
    repeat split; try done. intros _.
    destruct rest as [|addr' rest']; [|by apply Hsome].
    rewrite Hsame by done. by eexists.
Qed.

Lemma exec_tryAddresses_rejected prior : ∀ rest w lastErr w1 lastErr1 tr,
  rejects' w prior lastErr = Some (w1, lastErr1, tr) →
  exec handle
    (tryAddresses source dest destName destResource sourceWSResponse secrets
       status baseImage ephemeral containerOnly (prior ++ rest) lastErr) w
  = (let '(r, w2, t) :=
       exec handle
         (tryAddresses source dest destName destResource sourceWSResponse
            secrets status baseImage ephemeral containerOnly rest lastErr1) w1 in
     (r, w2, tr ++ t)).
Proof.
  induction prior as [|addr prior IH]; intros rest w lastErr w1 lastErr1 tr; simpl.
  - intros [= <- <- <-].
    by destruct (exec handle (tryAddresses _ _ _ _ _ _ _ _ _ _ rest lastErr) w)
      as [[r w2] t].
  - fold (sourceWSUrl' addr). fold (handshake' addr).
    destruct (handle _ (handshake' addr) w) as [[m|err] w'] eqn:Hh; [done|].
    destruct (rejects' w' prior (Some err)) as [[[w2 lastErr'] tr']|] eqn:Hr; [|done].
    intros [= <- <- <-]. rewrite (IH rest _ _ _ _ _ Hr).
    by destruct (exec handle (tryAddresses _ _ _ _ _ _ _ _ _ _ rest lastErr') w2)
      as [[r w3] t].
Qed.

(** Both waits succeeded: the attempt is a success, and the name is
    reported when there is no destination locator. *)
Lemma exec_awaitBoth_ok migration next w :
  Forall (λ a, a = None)
    (waitAnswers (exec handle
       (goWait dest (ROperation migration) source (ROperation sourceWSResponse))
       w).2) →
  (destResource = "" → ∃ c0 rest, containersOf migration = Some (c0 :: rest)) →
  let r := exec handle
             (awaitBoth source dest destResource sourceWSResponse migration next)
             w in
  r.1.1 = Returned None ∧ migrations r.2 = [] ∧ accepted r.2 = [].
Proof.
  intros Hwaits Hname r. subst r. unfold awaitBoth. rewrite exec_bind.
  revert Hwaits.
  pose proof (wp_exec (goWait dest (ROperation migration) source
                         (ROperation sourceWSResponse))
    (λ t r, ∃ msgs d s, r = Returned msgs ∧ receiveAll msgs = (s, None) ∧
            waitAnswers t ≡ₚ [d; s] ∧ migrations t = [] ∧ accepted t = [])) as Hgo.
  destruct (Hgo (wp_goWait _ _ _ _ _
      (λ d s, ex_intro _ _ (ex_intro _ d (ex_intro _ s
         (conj eq_refl (conj (proj1 (receiveAll_pair d s))
            (conj (reflexivity _) (conj eq_refl eq_refl)))))))
      (λ d s, ex_intro _ _ (ex_intro _ d (ex_intro _ s
         (conj eq_refl (conj (proj2 (receiveAll_pair d s))
            (conj (Permutation_swap _ _ _) (conj eq_refl eq_refl))))))))
    W handle w) as (msgs & d & s & Hr & Hrecv & Hperm & Hmig & Hacc).
  destruct (exec handle (goWait _ _ _ _) w) as [[r1 w1] t1]. simpl in *. subst r1.
  intros Hwaits. rewrite Hperm in Hwaits.
  apply Forall_cons in Hwaits as [-> Hwaits].
  apply Forall_cons in Hwaits as [-> _].
  rewrite Hrecv.
  destruct (decide (destResource = "")) as [Hd|Hd].
  - destruct (Hname Hd) as (c0 & rest & Hc0).
    unfold reportName, containersOf in *.
    destruct (MetadataAsOperation migration) as [op|err]; [|done].
    rewrite Hc0. simpl. destruct (handle _ _ w1) as [[] w2]. simpl.
    unfold migrations, accepted in *. by rewrite !omap_app, Hmig, Hacc.
  - simpl. by rewrite app_nil_r.
Qed.

End Orchestrator.

(** C3, as it was stated, fails: with no destination locator, the second
    address's handshake is accepted and both waits succeed, but the
    destination's answer names no created container, and the result is the
    missing-resource error. *)
Lemma accepted_handshake_without_resource_fails :
  let w := setHandshakes [inr "bad handshake"; inl noResources] world0 in
  let r := copy0 None cmd0 "r1:c1" "" false 0 w in
  mOperation <$> migrations r.2
    = ["https://10.0.0.1:8443/1.0/operations/src";
       "https://10.0.0.2:8443/1.0/operations/src"] ∧
  accepted r.2 = [noResources] ∧ waitAnswers r.2 = [None; None] ∧
  r.1 = Returned (Some errNoResource).
Proof. vm_compute. done. Qed.

(** C3, amended: the addresses are those the source answered with.  When
    the handshakes for the first addresses are all rejected, the next one is
    accepted and both its waits succeed, and, in case there is no
    destination locator, the destination's answer names a created container,
    then the result is success; the handshakes made are exactly one per
    address up to the accepted one, in the order of the answer, each with
    the URL of its address, and the accepted answer is that address's. *)
Theorem addresses_tried_in_order_until_accepted
    (source dest : Client) (destName destResource : string)
    (sourceWSResponse : Response) (secrets : gmap string string)
    (status : Status) (baseImage : string) (ephemeral : Z) (only : bool)
    (W : Type) (handle : ∀ X, call X → W → X * W) (w w0 w1 w2 : W)
    (prior : list string) (addr : string) (later : list string)
    (lastErr : option error) (tr : list event) (migration : Response) :
  handle _ (Addresses source) w = (inl (prior ++ addr :: later), w0) →
  rejects source dest destName sourceWSResponse secrets status baseImage
    ephemeral only handle w0 prior None = Some (w1, lastErr, tr) →
  handle _ (handshake source dest destName sourceWSResponse secrets status
              baseImage ephemeral only addr) w1 = (inl migration, w2) →
  Forall (λ a, a = None)
    (waitAnswers (exec handle
       (goWait dest (ROperation migration) source (ROperation sourceWSResponse))
       w2).2) →
  (destResource = "" → ∃ c0 rest, containersOf migration = Some (c0 :: rest)) →
  let r := exec handle
             (tryAllAddresses source dest destName destResource sourceWSResponse
                secrets status baseImage ephemeral only) w in
  r.1.1 = Returned None ∧
  mOperation <$> migrations r.2
    = sourceWSUrl sourceWSResponse <$> (prior ++ [addr]) ∧
  accepted r.2 = [migration].
Proof.
  intros Haddr Hrej Hacc Hwaits Hname r. subst r. unfold tryAllAddresses.
  rewrite (exec_try_ok _ _ _ _ _ _ Haddr).
  rewrite (exec_tryAddresses_rejected _ _ _ _ _ _ _ _ _ _ _ _ _ _ _ _ _ _ Hrej).
  destruct (rejects_log _ _ _ _ _ _ _ _ _ _ _ _ _ _ _ _ Hrej)
    as (Hm & Ha & _).
  cbn [tryAddresses].
  fold (sourceWSUrl sourceWSResponse addr).
  fold (handshake source dest destName sourceWSResponse secrets status baseImage
          ephemeral only addr).
  rewrite (exec_call _ _ _ _ _ _ Hacc).
  destruct (exec_awaitBoth_ok source dest destResource sourceWSResponse handle
              migration
              (tryAddresses source dest destName destResource sourceWSResponse
                 secrets status baseImage ephemeral only later None)
              w2 Hwaits Hname) as (Hr & Hmig & Haccepted).
  destruct (exec handle (awaitBoth _ _ _ _ _ _) w2) as [[r w3] t].
  simpl in Hr, Hmig, Haccepted. subst r. cbn [fst snd]. split; [done|].
  change (Ev (Addresses source) (inl (prior ++ addr :: later))
            :: tr ++ Ev (handshake source dest destName sourceWSResponse secrets
                           status baseImage ephemeral only addr) (inl migration) :: t)
    with ([Ev (Addresses source) (inl (prior ++ addr :: later) : list string + error)]
            ++ tr ++ [Ev (handshake source dest destName sourceWSResponse secrets
                            status baseImage ephemeral only addr)
                         (inl migration : Response + error)] ++ t).
  unfold migrations, accepted in *.
  rewrite !omap_app, !fmap_app, Hm, Ha, Hmig, Haccepted. split; [|done].
  by rewrite app_nil_r.
Qed.

(** C3 at four addresses, the first one twice: two rejected handshakes, the
    third accepted, the fourth address not tried. *)
Lemma addresses_tried_in_order_until_accepted_witness :
  let source := {| Remote := "r1"; Certificate := "cert" |} in
  let dest := {| Remote := "local"; Certificate := "cert" |} in
  let session := sessionWith None in
  let status := {| Architecture := "x86_64"; Devices := None; Config := None;
                   Profiles := ["default"] |} in
  let w := setAddresses (inl ["a:1"; "a:1"; "b:2"; "c:3"])
             (setHandshakes [inr "refused"; inr "bad handshake"; inl withResources]
                world0) in
  let r := exec answer
             (tryAllAddresses source dest "" "" session ∅ status "" 0 false) w in
  r.1.1 = Returned None ∧
  mOperation <$> migrations r.2
    = ["https://a:1/1.0/operations/src"; "https://a:1/1.0/operations/src";
       "https://b:2/1.0/operations/src"] ∧
  accepted r.2 = [withResources].
Proof.
  refine (addresses_tried_in_order_until_accepted
    {| Remote := "r1"; Certificate := "cert" |}
    {| Remote := "local"; Certificate := "cert" |} "" ""
    (sessionWith None) ∅
    {| Architecture := "x86_64"; Devices := None; Config := None;
       Profiles := ["default"] |} "" 0 false World answer
    (setAddresses (inl ["a:1"; "a:1"; "b:2"; "c:3"])
       (setHandshakes [inr "refused"; inr "bad handshake"; inl withResources]
          world0))
    _ _ _ ["a:1"; "a:1"] "b:2" ["c:3"] _ _ withResources _ _ _ _ _).
  - reflexivity.
  - reflexivity.
  - reflexivity.
  - vm_compute. by repeat constructor.
  - intros _. eexists _, _. by vm_compute.
Defined.

(** * Deciding an attempt (lines 230-253) and running out (lines 273-280) *)

(** Both waits are made, in one order or the other, before anything is
    decided, and the decision is the same in both orders.  A failed source
    wait ends the attempt with the source's error.  The destination's answer
    [d] plays no part: whether or not its wait failed, a source wait that
    succeeded makes the attempt a success. *)
Lemma awaitBoth_decision source dest destResource sourceWSResponse migration next
    {W} (handle : ∀ X, call X → W → X * W) (w : W) :
  let r := exec handle
             (awaitBoth source dest destResource sourceWSResponse migration next)
             w in
  ∃ destFirst d s t,
    r.2 = waitEvents source dest sourceWSResponse migration destFirst d s ++ t ∧
    migrations r.2 = [] ∧
    match s with
    | Some e => r.1.1 = Returned (Some e) ∧ t = []
    | None =>
        if decide (destResource = "")
        then Forall quietEvent t ∧
             (r.1.1 = Returned None ∨ r.1.1 = Returned (Some errNoResource))
        else r.1.1 = Returned None ∧ t = []
    end.
Proof.
  apply (wp_exec _ (λ tr r,
    ∃ destFirst d s t,
      tr = waitEvents source dest sourceWSResponse migration destFirst d s ++ t ∧
      migrations tr = [] ∧
      match s with
      | Some e => r = Returned (Some e) ∧ t = []
      | None =>
          if decide (destResource = "")
          then Forall quietEvent t ∧
               (r = Returned None ∨ r = Returned (Some errNoResource))
          else r = Returned None ∧ t = []
      end)).
  apply wp_awaitBoth.
  - intros destFirst d e. exists destFirst, d, (Some e), [].
    rewrite app_nil_r. by destruct destFirst.
  - intros destFirst d. case_decide as Hd.
    + apply wp_reportName.
      * intros c0 rest _.
        exists destFirst, d, None,
          [Ev (Printf (msgContainerName (createdName c0))) ()].
        split; [done|].
        split; [by destruct destFirst|]. split; [by repeat constructor|by left].
      * intros _. exists destFirst, d, None, [].
        split; [done|].
        split; [by destruct destFirst|]. split; [by constructor|by right].
    + exists destFirst, d, None, [].
      rewrite app_nil_r. by destruct destFirst.
Qed.

(** When every handshake is rejected, the source's operation is asked for:
    an error text in it is the result, attributed to the source; otherwise
    the result is the last handshake error, attributed to the target. *)
Lemma exec_tryAddresses_exhausted source dest destName destResource
    sourceWSResponse secrets status baseImage ephemeral only
    {W} (handle : ∀ X, call X → W → X * W) addresses w w1 w2 lastErr tr answer :
  rejects source dest destName sourceWSResponse secrets status baseImage
    ephemeral only handle w addresses None = Some (w1, lastErr, tr) →
  handle _ (GetOperation source (ROperation sourceWSResponse)) w1 = (answer, w2) →
  (exec handle
     (tryAddresses source dest destName destResource sourceWSResponse secrets
        status baseImage ephemeral only addresses None) w).1.1
  = Returned (Some
      match answer with
      | inl sourceOp =>
          if decide (Err sourceOp ≠ "") then errSourceHost (Err sourceOp)
          else errTargetHost lastErr
      | inr _ => errTargetHost lastErr
      end).
Proof.
  intros Hrej Hop.
  pose proof (exec_tryAddresses_rejected source dest destName destResource
    sourceWSResponse secrets status baseImage ephemeral only handle
    addresses [] _ _ _ _ _ Hrej) as Hexec.
  rewrite app_nil_r in Hexec. rewrite Hexec. cbn [tryAddresses].
  unfold exhausted. rewrite (exec_call _ _ _ _ _ _ Hop).
  destruct answer as [sourceOp|err]; [|done]. by case_decide.
Qed.

(** C1 at a failing input: two addresses, the first handshake is accepted,
    the destination's wait fails and the source's succeeds.  The failure of
    the destination is not kept (line 243 stores the nil error of the failed
    map lookup), line 248 does not [continue], and the run ends in success
    after one handshake, in either order of the two waiters. *)
Theorem destination_wait_failure_is_dropped :
  let w := setWait destinationWaitFails
             (setHandshakes [inl withResources; inl withResources] world0) in
  let r := copy0 None cmd0 "r1:c1" "c2" false 0 w in
  let r' := copy0 None cmd0 "r1:c1" "c2" false 0 (setDestFirst false w) in
  waitAnswers r.2 = [Some "disk full"; None] ∧
  mOperation <$> migrations r.2 = ["https://10.0.0.1:8443/1.0/operations/src"] ∧
  r.1 = Returned None ∧
  waitAnswers r'.2 = [None; Some "disk full"] ∧
  mOperation <$> migrations r'.2 = ["https://10.0.0.1:8443/1.0/operations/src"] ∧
  r'.1 = Returned None.
Proof. vm_compute. done. Qed.

(** C2 at a failing input: the only address fails at the destination's
    wait and the source's wait succeeds.  The source's operation is never
    asked for and the result is success, not an error attributed to the
    target. *)
Theorem failed_destination_wait_skips_status_check :
  let w := setAddresses (inl ["10.0.0.1:8443"])
             (setWait destinationWaitFails
                (setHandshakes [inl withResources] world0)) in
  let r := copy0 None cmd0 "r1:c1" "c2" false 0 w in
  waitAnswers r.2 = [Some "disk full"; None] ∧
  filter isGetOperation r.2 = [] ∧
  r.1 = Returned None.
Proof. vm_compute. done. Qed.

Example all_handshakes_rejected :
  let w := setHandshakes [inr "refused"; inr "bad handshake"] world0 in
  let failed := {| Resources := None; Metadata := None; Err := "dump failed" |} in
  (copy0 None cmd0 "r1:c1" "c2" false 0 w).1
    = Returned (Some "Migration failed on target host: bad handshake") ∧
  (copy0 None cmd0 "r1:c1" "c2" false 0 (setOperation (inl failed) w)).1
    = Returned (Some "Migration failed on source host: dump failed") ∧
  (copy0 None cmd0 "r1:c1" "c2" false 0 (setAddresses (inl []) w)).1
    = Returned (Some "Migration failed on target host: %!s(<nil>)").
Proof. vm_compute. done. Qed.

(** * Every run of [copyContainer], taken apart *)

Lemma wp_reportRun resp : wp (reportName resp) (reportRun resp).
Proof. apply wp_reportName; intros; econstructor; eauto. Qed.

Lemma wp_localRun source sourceName destName destResource status ephemeral only :
  wp (localCopy source sourceName destName destResource status ephemeral only)
    (localRun source sourceName destName destResource status ephemeral only).
Proof.
  unfold localCopy. case_decide; [by constructor|].
  apply wp_try; [intros err; by constructor|]. intros cp.
  intros [e|]; cbn [wp].
  - by constructor.
  - case_decide.
    + eapply wp_mono; [apply wp_reportRun|]. intros t r Ht.
      apply local_finished; [done|]. by apply finish_report.
    + apply local_finished; [done|]. by apply finish_silent.
Qed.

Lemma wp_loopRun source dest destName destResource sourceWSResponse secrets
    status baseImage ephemeral only addresses lastErr :
  wp (tryAddresses source dest destName destResource sourceWSResponse secrets
        status baseImage ephemeral only addresses lastErr)
    (loopRun source dest destName destResource sourceWSResponse secrets
       status baseImage ephemeral only addresses lastErr).
Proof.
  revert lastErr. induction addresses as [|addr rest IH]; intros lastErr.
  - intros answer.
    pose proof (loop_exhausted source dest destName destResource
                  sourceWSResponse secrets status baseImage ephemeral only
                  lastErr answer) as H.
    unfold exhaustedError in H. destruct answer as [sourceOp|err]; [|done].
    by destruct (decide (Err sourceOp ≠ "")).
  - intros [m|err]; cbv beta iota.
    + apply wp_awaitBoth.
      * intros destFirst d e. apply loop_source_failed.
      * intros destFirst d. case_decide.
        -- eapply wp_mono; [apply wp_reportRun|]. intros t r Ht.
           apply loop_accepted. by apply finish_report.
        -- rewrite <- (app_nil_r (waitEvents _ _ _ _ _ _ _)).
           apply loop_accepted. by apply finish_silent.
    + eapply wp_mono; [apply IH|]. intros t r Ht. by apply loop_rejected.
Qed.

Lemma wp_sessionRun source sourceName dest destName destResource status
    baseImage ephemeral stateful only :
  wp (sourceWSResponse ←! GetMigrationSourceWS source sourceName stateful only;
      match MetadataAsOperation sourceWSResponse with
      | inr err => Ret (Some err)
      | inl op =>
          match buildSecrets (Metadata op) with
          | None => Panic "interface conversion: interface {} is not string"
          | Some secrets =>
              tryAllAddresses source dest destName destResource
                sourceWSResponse secrets status baseImage ephemeral only
          end
      end)
    (sessionRun source sourceName dest destName destResource status baseImage
       ephemeral stateful only).
Proof.
  apply wp_try; [intros err; by constructor|]. intros resp.
  destruct (MetadataAsOperation resp) as [op|err] eqn:Hop;
    [|cbn [wp]; by apply session_unreadable].
  destruct (buildSecrets (Metadata op)) as [secrets|] eqn:Hsecrets;
    [|cbn [wp]; by eapply session_panic].
  unfold tryAllAddresses. apply wp_try.
  { intros err. by eapply session_no_addresses. }
  intros addresses. eapply wp_mono; [apply wp_loopRun|].
  intros t r Ht. by eapply session_loop.
Qed.

Lemma wp_migrateRun config source sourceName destRemote destName destResource
    status baseImage ephemeral stateful only :
  wp (migrate config source sourceName destRemote destName destResource status
        baseImage ephemeral stateful only)
    (migrateRun config source sourceName destRemote destName destResource
       status baseImage ephemeral stateful only).
Proof.
  unfold migrate.
  apply wp_try; [intros err; by constructor|]. intros dest.
  apply wp_try; [intros err; by constructor|]. intros profiles.
  destruct (IsSubset _ _) eqn:Hsub; cbn [negb]; [|by apply migrate_mismatch].
  apply wp_bind. unfold resolveEphemeral.
  case_decide as Heph.
  - intros [ct|err]; cbn [wp].
    + eapply wp_mono; [apply wp_sessionRun|]. intros t r Ht.
      by apply migrate_unpinned.
    + by apply migrate_lookup_failed.
  - cbn [wp]. eapply wp_mono; [apply wp_sessionRun|]. intros t r Ht.
    by apply migrate_pinned.
Qed.

Lemma wp_fetchStatus_kind IsSnapshot source name
    (Q : list event → outcome (Status + error) → Prop) :
  (∀ ev r, fetched source name ev r → isSnapshotLookup ev = IsSnapshot name →
     Q [ev] (Returned r)) →
  wp (fetchStatus IsSnapshot source name) Q.
Proof.
  intros HQ. unfold fetchStatus.
  destruct (IsSnapshot name) eqn:Hkind; intros [result|err]; simpl;
    (apply HQ; [constructor|done]).
Qed.

Lemma wp_copyRun ParseRemoteAndContainer IsSnapshot configMap
    c config sourceResource destResource keepVolatile ephemeral stateful only :
  wp (copyContainer ParseRemoteAndContainer IsSnapshot configMap c config
        sourceResource destResource keepVolatile ephemeral stateful only)
    (copyRun IsSnapshot configMap c config
       (ParseRemoteAndContainer config sourceResource).1
       (ParseRemoteAndContainer config sourceResource).2
       (ParseRemoteAndContainer config destResource).1
       (resolvedName ParseRemoteAndContainer config sourceResource destResource)
       destResource keepVolatile ephemeral stateful only).
Proof.
  unfold copyContainer.
  fold (resolvedName ParseRemoteAndContainer config sourceResource destResource).
  case_decide as Hname; [by constructor|].
  apply wp_try; [intros err; by constructor|]. intros source.
  apply wp_bind, wp_fetchStatus_kind.
  intros ev [status|err] Hev Hkind; [|by apply copy_lookup_failed].
  destruct (mergeConfig configMap (Config status)) as [merged|] eqn:Hmerge;
    [|by eapply copy_nil_map].
  case_decide as Hremote.
  - eapply wp_mono; [apply wp_localRun|]. intros t r Ht.
    by eapply copy_local.
  - eapply wp_mono; [apply wp_migrateRun|]. intros t r Ht.
    by eapply copy_migrate.
Qed.

(** Every run of [copyContainer], whatever the calls are answered, is one
    of the runs of [copyRun]. *)
Lemma exec_copyRun ParseRemoteAndContainer IsSnapshot configMap
    c config sourceResource destResource keepVolatile ephemeral stateful only
    {W} (handle : ∀ X, call X → W → X * W) w :
  let r := exec handle
             (copyContainer ParseRemoteAndContainer IsSnapshot configMap c
                config sourceResource destResource keepVolatile ephemeral
                stateful only) w in
  copyRun IsSnapshot configMap c config
    (ParseRemoteAndContainer config sourceResource).1
    (ParseRemoteAndContainer config sourceResource).2
    (ParseRemoteAndContainer config destResource).1
    (resolvedName ParseRemoteAndContainer config sourceResource destResource)
    destResource keepVolatile ephemeral stateful only r.2 r.1.1.
Proof. apply (wp_exec _ _ (wp_copyRun _ _ _ _ _ _ _ _ _ _ _)). Qed.

(** * The address loop, taken apart (lines 217-281) *)

Section LoopRuns.

Variables (source dest : Client) (destName destResource : string).
Variables (sourceWSResponse : Response) (secrets : gmap string string).
Variables (status : Status) (baseImage : string).
Variables (ephemeral : Z) (only : bool).

Local Abbreviation handshake' :=
  (handshake source dest destName sourceWSResponse secrets status baseImage
     ephemeral only).
Local Abbreviation rejections' :=
  (rejections source dest destName sourceWSResponse secrets status baseImage
     ephemeral only).
Local Abbreviation waitEvents' := (waitEvents source dest sourceWSResponse).

Lemma lastError_cons lastErr err errs :
  lastError lastErr (err :: errs) = lastError (Some err) errs.
Proof.
  unfold lastError. destruct errs as [|e errs]; [done|].
  change (last (err :: e :: errs)) with (last (e :: errs)).
  destruct (last (e :: errs)) eqn:Hlast; [done|]. by apply last_None in Hlast.
Qed.

(** A run of the loop is a row of rejected handshakes, one for each address
    in order, followed either by the question for the source's operation,
    when no address is left, or by one accepted handshake, the two waits and
    the report. *)
Lemma loopRun_inv addresses lastErr tr r :
  loopRun source dest destName destResource sourceWSResponse secrets status
    baseImage ephemeral only addresses lastErr tr r →
  ∃ errs,
    (length errs ≤ length addresses)%nat ∧
    ((length errs = length addresses ∧
      ∃ answer,
        tr = rejections' addresses errs
               ++ [Ev (GetOperation source (ROperation sourceWSResponse)) answer] ∧
        r = Returned (Some (exhaustedError (lastError lastErr errs) answer))) ∨
     (∃ addr migration destFirst d,
        addresses !! length errs = Some addr ∧
        ((∃ err,
            tr = rejections' addresses errs
                   ++ Ev (handshake' addr) (inl migration)
                   :: waitEvents' migration destFirst d (Some err) ∧
            r = Returned (Some err)) ∨
         (∃ tl,
            finishRun destResource migration tl r ∧
            tr = rejections' addresses errs
                   ++ Ev (handshake' addr) (inl migration)
                   :: waitEvents' migration destFirst d None ++ tl)))).
Proof.
  induction 1 as [lastErr answer|addr rest lastErr err tr r _ IH
                 |addr rest lastErr m destFirst d err
                 |addr rest lastErr m destFirst d tr r Hfin].
  - exists []. split; [done|]. left. split; [done|]. by exists answer.
  - destruct IH as (errs & Hlen & IH). exists (err :: errs).
    split; [simpl; lia|]. rewrite lastError_cons.
    destruct IH as [(Hall & answer & -> & ->)
                   |(a & m & destFirst & d & Ha & [(e & -> & ->)|(tl & Hfin & ->)])].
    + left. split; [simpl; lia|]. by exists answer.
    + right. exists a, m, destFirst, d. split; [done|]. left. by exists e.
    + right. exists a, m, destFirst, d. split; [done|]. right. by exists tl.
  - exists []. split; [simpl; lia|]. right. exists addr, m, destFirst, d.
    split; [done|]. left. by exists err.
  - exists []. split; [simpl; lia|]. right. exists addr, m, destFirst, d.
    split; [done|]. right. by exists tr.
Qed.

Lemma omap_rejections_nil {A} (f : event → option A) addresses errs :
  (∀ addr err, f (Ev (handshake' addr) (inr err)) = None) →
  omap f (rejections' addresses errs) = [].
Proof.
  intros Hf. revert errs.
  induction addresses as [|addr rest IH]; intros [|err errs]; simpl; [done..|].
  by rewrite Hf.
Qed.

Lemma omap_rejections {A} (f : event → option A) (g : string → error → A)
    addresses errs :
  (∀ addr err, f (Ev (handshake' addr) (inr err)) = Some (g addr err)) →
  omap f (rejections' addresses errs) = zip_with g addresses errs.
Proof.
  intros Hf. revert errs.
  induction addresses as [|addr rest IH]; intros [|err errs]; simpl; [done..|].
  by rewrite Hf, IH.
Qed.

Lemma length_rejections addresses errs :
  (length errs ≤ length addresses)%nat →
  length (rejections' addresses errs) = length errs.
Proof. intros H. unfold rejections. rewrite length_zip_with. lia. Qed.

End LoopRuns.

(** * Properties of every run *)

Ltac run_inv H := inversion H; clear H; subst.

(** Takes a run apart into its cases, down to the log of each. *)
Ltac run_cases :=
  repeat match goal with
  | H : copyRun _ _ _ _ _ _ _ _ _ _ _ _ _ _ _ |- _ => run_inv H
  | H : localRun _ _ _ _ _ _ _ _ _ |- _ => run_inv H
  | H : migrateRun _ _ _ _ _ _ _ _ _ _ _ _ _ |- _ => run_inv H
  | H : sessionRun _ _ _ _ _ _ _ _ _ _ _ _ |- _ => run_inv H
  | H : finishRun _ _ _ _ |- _ => run_inv H
  | H : reportRun _ _ _ |- _ => run_inv H
  | H : loopRun _ _ _ _ _ _ _ _ _ _ _ _ _ _ |- _ =>
      let errs := fresh "errs" in
      let Hlen := fresh "Hlen" in
      let Hall := fresh "Hall" in
      let Haddr := fresh "Haddr" in
      let Hfin := fresh "Hfin" in
      let Htr := fresh "Htr" in
      let Hr := fresh "Hr" in
      apply loopRun_inv in H
        as (errs & Hlen &
            [(Hall & ? & Htr & Hr)
            |(? & ? & ? & ? & Haddr & [(? & Htr & Hr)|(? & Hfin & Htr)])]);
      try discriminate Hr; try (injection Hr as Hr); subst
  end.

Ltac fetch_cases :=
  repeat match goal with
  | H : fetched _ _ _ _ |- _ => run_inv H
  end.

Lemma list_omap_app {A B} (f : A → option B) l1 l2 :
  list_omap _ _ f (l1 ++ l2) = list_omap _ _ f l1 ++ list_omap _ _ f l2.
Proof. apply (omap_app f). Qed.

Lemma list_omap_rejections_nil {A} (f : event → option A)
    source dest destName sourceWSResponse secrets status baseImage ephemeral only
    addresses errs :
  (∀ addr err,
     f (Ev (handshake source dest destName sourceWSResponse secrets status
              baseImage ephemeral only addr) (inr err)) = None) →
  list_omap _ _ f
    (rejections source dest destName sourceWSResponse secrets status baseImage
       ephemeral only addresses errs) = [].
Proof. apply omap_rejections_nil. Qed.

Lemma list_omap_rejections {A} (f : event → option A) (g : string → error → A)
    source dest destName sourceWSResponse secrets status baseImage ephemeral only
    addresses errs :
  (∀ addr err,
     f (Ev (handshake source dest destName sourceWSResponse secrets status
              baseImage ephemeral only addr) (inr err)) = Some (g addr err)) →
  list_omap _ _ f
    (rejections source dest destName sourceWSResponse secrets status baseImage
       ephemeral only addresses errs) = zip_with g addresses errs.
Proof. apply omap_rejections. Qed.

Create HintDb logs.

#[local] Hint Unfold printed migrations copyEphemerals sentConfigs destNames
  waitAnswers containerLookups fetchedConfigs accepted sentEphemerals
  clientAnswers snapshotLookups fetchedProfiles sentProfiles sentContainerOnly
  sessionStateful sessionAnswers discovered handshakeAnswers handshakeErrors
  statusAnswers waits fatalErrors : logs.

(** Computes the projections of a log that has rejected handshakes in it. *)
Ltac rejections_simpl :=
  repeat match goal with
  | |- context [list_omap _ _ ?f
                  (rejections ?s ?d ?n ?r ?k ?st ?b ?e ?o ?a ?errs)] =>
      rewrite (list_omap_rejections_nil f s d n r k st b e o a errs) by done
  | H : context [list_omap _ _ ?f
                   (rejections ?s ?d ?n ?r ?k ?st ?b ?e ?o ?a ?errs)] |- _ =>
      rewrite (list_omap_rejections_nil f s d n r k st b e o a errs) in H
        by done
  end.

Ltac log_simpl :=
  autounfold with logs in *; simpl in *;
  repeat (rewrite list_omap_app in * );
  rejections_simpl;
  simpl in *.

Ltac last_simpl := rewrite ?app_comm_cons, ?last_app_cons; try reflexivity.

Ltac wait_cases :=
  repeat match goal with
  | |- context [waitEvents _ _ _ _ ?b _ _] => is_var b; destruct b
  | H : context [waitEvents _ _ _ _ ?b _ _] |- _ => is_var b; destruct b
  end.

(** * The ephemeral flag, from the source or from the option
      (lines 170-181, 283-298) *)



(** * What every run does, and what it never does *)

#[local] Arguments stripVolatile : simpl never.
#[local] Arguments addProfiles : simpl never.
#[local] Arguments exhaustedError : simpl never.
#[local] Arguments createdName : simpl never.
#[local] Arguments msgContainerName : simpl never.

Lemma lastError_None errs : lastError None errs = last errs.
Proof. unfold lastError. by destruct (last errs). Qed.

Lemma zip_with_snd {A B} (l : list A) (k : list B) :
  (length k ≤ length l)%nat → zip_with (λ _ y, y) l k = k.
Proof.
  revert l. induction k as [|y k IH]; intros [|x l] Hlen; simpl in *;
    [done..|lia|]. f_equal. apply IH. lia.
Qed.

Lemma elem_of_omap_rejections {A} (f : event → option A)
    source dest destName sourceWSResponse secrets status baseImage ephemeral only
    addresses errs x :
  x ∈ list_omap _ _ f
        (rejections source dest destName sourceWSResponse secrets status
           baseImage ephemeral only addresses errs) →
  ∃ addr err,
    addr ∈ addresses ∧
    f (Ev (handshake source dest destName sourceWSResponse secrets status
             baseImage ephemeral only addr) (inr err)) = Some x.
Proof.
  intros Hx. apply (list_elem_of_omap f) in Hx as (e & He & Hfe).
  unfold rejections in He. apply elem_of_zip_with in He as (addr & err & -> & Ha & _).
  by exists addr, err.
Qed.

(** Brings in the run that an execution of [copyContainer] is. *)
Ltac run_start :=
  match goal with
  | |- context [exec ?handle (copyContainer ?P ?I ?cm ?c ?cfg ?src ?dst ?keep
                                ?eph ?st ?only) ?w] =>
      let Hrun := fresh "Hrun" in
      pose proof (exec_copyRun P I cm c cfg src dst keep eph st only handle w)
        as Hrun;
      simpl in Hrun;
      destruct (exec handle
                  (copyContainer P I cm c cfg src dst keep eph st only) w)
        as [[? ?] ?];
      simpl in *
  end.

(** X1: a run prints at most one line.  When it prints, the run succeeds,
    no destination locator was given, the line is the last thing the run
    does, and it names a container by a name without a slash.  A run that
    fails or panics prints nothing. *)
Theorem prints_one_line_last_and_only_on_success
    (ParseRemoteAndContainer : lxd_Config → string → string * string)
    (IsSnapshot : string → bool) (configMap : gomap string)
    (c : copyCmd) (config : lxd_Config) (sourceResource destResource : string)
    (keepVolatile : bool) (ephemeral : Z) (stateful only : bool)
    (W : Type) (handle : ∀ X, call X → W → X * W) (w : W) (line : string) :
  let r := exec handle
             (copyContainer ParseRemoteAndContainer IsSnapshot configMap c
                config sourceResource destResource keepVolatile ephemeral
                stateful only) w in
  line ∈ printed r.2 →
  printed r.2 = [line] ∧ last r.2 = Some (Ev (Printf line) ()) ∧
  r.1.1 = Returned None ∧ destResource = "" ∧
  ∃ name, line = msgContainerName name ∧ hasSlash name = false.
Proof.
  intros r. subst r. run_start. intros Hline.
  run_cases; fetch_cases; wait_cases; log_simpl.
  all: try (by apply elem_of_nil in Hline).
  all: apply list_elem_of_singleton in Hline as ->.
  all: (split; [done|]); (split; [by last_simpl|]); do 2 (split; [done|]).
  all: eexists; split; [done|]; apply hasSlash_createdName.
Qed.

(** X1 at a local copy without a destination. *)
Lemma prints_one_line_last_and_only_on_success_witness :
  let r := exec answer
             (copyContainer parseLocator hasSlash None cmd0 config0 "c1" ""
                false 0 false false) world0 in
  printed r.2 = [msgContainerName "c9"] ∧
  last r.2 = Some (Ev (Printf (msgContainerName "c9")) ()) ∧
  r.1.1 = Returned None.
Proof.
  destruct (prints_one_line_last_and_only_on_success parseLocator hasSlash
    None cmd0 config0 "c1" "" false 0 false false World answer world0
    (msgContainerName "c9")) as (Hprinted & Hlast & Hr & _).
  - vm_compute. by left.
  - by split; [|split].
Defined.

Lemma mergeConfig_None configMap cfg :
  mergeConfig configMap cfg = None →
  (∃ cm, configMap = Some cm ∧ cm ≠ ∅) ∧ cfg = None.
Proof.
  unfold mergeConfig. destruct configMap as [cm|]; [|done].
  destruct cfg as [m|]; [done|]. case_decide; [done|]. intros _.
  split; [by exists cm|done].
Qed.

(** X2: a run panics in two ways only, and has sent nothing onward and
    printed nothing when it does.  Either the source answered the lookup
    with a nil configuration while [configMap] has an entry, and the run
    stops at the assignment of line 101, after the client construction and
    the lookup; or the session's metadata has a value that is no string, and
    the run stops at line 196, the session request being its last call. *)
Theorem panics_only_on_nil_config_or_non_string_secret
    (ParseRemoteAndContainer : lxd_Config → string → string * string)
    (IsSnapshot : string → bool) (configMap : gomap string)
    (c : copyCmd) (config : lxd_Config) (sourceResource destResource : string)
    (keepVolatile : bool) (ephemeral : Z) (stateful only : bool)
    (W : Type) (handle : ∀ X, call X → W → X * W) (w : W) (msg : string) :
  let r := exec handle
             (copyContainer ParseRemoteAndContainer IsSnapshot configMap c
                config sourceResource destResource keepVolatile ephemeral
                stateful only) w in
  r.1.1 = Panicked msg →
  sentConfigs r.2 = [] ∧ printed r.2 = [] ∧
  ((msg = "assignment to entry in nil map" ∧
    (∃ cm, configMap = Some cm ∧ cm ≠ ∅) ∧
    fetchedConfigs r.2 = [None] ∧ length r.2 = 2%nat) ∨
   (msg = "interface conversion: interface {} is not string" ∧
    ∃ resp op,
      sessionAnswers r.2 = [resp] ∧ MetadataAsOperation resp = inl op ∧
      ¬ map_Forall (λ _, isString) (gomap_entries (Metadata op)) ∧
      isSession <$> last r.2 = Some true)).
Proof.
  intros r. subst r. run_start. intros ->.
  run_cases; fetch_cases; wait_cases; log_simpl.
  all: (split; [done|]); (split; [done|]).
  all: try match goal with
       | H : mergeConfig _ _ = None |- _ =>
           let Hcm := fresh "Hcm" in
           let Hnil := fresh "Hnil" in
           left; apply mergeConfig_None in H as [Hcm Hnil];
           split; [done|]; split; [exact Hcm|]; by rewrite Hnil
       end.
  all: right; (split; [done|]).
  all: match goal with
       | H : buildSecrets (Metadata ?op) = None |- ∃ resp _, [?r] = _ ∧ _ =>
           exists r, op;
           destruct (buildSecrets_spec (Metadata op)) as [[_ Hs]|[Hn _]];
             [by rewrite Hs in H|done]
       end.
Qed.

(** X2 at a session whose metadata holds a number. *)
Lemma panics_only_on_nil_config_or_non_string_secret_witness :
  let w := setSession
             (inl (sessionWith (Some {[ "control" := JNumber 7 ]}))) world0 in
  let r := exec answer
             (copyContainer parseLocator hasSlash None cmd0 config0 "c1"
                "r2:c2" false 0 false false) w in
  r.1.1 = Panicked "interface conversion: interface {} is not string" ∧
  sentConfigs r.2 = [] ∧ printed r.2 = [].
Proof.
  split; [vm_compute; reflexivity|].
  destruct (panics_only_on_nil_config_or_non_string_secret parseLocator
    hasSlash None cmd0 config0 "c1" "r2:c2" false 0 false false World answer
    (setSession (inl (sessionWith (Some {[ "control" := JNumber 7 ]}))) world0)
    "interface conversion: interface {} is not string") as (Hsent & Hprinted & _).
  - by vm_compute.
  - by split.
Defined.

Ltac elem_tac := solve [repeat first [by left | right]].

Ltac answer_cases :=
  repeat match goal with
  | |- context [match ?d with Some _ => _ | None => _ end] =>
      is_var d; destruct d
  end.

(** X3: an error that a run returns is one of four fixed messages (no source
    name, same name, profiles missing on the target, no resource reported),
    or an error that the client construction, a lookup, the copy request, a
    wait, the profile listing, the session request or the address discovery
    answered with, or the error of reading the session's metadata, or the
    message built at lines 275-280 from the answer to the status question
    and the last handshake error.  The error of a handshake, or of the status
    question itself, is never the result as it is. *)
Theorem returned_error_is_fixed_or_answered
    (ParseRemoteAndContainer : lxd_Config → string → string * string)
    (IsSnapshot : string → bool) (configMap : gomap string)
    (c : copyCmd) (config : lxd_Config) (sourceResource destResource : string)
    (keepVolatile : bool) (ephemeral : Z) (stateful only : bool)
    (W : Type) (handle : ∀ X, call X → W → X * W) (w : W) (e : error) :
  let r := exec handle
             (copyContainer ParseRemoteAndContainer IsSnapshot configMap c
                config sourceResource destResource keepVolatile ephemeral
                stateful only) w in
  r.1.1 = Returned (Some e) →
  e ∈ [errSourceName; errSameName; errProfiles; errNoResource] ∨
  e ∈ fatalErrors r.2 ∨
  (∃ resp, sessionAnswers r.2 = [resp] ∧ MetadataAsOperation resp = inr e) ∨
  (∃ answer,
     statusAnswers r.2 = [answer] ∧
     e = exhaustedError (last (handshakeErrors r.2)) answer).
Proof.
  intros r. subst r. run_start. intros ->.
  run_cases; fetch_cases; wait_cases; log_simpl.
  all: try (left; elem_tac).
  all: try (right; left; answer_cases; elem_tac).
  all: try (right; right; left; eexists; split; [reflexivity|done]).
  all: right; right; right; eexists; split; [reflexivity|].
  all: rewrite (list_omap_rejections _ (λ _ err, err)) by done.
  all: by rewrite zip_with_snd, app_nil_r, lastError_None by done.
Qed.

(** X3 at a run whose handshakes are all rejected. *)
Lemma returned_error_is_fixed_or_answered_witness :
  let e := "Migration failed on target host: bad handshake" in
  let r := exec answer
             (copyContainer parseLocator hasSlash None cmd0 config0 "c1"
                "r2:c2" false 0 false false)
             (setHandshakes [inr "refused"; inr "bad handshake"] world0) in
  r.1.1 = Returned (Some e) ∧
  fatalErrors r.2 = [] ∧ handshakeErrors r.2 = ["refused"; "bad handshake"] ∧
  (e ∈ [errSourceName; errSameName; errProfiles; errNoResource] ∨
   e ∈ fatalErrors r.2 ∨
   (∃ resp, sessionAnswers r.2 = [resp] ∧ MetadataAsOperation resp = inr e) ∨
   (∃ answer,
      statusAnswers r.2 = [answer] ∧
      e = exhaustedError (last (handshakeErrors r.2)) answer)).
Proof.
  split; [vm_compute; reflexivity|]. split; [vm_compute; reflexivity|]. split; [vm_compute; reflexivity|].
  apply (returned_error_is_fixed_or_answered parseLocator hasSlash None
    cmd0 config0 "c1" "r2:c2" false 0 false false World answer
    (setHandshakes [inr "refused"; inr "bad handshake"] world0)
    "Migration failed on target host: bad handshake").
  by vm_compute.
Defined.

Lemma zip_fmap {A B A' B'} (f : A → A') (g : B → B') (l : list A) (k : list B) :
  zip (f <$> l) (g <$> k) = zip_with (λ x y, (f x, g y)) l k.
Proof.
  revert k. induction l as [|x l IH]; intros [|y k]; simpl; [done..|].
  by rewrite <- IH.
Qed.

Lemma zip_with_snoc {A B C} (f : A → B → C) (l : list A) (k : list B) x y :
  l !! length k = Some x →
  zip_with f l (k ++ [y]) = zip_with f l k ++ [f x y].
Proof.
  revert l. induction k as [|z k IH]; intros [|a l] Hx; simplify_eq/=.
  - by destruct l.
  - by rewrite (IH l Hx).
Qed.

Ltac rejections_some :=
  repeat match goal with
  | |- context [list_omap _ _ ?f
                  (rejections ?s ?d ?n ?r ?k ?st ?b ?e ?o ?a ?errs)] =>
      erewrite (list_omap_rejections f _ s d n r k st b e o a errs)
        by (intros; reflexivity)
  end.

(** X4: the source is asked for the status of the session's operation only
    when a handshake was made for every address of the discovery, in order,
    and each one was rejected; nothing was accepted, waited for or printed;
    the question is the last call of the run, and the result is the error
    that lines 275-280 build from its answer and the last handshake error. *)
Theorem status_asked_only_after_every_address_rejected
    (ParseRemoteAndContainer : lxd_Config → string → string * string)
    (IsSnapshot : string → bool) (configMap : gomap string)
    (c : copyCmd) (config : lxd_Config) (sourceResource destResource : string)
    (keepVolatile : bool) (ephemeral : Z) (stateful only : bool)
    (W : Type) (handle : ∀ X, call X → W → X * W) (w : W)
    (answer : Operation + error) :
  let r := exec handle
             (copyContainer ParseRemoteAndContainer IsSnapshot configMap c
                config sourceResource destResource keepVolatile ephemeral
                stateful only) w in
  answer ∈ statusAnswers r.2 →
  ∃ source resp addresses,
    head (clientAnswers r.2) = Some source ∧
    sessionAnswers r.2 = [resp] ∧ discovered r.2 = [addresses] ∧
    handshakeAnswers r.2
      = zip (sourceWSUrl resp <$> addresses) (inr <$> handshakeErrors r.2) ∧
    length (handshakeErrors r.2) = length addresses ∧
    accepted r.2 = [] ∧ waits r.2 = [] ∧ printed r.2 = [] ∧
    last r.2 = Some (Ev (GetOperation source (ROperation resp)) answer) ∧
    r.1.1 = Returned (Some (exhaustedError (last (handshakeErrors r.2)) answer)).
Proof.
  intros r. subst r. run_start. intros Hanswer.
  run_cases; fetch_cases; wait_cases; log_simpl.
  all: try (by apply elem_of_nil in Hanswer).
  all: apply list_elem_of_singleton in Hanswer as ->.
  all: eexists _, _, _; do 3 (split; [reflexivity|]).
  all: rejections_some; rewrite !app_nil_r.
  all: rewrite zip_with_snd by done.
  all: split; [by rewrite zip_fmap|].
  all: do 4 (split; [done|]).
  all: split; [by last_simpl|by rewrite lastError_None].
Qed.

(** X4 at a run whose two handshakes are rejected. *)
Lemma status_asked_only_after_every_address_rejected_witness :
  let r := exec answer
             (copyContainer parseLocator hasSlash None cmd0 config0 "c1"
                "r2:c2" false 0 false false)
             (setHandshakes [inr "refused"; inr "bad handshake"] world0) in
  inl emptyOperation ∈ statusAnswers r.2 ∧
  handshakeErrors r.2 = ["refused"; "bad handshake"] ∧
  ∃ source resp addresses,
    head (clientAnswers r.2) = Some source ∧
    sessionAnswers r.2 = [resp] ∧ discovered r.2 = [addresses] ∧
    handshakeAnswers r.2
      = zip (sourceWSUrl resp <$> addresses) (inr <$> handshakeErrors r.2) ∧
    length (handshakeErrors r.2) = length addresses ∧
    accepted r.2 = [] ∧ waits r.2 = [] ∧ printed r.2 = [] ∧
    last r.2 = Some (Ev (GetOperation source (ROperation resp))
                       (inl emptyOperation)) ∧
    r.1.1 = Returned (Some (exhaustedError (last (handshakeErrors r.2))
                              (inl emptyOperation))).
Proof.
  split; [vm_compute; by left|]. split; [vm_compute; reflexivity|].
  apply (status_asked_only_after_every_address_rejected parseLocator hasSlash
    None cmd0 config0 "c1" "r2:c2" false 0 false false World answer
    (setHandshakes [inr "refused"; inr "bad handshake"] world0)
    (inl emptyOperation)).
  vm_compute. by left.
Defined.

(** X5: the handshakes of a run go to the addresses that the source
    answered the discovery with, one for each address from the first on, in
    that order, under the URL made of "https://", the address and the
    session's operation; every handshake but the last is a rejected one, and
    at most one is accepted. *)
Theorem handshakes_follow_discovered_addresses
    (ParseRemoteAndContainer : lxd_Config → string → string * string)
    (IsSnapshot : string → bool) (configMap : gomap string)
    (c : copyCmd) (config : lxd_Config) (sourceResource destResource : string)
    (keepVolatile : bool) (ephemeral : Z) (stateful only : bool)
    (W : Type) (handle : ∀ X, call X → W → X * W) (w : W) :
  let r := exec handle
             (copyContainer ParseRemoteAndContainer IsSnapshot configMap c
                config sourceResource destResource keepVolatile ephemeral
                stateful only) w in
  handshakeAnswers r.2 ≠ [] →
  ∃ resp addresses,
    sessionAnswers r.2 = [resp] ∧ discovered r.2 = [addresses] ∧
    handshakeAnswers r.2
      = zip (sourceWSUrl resp <$> addresses)
          ((inr <$> handshakeErrors r.2) ++ (inl <$> accepted r.2)) ∧
    (length (accepted r.2) ≤ 1)%nat ∧
    (length (handshakeErrors r.2) + length (accepted r.2)
       ≤ length addresses)%nat.
Proof.
  intros r. subst r. run_start. intros Hsome.
  run_cases; fetch_cases; wait_cases; log_simpl; try done.
  all: eexists _, _; do 2 (split; [reflexivity|]).
  all: rejections_some; rewrite ?app_nil_r.
  all: rewrite zip_with_snd by done.
  all: (split; [|split; [simpl; lia|]]).
  all: try (by rewrite zip_fmap).
  all: try (rewrite ?length_app; simpl; lia).
  all: try match goal with
       | H : _ !! length _ = Some ?x |- (_ ≤ _)%nat =>
           apply lookup_lt_Some in H; lia
       end.
  all: match goal with
       | H : _ !! length _ = Some ?x |- _ =>
           rewrite (zip_with_snoc _ _ _ (sourceWSUrl _ x))
             by (by rewrite list_lookup_fmap, length_fmap, H)
       end.
  all: by rewrite zip_fmap.
Qed.

(** X5 at four addresses, the third of which is accepted. *)
Lemma handshakes_follow_discovered_addresses_witness :
  let r := exec answer
             (copyContainer parseLocator hasSlash None cmd0 config0 "c1"
                "r2:c2" false 0 false false)
             (setAddresses (inl ["a:1"; "a:1"; "b:2"; "c:3"])
                (setHandshakes
                   [inr "refused"; inr "bad handshake"; inl withResources]
                   world0)) in
  (fst <$> handshakeAnswers r.2)
    = ["https://a:1/1.0/operations/src"; "https://a:1/1.0/operations/src";
       "https://b:2/1.0/operations/src"] ∧
  ∃ resp addresses,
    sessionAnswers r.2 = [resp] ∧ discovered r.2 = [addresses] ∧
    handshakeAnswers r.2
      = zip (sourceWSUrl resp <$> addresses)
          ((inr <$> handshakeErrors r.2) ++ (inl <$> accepted r.2)) ∧
    (length (accepted r.2) ≤ 1)%nat ∧
    (length (handshakeErrors r.2) + length (accepted r.2)
       ≤ length addresses)%nat.
Proof.
  split; [vm_compute; reflexivity|].
  apply (handshakes_follow_discovered_addresses parseLocator hasSlash None
    cmd0 config0 "c1" "r2:c2" false 0 false false World answer
    (setAddresses (inl ["a:1"; "a:1"; "b:2"; "c:3"])
       (setHandshakes [inr "refused"; inr "bad handshake"; inl withResources]
          world0))).
  by vm_compute.
Defined.

(** X6: in a run at most one request is accepted, the copy request or one
    handshake; without one there is no wait.  After the copy request of a
    copy within one remote there is one wait, at the source, for the copy's
    operation.  After an accepted handshake there are two, one at the
    destination for the handshake's operation and one at the source for the
    session's operation, in either order. *)
Theorem one_request_accepted_then_waited_for
    (ParseRemoteAndContainer : lxd_Config → string → string * string)
    (IsSnapshot : string → bool) (configMap : gomap string)
    (c : copyCmd) (config : lxd_Config) (sourceResource destResource : string)
    (keepVolatile : bool) (ephemeral : Z) (stateful only : bool)
    (W : Type) (handle : ∀ X, call X → W → X * W) (w : W) :
  let r := exec handle
             (copyContainer ParseRemoteAndContainer IsSnapshot configMap c
                config sourceResource destResource keepVolatile ephemeral
                stateful only) w in
  let sourceRemote := (ParseRemoteAndContainer config sourceResource).1 in
  let destRemote := (ParseRemoteAndContainer config destResource).1 in
  (length (accepted r.2) ≤ 1)%nat ∧
  (accepted r.2 = [] → waits r.2 = []) ∧
  ∀ m, m ∈ accepted r.2 →
    ∃ source,
      head (clientAnswers r.2) = Some source ∧
      ((sourceRemote = destRemote ∧ waits r.2 = [(source, ROperation m)]) ∨
       (sourceRemote ≠ destRemote ∧
        ∃ dest resp,
          clientAnswers r.2 = [source; dest] ∧ sessionAnswers r.2 = [resp] ∧
          waits r.2 ≡ₚ [(dest, ROperation m); (source, ROperation resp)])).
Proof.
  intros r sourceRemote destRemote. subst r sourceRemote destRemote.
  run_start.
  run_cases; fetch_cases; wait_cases; log_simpl.
  all: (split; [lia|]); (split; [done|]); intros m Hm.
  all: try (by apply elem_of_nil in Hm).
  all: apply list_elem_of_singleton in Hm as ->.
  all: eexists; (split; [reflexivity|]).
  all: try (left; split; [assumption|reflexivity]).
  all: right; (split; [assumption|]); eexists _, _.
  all: do 2 (split; [reflexivity|]).
  all: first [reflexivity | apply Permutation_swap].
Qed.

(** X7: every handshake of a run carries the same things from the source's
    side: as secrets the entries of the session's metadata, which are all
    strings, each under its key; the certificate of the source client; the
    source client and the session's operation; no push; and the
    [containerOnly] argument. *)
Theorem handshakes_carry_session_secrets_and_source
    (ParseRemoteAndContainer : lxd_Config → string → string * string)
    (IsSnapshot : string → bool) (configMap : gomap string)
    (c : copyCmd) (config : lxd_Config) (sourceResource destResource : string)
    (keepVolatile : bool) (ephemeral : Z) (stateful only : bool)
    (W : Type) (handle : ∀ X, call X → W → X * W) (w : W) (a : MigrateArgs) :
  let r := exec handle
             (copyContainer ParseRemoteAndContainer IsSnapshot configMap c
                config sourceResource destResource keepVolatile ephemeral
                stateful only) w in
  a ∈ migrations r.2 →
  ∃ source resp op,
    head (clientAnswers r.2) = Some source ∧ sessionAnswers r.2 = [resp] ∧
    MetadataAsOperation resp = inl op ∧
    map_Forall (λ _, isString) (gomap_entries (Metadata op)) ∧
    mSecrets a = omap assertString (gomap_entries (Metadata op)) ∧
    mCertificate a = Certificate source ∧ mSource a = source ∧
    mSourceOperation a = ROperation resp ∧
    mPush a = false ∧ mContainerOnly a = only.
Proof.
  intros r. subst r. run_start. intros Ha.
  run_cases; fetch_cases; wait_cases; log_simpl.
  all: try (by apply elem_of_nil in Ha).
  all: match goal with
       | H : buildSecrets (Metadata ?op) = Some _ |- _ =>
           let Hstr := fresh "Hstr" in
           let Hs := fresh "Hs" in
           let Hn := fresh "Hn" in
           destruct (buildSecrets_spec (Metadata op)) as [[Hstr Hs]|[_ Hn]];
             [rewrite Hs in H; injection H as <-|by rewrite Hn in H]
       end.
  all: apply elem_of_app in Ha as [Ha|Ha];
    [apply elem_of_omap_rejections in Ha as (addr & err & _ & [= <-])
    |first [by apply elem_of_nil in Ha
           |apply list_elem_of_singleton in Ha as ->]].
  all: eexists _, _, _; do 3 (split; [first [reflexivity|eassumption]|]).
  all: by repeat split.
Qed.

(** X7 at a migration whose second handshake is accepted. *)
Lemma handshakes_carry_session_secrets_and_source_witness :
  let r := exec answer
             (copyContainer parseLocator hasSlash None cmd0 config0 "c1"
                "r2:c2" false 0 false false)
             (setHandshakes [inr "refused"; inl withResources] world0) in
  let a := migrateArgs {| Remote := "local"; Certificate := "cert" |} "c2"
             (sessionWith (Some {[ "control" := JString "s1";
                                   "fs" := JString "s2" ]}))
             {[ "control" := "s1"; "fs" := "s2" ]}
             {| Architecture := "x86_64"; Devices := Some ∅;
                Config := Some {[ "limits.cpu" := "2" ]};
                Profiles := ["default"] |}
             "img1" 0 false "https://10.0.0.2:8443/1.0/operations/src" in
  last (migrations r.2) = Some a ∧
  ∃ source resp op,
    head (clientAnswers r.2) = Some source ∧ sessionAnswers r.2 = [resp] ∧
    MetadataAsOperation resp = inl op ∧
    map_Forall (λ _, isString) (gomap_entries (Metadata op)) ∧
    mSecrets a = omap assertString (gomap_entries (Metadata op)) ∧
    mCertificate a = Certificate source ∧ mSource a = source ∧
    mSourceOperation a = ROperation resp ∧
    mPush a = false ∧ mContainerOnly a = false.
Proof.
  split; [vm_compute; reflexivity|].
  apply (handshakes_carry_session_secrets_and_source parseLocator hasSlash
    None cmd0 config0 "c1" "r2:c2" false 0 false false World answer
    (setHandshakes [inr "refused"; inl withResources] world0)).
  vm_compute. right. by left.
Defined.

Lemma mergeConfig_lookup configMap cfg merged k :
  mergeConfig configMap cfg = Some merged →
  gomap_entries merged !! k
    = match gomap_entries configMap !! k with
      | Some v => Some v
      | None => gomap_entries cfg !! k
      end.
Proof.
  unfold mergeConfig. destruct configMap as [cm|]; simpl.
  - destruct cfg as [m|]; simpl.
    + intros [= <-]. simpl. rewrite lookup_union.
      by destruct (cm !! k), (m !! k).
    + case_decide as Hcm; [|done]. intros [= <-]. subst cm. simpl.
      by rewrite lookup_empty.
  - intros [= <-]. by rewrite lookup_empty.
Qed.

Lemma sentConfig_lookup configMap cfg merged keepVolatile k :
  mergeConfig configMap cfg = Some merged →
  gomap_entries (stripVolatile keepVolatile merged) !! k
    = if negb keepVolatile && volatile_key k then None
      else match gomap_entries configMap !! k with
           | Some v => Some v
           | None => gomap_entries cfg !! k
           end.
Proof.
  intros Hmerge. rewrite <- (mergeConfig_lookup _ _ _ _ Hmerge).
  destruct keepVolatile; simpl; [done|].
  destruct (volatile_key k) eqn:Hk.
  - by apply stripVolatile_no_volatile.
  - by apply stripVolatile_keep.
Qed.

(** X8: the profiles that a run sends onward, with the copy request or a
    handshake, are the profiles the source answered the lookup with,
    followed by the profiles of the [--profile] option in the order given;
    nothing is dropped and duplicates stay. *)
Theorem sent_profiles_are_fetched_then_added
    (ParseRemoteAndContainer : lxd_Config → string → string * string)
    (IsSnapshot : string → bool) (configMap : gomap string)
    (c : copyCmd) (config : lxd_Config) (sourceResource destResource : string)
    (keepVolatile : bool) (ephemeral : Z) (stateful only : bool)
    (W : Type) (handle : ∀ X, call X → W → X * W) (w : W)
    (sent : list string) :
  let r := exec handle
             (copyContainer ParseRemoteAndContainer IsSnapshot configMap c
                config sourceResource destResource keepVolatile ephemeral
                stateful only) w in
  sent ∈ sentProfiles r.2 →
  ∃ fetchedProfs,
    head (fetchedProfiles r.2) = Some fetchedProfs ∧
    sent = fetchedProfs ++ default [] (profArgs c).
Proof.
  intros r. subst r. run_start. intros Hsent.
  run_cases; fetch_cases; wait_cases; log_simpl.
  all: try (by apply elem_of_nil in Hsent).
  all: try (apply elem_of_app in Hsent as [Hsent|Hsent];
    [apply elem_of_omap_rejections in Hsent as (addr & err & _ & [= <-])
    |first [by apply elem_of_nil in Hsent
           |apply list_elem_of_singleton in Hsent as ->]]).
  all: try (apply list_elem_of_singleton in Hsent as ->).
  all: eexists; (split; [reflexivity|]).
  all: unfold addProfiles; destruct (profArgs c); simpl; by rewrite ?app_nil_r.
Qed.

(** X8 at a copy with two profiles added, one of them a duplicate. *)
Lemma sent_profiles_are_fetched_then_added_witness :
  let cmd := {| profArgs := Some ["web"; "default"]; confArgs := [];
                ephem := false; containerOnly := false |} in
  let r := exec answer
             (copyContainer parseLocator hasSlash None cmd config0 "c1" "c2"
                false 0 false false) world0 in
  sentProfiles r.2 = [["default"; "web"; "default"]] ∧
  ∃ fetchedProfs,
    head (fetchedProfiles r.2) = Some fetchedProfs ∧
    ["default"; "web"; "default"] = fetchedProfs ++ ["web"; "default"].
Proof.
  split; [vm_compute; reflexivity|].
  refine (sent_profiles_are_fetched_then_added parseLocator hasSlash None
    {| profArgs := Some ["web"; "default"]; confArgs := [];
       ephem := false; containerOnly := false |}
    config0 "c1" "c2" false 0 false false World answer world0
    ["default"; "web"; "default"] _).
  vm_compute. by left.
Defined.

(** X9: a configuration that a run sends onward, with the copy request or a
    handshake, is read key by key off the configuration the source answered
    the lookup with and [configMap]: a key that starts with "volatile" is
    absent unless [keepVolatile] is set; any other key has the value of
    [configMap] when [configMap] has the key, and the source's value, or
    none, when it has not. *)
Theorem sent_config_is_fetched_overridden_then_stripped
    (ParseRemoteAndContainer : lxd_Config → string → string * string)
    (IsSnapshot : string → bool) (configMap : gomap string)
    (c : copyCmd) (config : lxd_Config) (sourceResource destResource : string)
    (keepVolatile : bool) (ephemeral : Z) (stateful only : bool)
    (W : Type) (handle : ∀ X, call X → W → X * W) (w : W)
    (sent : gomap string) :
  let r := exec handle
             (copyContainer ParseRemoteAndContainer IsSnapshot configMap c
                config sourceResource destResource keepVolatile ephemeral
                stateful only) w in
  sent ∈ sentConfigs r.2 →
  ∃ fetchedConfig,
    head (fetchedConfigs r.2) = Some fetchedConfig ∧
    ∀ k, gomap_entries sent !! k
         = if negb keepVolatile && volatile_key k then None
           else match gomap_entries configMap !! k with
                | Some v => Some v
                | None => gomap_entries fetchedConfig !! k
                end.
Proof.
  intros r. subst r. run_start. intros Hsent.
  run_cases; fetch_cases; wait_cases; log_simpl.
  all: try (by apply elem_of_nil in Hsent).
  all: try (apply elem_of_app in Hsent as [Hsent|Hsent];
    [apply elem_of_omap_rejections in Hsent as (addr & err & _ & [= <-])
    |first [by apply elem_of_nil in Hsent
           |apply list_elem_of_singleton in Hsent as ->]]).
  all: try (apply list_elem_of_singleton in Hsent as ->).
  all: eexists; (split; [reflexivity|]); intros k.
  all: by apply sentConfig_lookup.
Qed.

(** X9 at a copy with an override and a new key in [configMap]. *)
Lemma sent_config_is_fetched_overridden_then_stripped_witness :
  let configMap := Some {[ "limits.cpu" := "4"; "user.note" := "x" ]} in
  let r := exec answer
             (copyContainer parseLocator hasSlash configMap cmd0 config0 "c1"
                "c2" false 0 false false) world0 in
  sentConfigs r.2 = [Some {[ "limits.cpu" := "4"; "user.note" := "x" ]}] ∧
  ∃ fetchedConfig,
    head (fetchedConfigs r.2) = Some fetchedConfig ∧
    ∀ k, gomap_entries (Some {[ "limits.cpu" := "4"; "user.note" := "x" ]})
           !! k
         = if negb false && volatile_key k then None
           else match gomap_entries configMap !! k with
                | Some v => Some v
                | None => gomap_entries fetchedConfig !! k
                end.
Proof.
  split; [vm_compute; reflexivity|].
  refine (sent_config_is_fetched_overridden_then_stripped parseLocator hasSlash
    (Some {[ "limits.cpu" := "4"; "user.note" := "x" ]}) cmd0 config0 "c1"
    "c2" false 0 false false World answer world0
    (Some {[ "limits.cpu" := "4"; "user.note" := "x" ]}) _).
  vm_compute. by left.
Defined.

Ltac elems_all H :=
  repeat first
    [ apply elem_of_cons in H as [->|H]
    | apply elem_of_app in H as [H|H];
        [apply elem_of_omap_rejections in H as (? & ? & _ & [= <-])|]
    | by apply elem_of_nil in H ].

Ltac elems H :=
  repeat (apply elem_of_cons in H as [->|H]); try (by apply elem_of_nil in H).

(** X10: a copy within one remote makes no other client than the source's,
    asks for no profile list, no session and no addresses, and makes no
    handshake: its calls are the client construction, the one lookup of the
    source, the copy request, one wait and one print, at most five in all.
    The copy request is ephemeral exactly when [ephemeral] is 1; with -1 it
    is not, and the source's setting is not asked for. *)
Theorem copy_within_one_remote_stays_local
    (ParseRemoteAndContainer : lxd_Config → string → string * string)
    (IsSnapshot : string → bool) (configMap : gomap string)
    (c : copyCmd) (config : lxd_Config) (sourceResource destResource : string)
    (keepVolatile : bool) (ephemeral : Z) (stateful only : bool)
    (W : Type) (handle : ∀ X, call X → W → X * W) (w : W) :
  let r := exec handle
             (copyContainer ParseRemoteAndContainer IsSnapshot configMap c
                config sourceResource destResource keepVolatile ephemeral
                stateful only) w in
  (ParseRemoteAndContainer config sourceResource).1
    = (ParseRemoteAndContainer config destResource).1 →
  Forall (λ e, isLocalCall e = true) r.2 ∧
  (length r.2 ≤ 5)%nat ∧
  (length (clientAnswers r.2) ≤ 1)%nat ∧
  (length (containerLookups r.2) + length (snapshotLookups r.2) ≤ 1)%nat ∧
  (length (sentEphemerals r.2) ≤ 1)%nat ∧
  (∀ b, b ∈ sentEphemerals r.2 → b = bool_decide (ephemeral = 1%Z)).
Proof.
  intros r. subst r. run_start. intros Hsame.
  run_cases; try done; fetch_cases; log_simpl.
  all: (split; [by repeat constructor|]); do 4 (split; [lia|]).
  all: intros b Hb; by elems Hb.
Qed.

(** X10 at a copy within the default remote, with -1 for [ephemeral], of a
    container that is ephemeral. *)
Lemma copy_within_one_remote_stays_local_witness :
  let r := exec answer
             (copyContainer parseLocator hasSlash None cmd0 config0 "c1" "c2"
                false (-1) false false) world0 in
  cEphemeral container0 = true ∧ sentEphemerals r.2 = [false] ∧
  containerLookups r.2
    = [({| Remote := "local"; Certificate := "cert" |}, "c1", inl container0)] ∧
  Forall (λ e, isLocalCall e = true) r.2 ∧ (length r.2 ≤ 5)%nat.
Proof.
  split; [vm_compute; reflexivity|]. split; [vm_compute; reflexivity|].
  split; [vm_compute; reflexivity|].
  destruct (copy_within_one_remote_stays_local parseLocator hasSlash None cmd0
    config0 "c1" "c2" false (-1) false false World answer world0)
    as (Hlocal & Hlen & _).
  - vm_compute. reflexivity.
  - by split.
Defined.

(** X11: every lookup of a run is made at the source client and under the
    source name.  The source is looked up as a snapshot exactly when
    [shared.IsSnapshot] says it is one, once; a container is looked up at
    most twice, and at most once unless [ephemeral] is -1: with -1 a
    migration asks for the container of the source name a second time, and
    asks for a container even when the source is a snapshot. *)
Theorem lookups_are_of_the_source_name
    (ParseRemoteAndContainer : lxd_Config → string → string * string)
    (IsSnapshot : string → bool) (configMap : gomap string)
    (c : copyCmd) (config : lxd_Config) (sourceResource destResource : string)
    (keepVolatile : bool) (ephemeral : Z) (stateful only : bool)
    (W : Type) (handle : ∀ X, call X → W → X * W) (w : W) :
  let r := exec handle
             (copyContainer ParseRemoteAndContainer IsSnapshot configMap c
                config sourceResource destResource keepVolatile ephemeral
                stateful only) w in
  let sourceName := (ParseRemoteAndContainer config sourceResource).2 in
  (∀ q, q ∈ containerLookups r.2 →
     head (clientAnswers r.2) = Some q.1.1 ∧ q.1.2 = sourceName) ∧
  (∀ n, n ∈ snapshotLookups r.2 →
     n = sourceName ∧ IsSnapshot sourceName = true) ∧
  (IsSnapshot sourceName = false → snapshotLookups r.2 = []) ∧
  (length (snapshotLookups r.2) ≤ 1)%nat ∧
  (length (containerLookups r.2) + length (snapshotLookups r.2) ≤ 2)%nat ∧
  (ephemeral ≠ (-1)%Z →
   (length (containerLookups r.2) + length (snapshotLookups r.2) ≤ 1)%nat).
Proof.
  intros r sourceName. subst r sourceName. run_start.
  run_cases; fetch_cases; wait_cases; log_simpl.
  all: split; [intros q Hq; elems Hq; simpl; done|].
  all: split; [intros n Hn; elems Hn; simpl; done|].
  all: split; [intros ?; first [done|congruence]|].
  all: split; [lia|]; split; [lia|]; intros ?; first [lia|done].
Qed.

(** X12: [run] without arguments returns the package's argument error and
    makes no call; arguments after the second are not looked at.  In every
    run of it the session is asked for without state, [containerOnly] goes
    with the copy request, the session request and every handshake as the
    [--container-only] option has it, and no configuration that is sent has
    a key that starts with "volatile". *)
Theorem run_passes_fixed_arguments
    (ParseRemoteAndContainer : lxd_Config → string → string * string)
    (IsSnapshot : string → bool) (configMap : gomap string) (errArgs : error)
    (c : copyCmd) (config : lxd_Config) (args : list string)
    (W : Type) (handle : ∀ X, call X → W → X * W) (w : W) :
  let r := exec handle
             (run ParseRemoteAndContainer IsSnapshot configMap errArgs c
                config args) w in
  (args = [] → r = (Returned (Some errArgs), w, [])) ∧
  (∀ arg0 arg1 rest,
     run ParseRemoteAndContainer IsSnapshot configMap errArgs c config
       (arg0 :: arg1 :: rest)
     = run ParseRemoteAndContainer IsSnapshot configMap errArgs c config
         [arg0; arg1]) ∧
  (∀ b, b ∈ sessionStateful r.2 → b = false) ∧
  (∀ b, b ∈ sentContainerOnly r.2 → b = containerOnly c) ∧
  (∀ cfg k, cfg ∈ sentConfigs r.2 → volatile_key k = true →
     gomap_entries cfg !! k = None).
Proof.
  intros r. subst r. split; [by intros ->|]. split; [done|].
  destruct args as [|arg0 rest].
  { simpl. by repeat split; intros; exfalso; eapply elem_of_nil. }
  assert (run ParseRemoteAndContainer IsSnapshot configMap errArgs c config
            (arg0 :: rest)
          = copyContainer ParseRemoteAndContainer IsSnapshot configMap c
              config arg0 (default "" (head rest)) false
              (if ephem c then 1%Z else 0%Z) false (containerOnly c)) as ->
    by (by destruct rest).
  run_start.
  run_cases; fetch_cases; wait_cases; log_simpl.
  all: split; [intros b Hb; elems_all Hb; done|].
  all: split; [intros b Hb; elems_all Hb; done|].
  all: intros cfg k Hcfg Hk; elems_all Hcfg; by apply stripVolatile_no_volatile.
Qed.

(** X12 at three arguments, with the [--container-only] option. *)
Lemma run_passes_fixed_arguments_witness :
  let cmd := {| profArgs := None; confArgs := []; ephem := false;
                containerOnly := true |} in
  let r := exec answer
             (run parseLocator hasSlash None
                "wrong number of subcommand arguments" cmd config0
                ["c1"; "r2:c2"; "ignored"]) world0 in
  sessionStateful r.2 = [false] ∧ sentContainerOnly r.2 = [true; true; true] ∧
  (∀ b, b ∈ sentContainerOnly r.2 → b = true).
Proof.
  split; [vm_compute; reflexivity|]. split; [vm_compute; reflexivity|].
  exact (proj1 (proj2 (proj2 (proj2 (run_passes_fixed_arguments parseLocator
    hasSlash None "wrong number of subcommand arguments"
    {| profArgs := None; confArgs := []; ephem := false;
       containerOnly := true |}
    config0 ["c1"; "r2:c2"; "ignored"] World answer world0))))).
Defined.

(** X13: the receive loop of lines 235-245 leaves [destOpErr] nil whatever
    the messages are; of the two messages of the waiters, in either order,
    it keeps the source's answer and nothing of the destination's. *)
Theorem receive_loop_keeps_the_source_answer_only
    (msgs : list (gmap nat (option error))) (d s : option error) :
  (receiveAll msgs).2 = None ∧
  receiveAll [ {[ destOpId := d ]}; {[ sourceOpId := s ]} ] = (s, None) ∧
  receiveAll [ {[ sourceOpId := s ]}; {[ destOpId := d ]} ] = (s, None).
Proof. split; [apply receiveAll_dest_nil|apply receiveAll_pair]. Qed.
